(** * Lumix Engine: the [Material] resource (renderer/material.cpp)

    A shallow embedding of [Lumix::Material]: loading a material from its
    JSON document, saving it back, the readiness reconciliation
    ([onBeforeReady]) and the mutators ([setDefine], [setTexture],
    [setShader], [setAlphaRef]).

    Conventions.
    - C++ integers are [Z] with their wrap-around written out ([u32], [u64]).
    - A [float] is its IEEE-754 binary32 bit pattern, a [Z] in [0, 2^32).
    - Resources live in stores ([list Texture], [list Shader]); a pointer is
      an index into the store, the null pointer is [None].
    - Methods are computations in the monad [Eff]: they read and write the
      state (stores and the material [this]), emit the calls they make on
      collaborators as a list of [Event]s, and are undefined ([None]) where
      the C++ indexes an array out of range or follows a dangling pointer. *)

From Stdlib Require Import ZArith Lia Bool Ascii String.
From stdpp Require Import base option list strings.

Local Open Scope Z_scope.

(** ** Machine integers *)

Definition u8 (z : Z) : Z := z mod 2 ^ 8.
Definition u32 (z : Z) : Z := z mod 2 ^ 32.
Definition u64 (z : Z) : Z := z mod 2 ^ 64.

(** The [int] read back from a 32-bit word. *)
Definition s32 (z : Z) : Z :=
  if u32 z <? 2 ^ 31 then u32 z else u32 z - 2 ^ 32.

(** ** binary32 floats, as far as the material computes with them

    The material stores floats, copies them and, in one place, multiplies
    one by [255.0f] and converts the product to [uint8]. *)

Module F32.

Definition sign (b : Z) : bool := Z.testbit b 31.
Definition exponent (b : Z) : Z := Z.land (Z.shiftr b 23) 255.
Definition fraction (b : Z) : Z := Z.land b (2 ^ 23 - 1).

Definition is_nan (b : Z) : bool := (exponent b =? 255) && negb (fraction b =? 0).
Definition is_inf (b : Z) : bool := (exponent b =? 255) && (fraction b =? 0).
Definition is_zero (b : Z) : bool := (exponent b =? 0) && (fraction b =? 0).

(** A finite float is [(-1)^sign * significand * 2^scale]. *)
Definition significand (b : Z) : Z :=
  if exponent b =? 0 then fraction b else fraction b + 2 ^ 23.
Definition scale (b : Z) : Z :=
  (if exponent b =? 0 then 1 else exponent b) - 150.

Definition sign_bit (neg : bool) : Z := if neg then 2 ^ 31 else 0.
Definition infinity (neg : bool) : Z := sign_bit neg + 255 * 2 ^ 23.
Definition quiet_nan : Z := 255 * 2 ^ 23 + 2 ^ 22.

(** [m / 2^sh] rounded to the nearest integer, ties to even ([0 < sh]). *)
Definition round_half_even (m sh : Z) : Z :=
  let d := 2 ^ sh in
  let q := m / d in
  let r := m mod d in
  if 2 * r <? d then q
  else if d <? 2 * r then q + 1
  else if Z.even q then q else q + 1.

(** The float nearest to [(-1)^neg * m * 2^e], for [0 <= m]. *)
Definition encode (neg : bool) (m e : Z) : Z :=
  if m =? 0 then sign_bit neg
  else
    let nbits := Z.log2 m + 1 in
    let ulp := Z.max (e + nbits - 24) (-149) in
    let q := if ulp <=? e then m * 2 ^ (e - ulp) else round_half_even m (ulp - e) in
    let '(q, ulp) := if q =? 2 ^ 24 then (2 ^ 23, ulp + 1) else (q, ulp) in
    if q <? 2 ^ 23 then sign_bit neg + q
    else if 254 <? ulp + 150 then infinity neg
    else sign_bit neg + (ulp + 150) * 2 ^ 23 + (q - 2 ^ 23).

(** [a * b] in binary32, round to nearest even. *)
Definition mul (a b : Z) : Z :=
  let neg := xorb (sign a) (sign b) in
  if is_nan a || is_nan b then quiet_nan
  else if is_inf a || is_inf b then
    (if is_zero a || is_zero b then quiet_nan else infinity neg)
  else encode neg (significand a * significand b) (scale a + scale b).

(** The integer part of a finite float (truncation toward zero). *)
Definition truncate (b : Z) : Z :=
  let m := significand b in
  let e := scale b in
  let mag := if 0 <=? e then m * 2 ^ e else m / 2 ^ (- e) in
  if sign b then - mag else mag.

(** The C++ conversion [uint8(x)]: the value is truncated toward zero.
    The standard defines it only when the truncated value fits [uint8];
    outside that range (and for NaN and infinities, taken as 0) the model
    keeps the low eight bits, as the compilers the engine is built with do. *)
Definition to_u8 (b : Z) : Z :=
  if exponent b =? 255 then 0 else u8 (truncate b).

(** The float of an [int]. *)
Definition of_int (z : Z) : Z := encode (z <? 0) (Z.abs z) 0.

Definition zero : Z := 0.
Definition one : Z := 0x3F800000.
Definition four : Z := 0x40800000.
Definition two_five_five : Z := 0x437F0000.

End F32.


(** ** Strings as the C code handles them *)

(** A copy into a buffer of [size] chars keeps at most [size - 1] of them
    ([copyString], [catString] and the serializer's string reads). *)
Definition copyString (size : nat) (src : string) : string :=
  String.substring 0 (size - 1) src.

Definition compareString (a b : string) : bool := String.eqb a b.

(** [path[0] != '/' && path[0] != '\\'] *)
Definition starts_with_separator (path : string) : bool :=
  match path with
  | String c _ => (Ascii.eqb c "/"%char || Ascii.eqb c "\"%char)%bool
  | EmptyString => false
  end.

Definition is_empty_string (s : string) : bool :=
  match s with EmptyString => true | _ => false end.

(** ** The material document

    [JsonSerializer] is used through its typed calls only; a document is
    the tree of values those calls write and read.  A [JFloat] carries the
    float its text denotes; what the text written for a float reads back as
    is the engine's [JsonSerializer_float]. *)

#[local] Unset Elimination Schemes.
Inductive jvalue : Type :=
| JInt (z : Z)
| JFloat (bits : Z)
| JBool (b : bool)
| JString (s : string)
| JArray (items : list jvalue)
| JObject (entries : list (string * jvalue)).
#[local] Set Elimination Schemes.

(** deserializeObjectBegin ... isObjectEnd: the members of an object, in
    document order (a value that is no object has none). *)
Definition object_entries (v : jvalue) : list (string * jvalue) :=
  match v with JObject entries => entries | _ => [] end.

(** deserializeArrayBegin ... isArrayEnd: the items of an array. *)
Definition array_items (v : jvalue) : list jvalue :=
  match v with JArray items => items | _ => [] end.

(** The typed reads [deserialize(value, default)]. *)
Definition read_int (v : jvalue) (default_value : Z) : Z :=
  match v with JInt z => s32 z | _ => default_value end.

Definition read_float (v : jvalue) (default_value : Z) : Z :=
  match v with
  | JFloat bits => bits
  | JInt z => F32.of_int z
  | _ => default_value
  end.

Definition read_bool (v : jvalue) (default_value : bool) : bool :=
  match v with JBool b => b | _ => default_value end.

Definition read_string (max_length : nat) (v : jvalue) (default_value : string) : string :=
  match v with JString s => copyString max_length s | _ => default_value end.

(** deserializeArrayItem(value, default) for the [j]-th item. *)
Definition read_float_item (items : list jvalue) (j : nat) (default_value : Z) : Z :=
  match items !! j with Some v => read_float v default_value | None => default_value end.

(** ** Resources *)

Inductive ResourceState : Type := EMPTY | LOADING | READY | FAILURE.

Inductive Resource : Type :=
| TextureRes (id : nat)
| ShaderRes (id : nat).

Record Texture : Type := {
  tex_path : string;
  tex_flags : Z;
  tex_atlas_size : Z;
  tex_data_reference_count : Z;
  tex_ref_count : Z
}.

Inductive UniformType : Type := FLOAT | VEC3 | COLOR | TIME | INT | MATRIX4.

Record ShaderUniform : Type := {
  su_name : string;
  su_name_hash : Z;
  su_type : UniformType;
  su_handle : Z
}.

Record TextureSlot : Type := {
  m_define_idx : Z;
  m_uniform : string;
  m_uniform_handle : Z
}.

Record Shader : Type := {
  sh_path : string;
  sh_ready : bool;
  sh_ref_count : Z;
  sh_uniforms : list ShaderUniform;
  sh_texture_slots : list TextureSlot;
  sh_render_states : Z
}.

(** A material's uniform entry: the name hash and the 64-byte union
    [int_value | float_value | vec3[3] | matrix[16]], as sixteen 32-bit
    words that all four views share. *)
Record Uniform : Type := {
  name_hash : Z;
  words : list Z
}.

Definition get_word (u : Uniform) (j : nat) : Z := default 0 (words u !! j).

Definition set_word (j : nat) (v : Z) (u : Uniform) : Uniform :=
  {| name_hash := name_hash u; words := <[j := v]> (resize 16 0 (words u)) |}.

Definition set_name_hash (h : Z) (u : Uniform) : Uniform :=
  {| name_hash := h; words := words u |}.

(** A shader instance is named by its shader and define mask. *)
Inductive ShaderInstance : Type :=
| FirstInstance (shader : nat)
| InstanceOf (shader : nat) (mask : Z).

(** The operations of [CommandBufferGenerator]. *)
Inductive Command : Type :=
| CmdSetUniform (handle : Z) (x y z w : Z)
| CmdSetTimeUniform (handle : Z)
| CmdSetTexture (slot : nat) (uniform_handle : Z) (texture : nat)
| CmdEnd.

Record Material : Type := {
  m_path : string;
  m_state : ResourceState;
  m_size : Z;
  m_shader : option nat;
  m_shader_instance : option ShaderInstance;
  m_textures : list (option nat);
  m_texture_count : nat;
  m_uniforms : list Uniform;
  m_render_states : Z;
  m_color : Z * Z * Z;
  m_shininess : Z;
  m_alpha_ref : Z;
  m_define_mask : Z;
  m_command_buffer : option (list Command);
  m_layer_count : Z
}.

Definition isReady (m : Material) : bool :=
  match m_state m with READY => true | _ => false end.

(** What the material asks of its collaborators, in call order. *)
Inductive Event : Type :=
| LogWarning (label : string)
| LogError (label : string)
| ManagerLoad (r : Resource)
| ManagerUnload (r : Resource)
| AddDependency (r : Resource)
| RemoveDependency (r : Resource)
| SetAtlasSize (texture : nat) (size : Z)
| SetFlags (texture : nat) (flags : Z)
| AddDataReference (texture : nat)
| GetInstance (shader : nat) (mask : Z).

(** ** What the engine provides

    Constants, tables and helpers that material.cpp uses and that are
    declared elsewhere in the engine or in bgfx. *)
Class Engine : Type := {
  (** core/crc32.h *)
  crc32 : string -> Z;
  (** Material::MAX_TEXTURE_COUNT, the length of [m_textures] *)
  MAX_TEXTURE_COUNT : nat;
  (** MAX_PATH_LENGTH *)
  MAX_PATH_LENGTH : nat;
  (** bgfx texture flags *)
  BGFX_TEXTURE_SRGB : Z;
  BGFX_TEXTURE_U_CLAMP : Z;
  BGFX_TEXTURE_V_CLAMP : Z;
  BGFX_TEXTURE_W_CLAMP : Z;
  BGFX_TEXTURE_MIN_POINT : Z;
  BGFX_TEXTURE_MIN_ANISOTROPIC : Z;
  BGFX_TEXTURE_MAG_POINT : Z;
  BGFX_TEXTURE_MAG_ANISOTROPIC : Z;
  (** bgfx: where the alpha reference sits in the render state *)
  BGFX_STATE_ALPHA_REF_SHIFT : Z;
  (** the constructor of Path: the normalized form a path is stored in *)
  Path_normalize : string -> string;
  (** PathUtils::getDir *)
  PathUtils_getDir : string -> string;
  (** Renderer::getShaderDefine and Renderer::getShaderDefineIdx *)
  getShaderDefine : Z -> string;
  getShaderDefineIdx : string -> Z;
  (** Renderer::getDefaultShader *)
  getDefaultShader : nat;
  (** Renderer::getMaterialColorShininessUniform *)
  getMaterialColorShininessUniform : Z;
  (** what [m_uniforms.emplace()] leaves in the new entry: [Uniform] has no
      constructor, its bytes are whatever the allocator returned *)
  fresh_uniform : Uniform;
  (** Modelled from the spec: JsonSerializer (core/json_serializer.cpp is
      not among the sources) writes a float as decimal text; this is the
      float that text reads back as.  The spec grants the round trip of a
      saved material modulo float precision only, and nothing more is
      assumed of it here. *)
  JsonSerializer_float : Z -> Z
}.

(** ** Field updates of [Material] *)

Definition set_m_state (v : ResourceState) (m : Material) : Material :=
  {| m_path := m_path m; m_state := v; m_size := m_size m; m_shader := m_shader m;
     m_shader_instance := m_shader_instance m; m_textures := m_textures m;
     m_texture_count := m_texture_count m; m_uniforms := m_uniforms m;
     m_render_states := m_render_states m; m_color := m_color m;
     m_shininess := m_shininess m; m_alpha_ref := m_alpha_ref m;
     m_define_mask := m_define_mask m; m_command_buffer := m_command_buffer m;
     m_layer_count := m_layer_count m |}.

Definition set_m_size (v : Z) (m : Material) : Material :=
  {| m_path := m_path m; m_state := m_state m; m_size := v; m_shader := m_shader m;
     m_shader_instance := m_shader_instance m; m_textures := m_textures m;
     m_texture_count := m_texture_count m; m_uniforms := m_uniforms m;
     m_render_states := m_render_states m; m_color := m_color m;
     m_shininess := m_shininess m; m_alpha_ref := m_alpha_ref m;
     m_define_mask := m_define_mask m; m_command_buffer := m_command_buffer m;
     m_layer_count := m_layer_count m |}.

Definition set_m_shader (v : option nat) (m : Material) : Material :=
  {| m_path := m_path m; m_state := m_state m; m_size := m_size m; m_shader := v;
     m_shader_instance := m_shader_instance m; m_textures := m_textures m;
     m_texture_count := m_texture_count m; m_uniforms := m_uniforms m;
     m_render_states := m_render_states m; m_color := m_color m;
     m_shininess := m_shininess m; m_alpha_ref := m_alpha_ref m;
     m_define_mask := m_define_mask m; m_command_buffer := m_command_buffer m;
     m_layer_count := m_layer_count m |}.

Definition set_m_shader_instance (v : option ShaderInstance) (m : Material) : Material :=
  {| m_path := m_path m; m_state := m_state m; m_size := m_size m; m_shader := m_shader m;
     m_shader_instance := v; m_textures := m_textures m;
     m_texture_count := m_texture_count m; m_uniforms := m_uniforms m;
     m_render_states := m_render_states m; m_color := m_color m;
     m_shininess := m_shininess m; m_alpha_ref := m_alpha_ref m;
     m_define_mask := m_define_mask m; m_command_buffer := m_command_buffer m;
     m_layer_count := m_layer_count m |}.

Definition set_m_textures (v : list (option nat)) (m : Material) : Material :=
  {| m_path := m_path m; m_state := m_state m; m_size := m_size m; m_shader := m_shader m;
     m_shader_instance := m_shader_instance m; m_textures := v;
     m_texture_count := m_texture_count m; m_uniforms := m_uniforms m;
     m_render_states := m_render_states m; m_color := m_color m;
     m_shininess := m_shininess m; m_alpha_ref := m_alpha_ref m;
     m_define_mask := m_define_mask m; m_command_buffer := m_command_buffer m;
     m_layer_count := m_layer_count m |}.

Definition set_m_texture_count (v : nat) (m : Material) : Material :=
  {| m_path := m_path m; m_state := m_state m; m_size := m_size m; m_shader := m_shader m;
     m_shader_instance := m_shader_instance m; m_textures := m_textures m;
     m_texture_count := v; m_uniforms := m_uniforms m;
     m_render_states := m_render_states m; m_color := m_color m;
     m_shininess := m_shininess m; m_alpha_ref := m_alpha_ref m;
     m_define_mask := m_define_mask m; m_command_buffer := m_command_buffer m;
     m_layer_count := m_layer_count m |}.

Definition set_m_uniforms (v : list Uniform) (m : Material) : Material :=
  {| m_path := m_path m; m_state := m_state m; m_size := m_size m; m_shader := m_shader m;
     m_shader_instance := m_shader_instance m; m_textures := m_textures m;
     m_texture_count := m_texture_count m; m_uniforms := v;
     m_render_states := m_render_states m; m_color := m_color m;
     m_shininess := m_shininess m; m_alpha_ref := m_alpha_ref m;
     m_define_mask := m_define_mask m; m_command_buffer := m_command_buffer m;
     m_layer_count := m_layer_count m |}.

Definition set_m_render_states (v : Z) (m : Material) : Material :=
  {| m_path := m_path m; m_state := m_state m; m_size := m_size m; m_shader := m_shader m;
     m_shader_instance := m_shader_instance m; m_textures := m_textures m;
     m_texture_count := m_texture_count m; m_uniforms := m_uniforms m;
     m_render_states := v; m_color := m_color m;
     m_shininess := m_shininess m; m_alpha_ref := m_alpha_ref m;
     m_define_mask := m_define_mask m; m_command_buffer := m_command_buffer m;
     m_layer_count := m_layer_count m |}.

Definition set_m_color (v : Z * Z * Z) (m : Material) : Material :=
  {| m_path := m_path m; m_state := m_state m; m_size := m_size m; m_shader := m_shader m;
     m_shader_instance := m_shader_instance m; m_textures := m_textures m;
     m_texture_count := m_texture_count m; m_uniforms := m_uniforms m;
     m_render_states := m_render_states m; m_color := v;
     m_shininess := m_shininess m; m_alpha_ref := m_alpha_ref m;
     m_define_mask := m_define_mask m; m_command_buffer := m_command_buffer m;
     m_layer_count := m_layer_count m |}.

Definition set_m_shininess (v : Z) (m : Material) : Material :=
  {| m_path := m_path m; m_state := m_state m; m_size := m_size m; m_shader := m_shader m;
     m_shader_instance := m_shader_instance m; m_textures := m_textures m;
     m_texture_count := m_texture_count m; m_uniforms := m_uniforms m;
     m_render_states := m_render_states m; m_color := m_color m;
     m_shininess := v; m_alpha_ref := m_alpha_ref m;
     m_define_mask := m_define_mask m; m_command_buffer := m_command_buffer m;
     m_layer_count := m_layer_count m |}.

Definition set_m_alpha_ref (v : Z) (m : Material) : Material :=
  {| m_path := m_path m; m_state := m_state m; m_size := m_size m; m_shader := m_shader m;
     m_shader_instance := m_shader_instance m; m_textures := m_textures m;
     m_texture_count := m_texture_count m; m_uniforms := m_uniforms m;
     m_render_states := m_render_states m; m_color := m_color m;
     m_shininess := m_shininess m; m_alpha_ref := v;
     m_define_mask := m_define_mask m; m_command_buffer := m_command_buffer m;
     m_layer_count := m_layer_count m |}.

Definition set_m_define_mask (v : Z) (m : Material) : Material :=
  {| m_path := m_path m; m_state := m_state m; m_size := m_size m; m_shader := m_shader m;
     m_shader_instance := m_shader_instance m; m_textures := m_textures m;
     m_texture_count := m_texture_count m; m_uniforms := m_uniforms m;
     m_render_states := m_render_states m; m_color := m_color m;
     m_shininess := m_shininess m; m_alpha_ref := m_alpha_ref m;
     m_define_mask := v; m_command_buffer := m_command_buffer m;
     m_layer_count := m_layer_count m |}.

Definition set_m_command_buffer (v : option (list Command)) (m : Material) : Material :=
  {| m_path := m_path m; m_state := m_state m; m_size := m_size m; m_shader := m_shader m;
     m_shader_instance := m_shader_instance m; m_textures := m_textures m;
     m_texture_count := m_texture_count m; m_uniforms := m_uniforms m;
     m_render_states := m_render_states m; m_color := m_color m;
     m_shininess := m_shininess m; m_alpha_ref := m_alpha_ref m;
     m_define_mask := m_define_mask m; m_command_buffer := v;
     m_layer_count := m_layer_count m |}.

Definition set_m_layer_count (v : Z) (m : Material) : Material :=
  {| m_path := m_path m; m_state := m_state m; m_size := m_size m; m_shader := m_shader m;
     m_shader_instance := m_shader_instance m; m_textures := m_textures m;
     m_texture_count := m_texture_count m; m_uniforms := m_uniforms m;
     m_render_states := m_render_states m; m_color := m_color m;
     m_shininess := m_shininess m; m_alpha_ref := m_alpha_ref m;
     m_define_mask := m_define_mask m; m_command_buffer := m_command_buffer m;
     m_layer_count := v |}.

(** ** The state a method runs in, and the monad of methods *)

Record State : Type := {
  textures : list Texture;
  shaders : list Shader;
  this : Material
}.

Definition set_this (m : Material) (s : State) : State :=
  {| textures := textures s; shaders := shaders s; this := m |}.
Definition set_textures (ts : list Texture) (s : State) : State :=
  {| textures := ts; shaders := shaders s; this := this s |}.
Definition set_shaders (ss : list Shader) (s : State) : State :=
  {| textures := textures s; shaders := ss; this := this s |}.

(** A method: from a state to its result, the new state and the events it
    emitted, or [None] where the C++ has no defined behaviour. *)
Definition Eff (A : Type) : Type := State -> option (A * State * list Event).

Definition ret {A : Type} (a : A) : Eff A := fun s => Some (a, s, []).

Definition bind {A B : Type} (m : Eff A) (f : A -> Eff B) : Eff B :=
  fun s =>
    match m s with
    | Some (a, s1, ev1) =>
        match f a s1 with
        | Some (b, s2, ev2) => Some (b, s2, ev1 ++ ev2)
        | None => None
        end
    | None => None
    end.

Definition undefined {A : Type} : Eff A := fun _ => None.
Definition emit (e : Event) : Eff unit := fun s => Some (tt, s, [e]).
Definition emit_all (log : list Event) : Eff unit := fun s => Some (tt, s, log).
Definition gets {A : Type} (f : State -> A) : Eff A := fun s => Some (f s, s, []).
Definition modify (f : State -> State) : Eff unit := fun s => Some (tt, f s, []).

Declare Scope eff_scope.
Delimit Scope eff_scope with eff.
Bind Scope eff_scope with Eff.
Notation "'let*' x ':=' m 'in' k" := (bind m (fun x => k))
  (at level 10, x name, m at level 100, k at level 200) : eff_scope.
Notation "m '>>' k" := (bind m (fun _ => k))
  (at level 100, k at level 200, right associativity) : eff_scope.
Local Open Scope eff_scope.

(** Reading and updating the members of [this]. *)
Definition self {A : Type} (f : Material -> A) : Eff A := gets (fun s => f (this s)).
Definition update (f : Material -> Material) : Eff unit :=
  modify (fun s => set_this (f (this s)) s).

(** Dereferencing a pointer. *)
Definition from_option {A : Type} (o : option A) : Eff A :=
  match o with Some a => ret a | None => undefined end.
Definition texture_at (id : nat) : Eff Texture :=
  let* ts := gets textures in from_option (ts !! id).
Definition shader_at (id : nat) : Eff Shader :=
  let* ss := gets shaders in from_option (ss !! id).
Definition update_texture (id : nat) (f : Texture -> Texture) : Eff unit :=
  let* t := texture_at id in
  modify (fun s => set_textures (<[id := f t]> (textures s)) s).

(** [for (i = 0; i < n; ++i) body(i)] *)
Fixpoint for_range (start : nat) (n : nat) (body : nat -> Eff unit) : Eff unit :=
  match n with
  | O => ret tt
  | S n' => body start >> for_range (S start) n' body
  end.

(** [for (x : xs) body(i, x)], with the index counting from [start]. *)
Fixpoint for_each {A : Type} (start : nat) (xs : list A) (body : nat -> A -> Eff unit)
  : Eff unit :=
  match xs with
  | [] => ret tt
  | x :: rest => body start x >> for_each (S start) rest body
  end.

(** What a method returns, the state it leaves behind (the state itself
    if it is undefined) and the events it emits. *)
Definition result {A : Type} (m : Eff A) (s : State) : option A :=
  match m s with Some (a, _, _) => Some a | None => None end.

Definition after {A : Type} (m : Eff A) (s : State) : State :=
  match m s with Some (_, s1, _) => s1 | None => s end.

Definition events {A : Type} (m : Eff A) (s : State) : list Event :=
  match m s with Some (_, _, ev) => ev | None => [] end.

(** [runs m s Q]: the method is defined on [s], and its result, final state
    and events satisfy [Q]. *)
Definition runs {A : Type} (m : Eff A) (s : State)
    (Q : A -> State -> list Event -> Prop) : Prop :=
  exists a s1 ev, m s = Some (a, s1, ev) /\ Q a s1 ev.

(** ** Collaborators *)

Section Methods.
Context `{Engine}.

(** Modelled from the spec: Resource::addDependency (core/resource.h is not
    among the sources) registers the owner to be notified when the
    dependency becomes ready; the edge is recorded as an event. *)
Definition addDependency (r : Resource) : Eff unit := emit (AddDependency r).

(** Modelled from the spec: Resource::removeDependency, the inverse of
    addDependency. *)
Definition removeDependency (r : Resource) : Eff unit := emit (RemoveDependency r).

Fixpoint index_of_path {A : Type} (path_of : A -> string) (path : string) (l : list A)
  : option nat :=
  match l with
  | [] => None
  | x :: rest =>
      if String.eqb (path_of x) path then Some O
      else S <$> index_of_path path_of path rest
  end.

Definition add_texture_ref (d : Z) (t : Texture) : Texture :=
  {| tex_path := tex_path t; tex_flags := tex_flags t; tex_atlas_size := tex_atlas_size t;
     tex_data_reference_count := tex_data_reference_count t;
     tex_ref_count := tex_ref_count t + d |}.

Definition new_texture (path : string) : Texture :=
  {| tex_path := path; tex_flags := 0; tex_atlas_size := -1;
     tex_data_reference_count := 0; tex_ref_count := 1 |}.

(** Modelled from the spec: ResourceManagerBase::load of the texture
    manager (core/resource_manager_base.h is not among the sources) returns
    the cached instance for the path, one reference more, or creates one. *)
Definition texture_manager_load (path : string) : Eff nat :=
  let* ts := gets textures in
  let* id :=
    match index_of_path tex_path path ts with
    | Some id => update_texture id (add_texture_ref 1) >> ret id
    | None =>
        modify (fun s => set_textures (textures s ++ [new_texture path]) s) >>
        ret (length ts)
    end in
  emit (ManagerLoad (TextureRes id)) >> ret id.

(** Modelled from the spec: ResourceManagerBase::unload gives one
    reference back; eviction at zero happens in a later sweep. *)
Definition texture_manager_unload (id : nat) : Eff unit :=
  update_texture id (add_texture_ref (-1)) >> emit (ManagerUnload (TextureRes id)).

Definition add_shader_ref (d : Z) (sh : Shader) : Shader :=
  {| sh_path := sh_path sh; sh_ready := sh_ready sh; sh_ref_count := sh_ref_count sh + d;
     sh_uniforms := sh_uniforms sh; sh_texture_slots := sh_texture_slots sh;
     sh_render_states := sh_render_states sh |}.

Definition new_shader (path : string) : Shader :=
  {| sh_path := path; sh_ready := false; sh_ref_count := 1; sh_uniforms := [];
     sh_texture_slots := []; sh_render_states := 0 |}.

Definition update_shader (id : nat) (f : Shader -> Shader) : Eff unit :=
  let* sh := shader_at id in
  modify (fun s => set_shaders (<[id := f sh]> (shaders s)) s).

(** Modelled from the spec: ResourceManagerBase::load of the shader manager. *)
Definition shader_manager_load (path : string) : Eff nat :=
  let* ss := gets shaders in
  let* id :=
    match index_of_path sh_path path ss with
    | Some id => update_shader id (add_shader_ref 1) >> ret id
    | None =>
        modify (fun s => set_shaders (shaders s ++ [new_shader path]) s) >>
        ret (length ss)
    end in
  emit (ManagerLoad (ShaderRes id)) >> ret id.

(** Modelled from the spec: ResourceManagerBase::unload of the shader manager. *)
Definition shader_manager_unload (id : nat) : Eff unit :=
  update_shader id (add_shader_ref (-1)) >> emit (ManagerUnload (ShaderRes id)).

(** Modelled from the spec: Shader::getInstance (renderer/shader.h is not
    among the sources) resolves the instance cached for a define mask,
    creating it on first use; each resolution is recorded. *)
Definition getInstance (shader : nat) (mask : Z) : Eff ShaderInstance :=
  emit (GetInstance shader mask) >> ret (InstanceOf shader mask).

(** Modelled from the spec: Shader::getTextureSlot; a slot the shader does
    not declare is tied to no define. *)
Definition getTextureSlot (sh : Shader) (i : nat) : TextureSlot :=
  default {| m_define_idx := -1; m_uniform := ""; m_uniform_handle := 0 |}
          (sh_texture_slots sh !! i).

(** Modelled from the spec: Texture::setAtlasSize, Texture::setFlags and
    Texture::addDataReference (renderer/texture.h is not among the sources). *)
Definition set_tex_atlas_size (size : Z) (t : Texture) : Texture :=
  {| tex_path := tex_path t; tex_flags := tex_flags t; tex_atlas_size := size;
     tex_data_reference_count := tex_data_reference_count t;
     tex_ref_count := tex_ref_count t |}.

Definition set_tex_flags (flags : Z) (t : Texture) : Texture :=
  {| tex_path := tex_path t; tex_flags := flags; tex_atlas_size := tex_atlas_size t;
     tex_data_reference_count := tex_data_reference_count t;
     tex_ref_count := tex_ref_count t |}.

Definition add_data_reference (t : Texture) : Texture :=
  {| tex_path := tex_path t; tex_flags := tex_flags t; tex_atlas_size := tex_atlas_size t;
     tex_data_reference_count := tex_data_reference_count t + 1;
     tex_ref_count := tex_ref_count t |}.

Definition Texture_setAtlasSize (id : nat) (size : Z) : Eff unit :=
  update_texture id (set_tex_atlas_size size) >> emit (SetAtlasSize id size).

Definition Texture_setFlags (id : nat) (flags : Z) : Eff unit :=
  update_texture id (set_tex_flags flags) >> emit (SetFlags id flags).

Definition Texture_addDataReference (id : nat) : Eff unit :=
  update_texture id add_data_reference >> emit (AddDataReference id).

(** Modelled from the spec: Texture::getData is non-null while the decoded
    pixels are retained, that is while the data reference count is positive. *)
Definition Texture_hasData (t : Texture) : bool := 0 <? tex_data_reference_count t.

(** Modelled from the spec: BGFX_STATE_ALPHA_REF_MASK and
    BGFX_STATE_ALPHA_REF (bgfx's defines), the 8-bit alpha-reference
    sub-field of the render state. *)
Definition BGFX_STATE_ALPHA_REF_MASK : Z := Z.shiftl 255 BGFX_STATE_ALPHA_REF_SHIFT.
Definition BGFX_STATE_ALPHA_REF (ref : Z) : Z :=
  Z.land (Z.shiftl ref BGFX_STATE_ALPHA_REF_SHIFT) BGFX_STATE_ALPHA_REF_MASK.

(** The alpha-reference sub-field read back from a render state. *)
Definition alpha_ref_field (render_states : Z) : Z :=
  Z.land (Z.shiftr render_states BGFX_STATE_ALPHA_REF_SHIFT) 255.

(** ** Material *)

(** 0.3f *)
Definition DEFAULT_ALPHA_REF_VALUE : Z := 0x3E99999A.

(** [1 << define_idx] as it is combined with the [uint32] mask, for a
    define index from 0 to 31.  Shifting a 32-bit [int] by 32 or more, or by
    a negative count, is undefined in C++ (a build may wrap the count, or
    not); the model leaves no bit set then, and the theorems about defines
    are stated for indices from 0 to 31. *)
Definition define_bit (define_idx : Z) : Z := u32 (Z.shiftl 1 define_idx).

(** [~(1 << define_idx)] *)
Definition define_bit_complement (define_idx : Z) : Z := u32 (Z.lnot (Z.shiftl 1 define_idx)).

Definition isDefined (m : Material) (define_idx : Z) : bool :=
  negb (Z.land (m_define_mask m) (define_bit define_idx) =? 0).

(** [mask |= 1 << define_idx] or [mask &= ~(1 << define_idx)] *)
Definition with_define (define_idx : Z) (enabled : bool) (mask : Z) : Z :=
  if enabled then Z.lor mask (define_bit define_idx)
  else Z.land mask (define_bit_complement define_idx).

Definition setDefine (define_idx : Z) (enabled : bool) : Eff unit :=
  let* old_mask := self m_define_mask in
  update (fun m => set_m_define_mask (with_define define_idx enabled (m_define_mask m)) m) >>
  let* m := self id in
  if negb (isReady m) then ret tt
  else
    match m_shader m with
    | None => ret tt
    | Some shader =>
        if negb (old_mask =? m_define_mask m) then
          let* instance := getInstance shader (m_define_mask m) in
          update (set_m_shader_instance (Some instance))
        else ret tt
    end.

(** [uint8(value * 255.0f)] *)
Definition alpha_ref_byte (value : Z) : Z := F32.to_u8 (F32.mul value F32.two_five_five).

Definition setAlphaRef (value : Z) : Eff unit :=
  update (set_m_alpha_ref value) >>
  let val := alpha_ref_byte value in
  update (fun m => set_m_render_states
                     (Z.land (m_render_states m) (u64 (Z.lnot BGFX_STATE_ALPHA_REF_MASK))) m) >>
  update (fun m => set_m_render_states
                     (Z.lor (m_render_states m) (BGFX_STATE_ALPHA_REF val)) m).

(** *** createCommandBuffer *)

Definition uniform_command (su : ShaderUniform) (u : Uniform) : list Command :=
  match su_type su with
  | FLOAT => [CmdSetUniform (su_handle su) (get_word u 0) F32.zero F32.zero F32.zero]
  | VEC3 | COLOR =>
      [CmdSetUniform (su_handle su) (get_word u 0) (get_word u 1) (get_word u 2) F32.zero]
  | TIME => [CmdSetTimeUniform (su_handle su)]
  | INT | MATRIX4 => []
  end.

(** The first loop: [m_uniforms[i]] for every uniform of the shader. *)
Fixpoint uniform_commands (i : nat) (sus : list ShaderUniform) (us : list Uniform)
  : option (list Command) :=
  match sus with
  | [] => Some []
  | su :: rest =>
      u ← us !! i;
      cmds ← uniform_commands (S i) rest us;
      Some (uniform_command su u ++ cmds)
  end.

(** The second loop: the bound textures of the slots the shader declares. *)
Fixpoint texture_commands (i : nat) (slots : list TextureSlot) (ts : list Texture)
    (m : Material) : option (list Command) :=
  match slots with
  | [] => Some []
  | slot :: rest =>
      cmds ← texture_commands (S i) rest ts m;
      if (m_texture_count m <=? i)%nat then Some cmds
      else
        t ← m_textures m !! i;
        match t with
        | None => Some cmds
        | Some id =>
            _ ← ts !! id;
            Some (CmdSetTexture i (m_uniform_handle slot) id :: cmds)
        end
  end.

Definition createCommandBuffer : Eff unit :=
  update (set_m_command_buffer None) >>
  let* m := self id in
  match m_shader m with
  | None => ret tt
  | Some sh =>
      let* shader := shader_at sh in
      let* ucmds := from_option (uniform_commands 0 (sh_uniforms shader) (m_uniforms m)) in
      let* ts := gets textures in
      let* tcmds := from_option (texture_commands 0 (sh_texture_slots shader) ts m) in
      let '(r, g, b) := m_color m in
      update (set_m_command_buffer
                (Some (ucmds ++ tcmds ++
                       [CmdSetUniform getMaterialColorShininessUniform r g b (m_shininess m);
                        CmdEnd])))
  end.

(** *** onBeforeReady *)

(** The inner loop: the first [j >= i] whose entry has the wanted hash;
    [us] is the array from index [j] on. *)
Fixpoint find_uniform (h : Z) (us : list Uniform) (j : nat) : option nat :=
  match us with
  | [] => None
  | u :: rest => if name_hash u =? h then Some j else find_uniform h rest (S j)
  end.

(** One round of the outer loop, for the shader's uniform [i]. *)
Definition reconcile_uniform (i : nat) (su : ShaderUniform) (us : list Uniform)
  : option (list Uniform) :=
  match find_uniform (su_name_hash su) (drop i us) i with
  | Some j =>
      ui ← us !! i;
      uj ← us !! j;
      Some (<[j := ui]> (<[i := uj]> us))
  | None =>
      let us1 :=
        match us !! i with
        | Some ui => us ++ [ui]
        | None => us ++ [fresh_uniform]
        end in
      ui ← us1 !! i;
      Some (<[i := set_name_hash (su_name_hash su) ui]> us1)
  end.

Fixpoint reconcile_uniforms (i : nat) (sus : list ShaderUniform) (us : list Uniform)
  : option (list Uniform) :=
  match sus with
  | [] => Some us
  | su :: rest => us1 ← reconcile_uniform i su us; reconcile_uniforms (S i) rest us1
  end.

(** The loop over the shader's texture slots: a slot tied to a define sets
    or clears it by whether [m_textures[i]] is bound. *)
Fixpoint texture_defines (i : nat) (slots : list TextureSlot) (texs : list (option nat))
    (mask : Z) : option Z :=
  match slots with
  | [] => Some mask
  | slot :: rest =>
      if 0 <=? m_define_idx slot then
        t ← texs !! i;
        texture_defines (S i) rest texs
          (with_define (m_define_idx slot) (bool_decide (is_Some t)) mask)
      else texture_defines (S i) rest texs mask
  end.

Definition onBeforeReady : Eff unit :=
  let* m := self id in
  match m_shader m with
  | None => ret tt
  | Some sh =>
      let* shader := shader_at sh in
      let* us := from_option (reconcile_uniforms 0 (sh_uniforms shader) (m_uniforms m)) in
      update (set_m_uniforms us) >>
      let alpha_ref := alpha_ref_byte (m_alpha_ref m) in
      update (set_m_render_states (BGFX_STATE_ALPHA_REF alpha_ref)) >>
      update (fun m => set_m_render_states
                         (Z.lor (m_render_states m) (sh_render_states shader)) m) >>
      let* mask := from_option (texture_defines 0 (sh_texture_slots shader) (m_textures m)
                                  (m_define_mask m)) in
      update (set_m_define_mask mask) >>
      createCommandBuffer >>
      let* instance := getInstance sh mask in
      update (set_m_shader_instance (Some instance))
  end.

(** *** setShader *)

Definition setShader (shader : option nat) : Eff unit :=
  let* old := self m_shader in
  match old with
  | Some o =>
      if negb (o =? getDefaultShader)%nat then
        update (set_m_shader None) >>
        removeDependency (ShaderRes o) >>
        shader_manager_unload o
      else ret tt
  | None => ret tt
  end >>
  update (set_m_shader shader) >>
  match shader with
  | Some sh =>
      addDependency (ShaderRes sh) >>
      let* sd := shader_at sh in
      if sh_ready sd then onBeforeReady else ret tt
  | None =>
      update (set_m_shader (Some getDefaultShader)) >>
      update (set_m_shader_instance (Some (FirstInstance getDefaultShader)))
  end.

Definition setShaderPath (path : string) : Eff unit :=
  let* shader := shader_manager_load path in
  setShader (Some shader).

(** *** setTexture *)

Definition setTexture (i : nat) (texture : option nat) : Eff unit :=
  let* m := self id in
  let* old_texture :=
    if (i <? m_texture_count m)%nat then from_option (m_textures m !! i) else ret None in
  match texture with Some t => addDependency (TextureRes t) | None => ret tt end >>
  (if (i <? length (m_textures m))%nat
   then update (set_m_textures (<[i := texture]> (m_textures m)))
   else undefined) >>
  (if (m_texture_count m <=? i)%nat then update (set_m_texture_count (i + 1)%nat) else ret tt) >>
  match old_texture with
  | Some old =>
      match texture with
      | Some t => let* o := texture_at old in Texture_setAtlasSize t (tex_atlas_size o)
      | None => ret tt
      end >>
      removeDependency (TextureRes old) >>
      texture_manager_unload old
  | None => ret tt
  end >>
  let* m := self id in
  match isReady m, m_shader m with
  | true, Some sh =>
      let* shader := shader_at sh in
      let define_idx := m_define_idx (getTextureSlot shader i) in
      (if 0 <=? define_idx then
         let* t := from_option (m_textures m !! i) in
         update (set_m_define_mask
                   (with_define define_idx (bool_decide (is_Some t)) (m_define_mask m)))
       else ret tt) >>
      createCommandBuffer >>
      let* mask := self m_define_mask in
      let* instance := getInstance sh mask in
      update (set_m_shader_instance (Some instance))
  | _, _ => ret tt
  end.

Definition setTexturePath (i : nat) (path : string) : Eff unit :=
  if is_empty_string path then setTexture i None
  else
    let* texture := texture_manager_load path in
    setTexture i (Some texture).

(** *** unload *)

Definition unload : Eff unit :=
  update (set_m_command_buffer None) >>
  update (set_m_uniforms []) >>
  setShader None >>
  let* m := self id in
  for_range 0 (m_texture_count m) (fun i =>
    let* t := from_option (m_textures m !! i) in
    match t with
    | Some id => removeDependency (TextureRes id) >> texture_manager_unload id
    | None => ret tt
    end) >>
  update (set_m_texture_count 0).

(** *** Parsing: defines, uniforms, a texture block *)

Definition deserializeDefines (v : jvalue) : Eff unit :=
  update (set_m_define_mask 0) >>
  for_each 0 (array_items v) (fun _ item =>
    let tmp := read_string 32 item "" in
    update (fun m => set_m_define_mask
                       (Z.lor (m_define_mask m) (define_bit (getShaderDefineIdx tmp))) m)).

(** Sixteen, or three, array items read into consecutive words. *)
Definition read_float_items (n : nat) (v : jvalue) (u : Uniform) : Uniform :=
  foldl (fun acc j => set_word j (read_float_item (array_items v) j F32.zero) acc)
        u (seq 0 n).

(** One member of a uniform object: the entry it leaves and what it logs.
    The entry under construction is the only state this loop touches. *)
Definition deserializeUniform_entry (label : string) (v : jvalue) (uniform : Uniform)
  : Uniform * list Event :=
  if compareString label "name" then
    (set_name_hash (crc32 (read_string 32 v "")) uniform, [])
  else if compareString label "int_value" then
    (set_word 0 (u32 (read_int v 0)) uniform, [])
  else if compareString label "float_value" then
    (set_word 0 (read_float v F32.zero) uniform, [])
  else if compareString label "matrix_value" then
    (read_float_items 16 v uniform, [])
  else if compareString label "time" then
    (set_word 0 (read_float v F32.zero) uniform, [])
  else if compareString label "color" then
    (read_float_items 3 v uniform, [])
  else if compareString label "vec3" then
    (read_float_items 3 v uniform, [])
  else
    (uniform, [LogWarning label]).

Fixpoint deserializeUniform_entries (entries : list (string * jvalue)) (uniform : Uniform)
  : Uniform * list Event :=
  match entries with
  | [] => (uniform, [])
  | (label, v) :: rest =>
      let '(uniform1, log1) := deserializeUniform_entry label v uniform in
      let '(uniform2, log2) := deserializeUniform_entries rest uniform1 in
      (uniform2, log1 ++ log2)
  end.

Definition deserializeUniforms (v : jvalue) : Eff unit :=
  update (set_m_uniforms []) >>
  for_each 0 (array_items v) (fun _ item =>
    let '(uniform, log) := deserializeUniform_entries (object_entries item) fresh_uniform in
    emit_all log >>
    update (fun m => set_m_uniforms (m_uniforms m ++ [uniform]) m)).

(** The locals of deserializeTexture. *)
Record TextureBlock : Type := {
  keep_data : bool;
  flags : Z;
  atlas_size : Z
}.

Definition or_flag (flag : Z) (b : TextureBlock) : TextureBlock :=
  {| keep_data := keep_data b; flags := Z.lor (flags b) flag; atlas_size := atlas_size b |}.

(** [m_textures[m_texture_count] = texture] *)
Definition set_current_slot (texture : option nat) : Eff unit :=
  let* m := self id in
  if (m_texture_count m <? length (m_textures m))%nat
  then update (set_m_textures (<[m_texture_count m := texture]> (m_textures m)))
  else undefined.

(** One member of a texture block; [None] is the [return false]. *)
Definition deserializeTexture_entry (material_dir : string) (label : string) (v : jvalue)
    (b : TextureBlock) : Eff (option TextureBlock) :=
  if compareString label "source" then
    let path := read_string MAX_PATH_LENGTH v "" in
    if negb (is_empty_string path) then
      let texture_path :=
        if negb (starts_with_separator path)
        then copyString MAX_PATH_LENGTH (copyString MAX_PATH_LENGTH material_dir +:+ path)
        else copyString MAX_PATH_LENGTH path in
      let* texture := texture_manager_load (Path_normalize texture_path) in
      set_current_slot (Some texture) >>
      addDependency (TextureRes texture) >>
      ret (Some b)
    else ret (Some b)
  else if compareString label "atlas_size" then
    ret (Some {| keep_data := keep_data b; flags := flags b; atlas_size := read_int v (-1) |})
  else if compareString label "min_filter" then
    let filter := read_string 256 v "" in
    if compareString filter "point" then ret (Some (or_flag BGFX_TEXTURE_MIN_POINT b))
    else if compareString filter "anisotropic" then
      ret (Some (or_flag BGFX_TEXTURE_MIN_ANISOTROPIC b))
    else emit (LogError filter) >> ret (Some b)
  else if compareString label "mag_filter" then
    let filter := read_string 256 v "" in
    if compareString filter "point" then ret (Some (or_flag BGFX_TEXTURE_MAG_POINT b))
    else if compareString filter "anisotropic" then
      ret (Some (or_flag BGFX_TEXTURE_MAG_ANISOTROPIC b))
    else emit (LogError filter) >> ret (Some b)
  else if compareString label "u_clamp" then
    ret (Some (if read_bool v false then or_flag BGFX_TEXTURE_U_CLAMP b else b))
  else if compareString label "v_clamp" then
    ret (Some (if read_bool v false then or_flag BGFX_TEXTURE_V_CLAMP b else b))
  else if compareString label "w_clamp" then
    ret (Some (if read_bool v false then or_flag BGFX_TEXTURE_W_CLAMP b else b))
  else if compareString label "keep_data" then
    ret (Some {| keep_data := read_bool v false; flags := flags b; atlas_size := atlas_size b |})
  else if compareString label "srgb" then
    ret (Some (if read_bool v false then or_flag BGFX_TEXTURE_SRGB b else b))
  else
    emit (LogWarning label) >> ret None.

Fixpoint deserializeTexture_entries (material_dir : string) (entries : list (string * jvalue))
    (b : TextureBlock) : Eff (option TextureBlock) :=
  match entries with
  | [] => ret (Some b)
  | (label, v) :: rest =>
      let* r := deserializeTexture_entry material_dir label v b in
      match r with
      | Some b1 => deserializeTexture_entries material_dir rest b1
      | None => ret None
      end
  end.

Definition deserializeTexture (v : jvalue) (material_dir : string) : Eff bool :=
  let* r := deserializeTexture_entries material_dir (object_entries v)
              {| keep_data := false; flags := 0; atlas_size := -1 |} in
  match r with
  | None => ret false
  | Some b =>
      let* m := self id in
      let* t := from_option (m_textures m !! m_texture_count m) in
      match t with
      | Some texture =>
          Texture_setAtlasSize texture (atlas_size b) >>
          Texture_setFlags texture (flags b) >>
          (if keep_data b then Texture_addDataReference texture else ret tt)
      | None => ret tt
      end >>
      update (fun m => set_m_texture_count (S (m_texture_count m)) m) >>
      ret true
  end.

(** *** load *)

(** One member of the document; [false] is the [return false] of a failed
    texture block. *)
Definition load_entry (material_dir : string) (label : string) (v : jvalue) : Eff bool :=
  if compareString label "defines" then deserializeDefines v >> ret true
  else if compareString label "uniforms" then deserializeUniforms v >> ret true
  else if compareString label "texture" then deserializeTexture v material_dir
  else if compareString label "alpha_ref" then
    update (set_m_alpha_ref (read_float v DEFAULT_ALPHA_REF_VALUE)) >> ret true
  else if compareString label "layer_count" then
    update (set_m_layer_count (read_int v 1)) >> ret true
  else if compareString label "color" then
    let items := array_items v in
    update (set_m_color (read_float_item items 0 F32.one,
                         read_float_item items 1 F32.one,
                         read_float_item items 2 F32.one)) >> ret true
  else if compareString label "shininess" then
    update (set_m_shininess (read_float v F32.four)) >> ret true
  else if compareString label "shader" then
    let path := Path_normalize (read_string MAX_PATH_LENGTH v "") in
    let* shader := shader_manager_load path in
    setShader (Some shader) >> ret true
  else
    emit (LogWarning label) >> ret true.

Fixpoint load_entries (material_dir : string) (entries : list (string * jvalue)) : Eff bool :=
  match entries with
  | [] => ret true
  | (label, v) :: rest =>
      let* ok := load_entry material_dir label v in
      if ok then load_entries material_dir rest else ret false
  end.

(** [file] is the document the serializer reads and the file's size. *)
Definition load (file : jvalue) (file_size : Z) : Eff bool :=
  update (set_m_render_states 0) >>
  setAlphaRef DEFAULT_ALPHA_REF_VALUE >>
  update (set_m_uniforms []) >>
  let* path := self m_path in
  let material_dir := PathUtils_getDir path in
  let* ok := load_entries material_dir (object_entries file) in
  if ok then
    let* shader := self m_shader in
    match shader with
    | None => emit (LogError "without a shader") >> ret false
    | Some _ => update (set_m_size file_size) >> ret true
    end
  else ret false.

(** Modelled from the spec: Resource::fileLoaded (core/resource.cpp is not
    among the sources) runs the resource's own decode step; the resource
    becomes FAILURE if that fails, and otherwise waits for its dependencies. *)
Definition fileLoaded (file : jvalue) (file_size : Z) : Eff unit :=
  let* ok := load file file_size in
  if ok then ret tt else update (set_m_state FAILURE).

(** *** save *)

Definition flag_entry (fl flag : Z) (label : string) (v : jvalue) : list (string * jvalue) :=
  if negb (Z.land fl flag =? 0) then [(label, v)] else [].

(** The texture block written for slot [i]. *)
Definition save_texture (ts : list Texture) (slot : option nat) : option jvalue :=
  match slot with
  | Some id =>
      t ← ts !! id;
      let fl := tex_flags t in
      let path := String "/" (copyString (MAX_PATH_LENGTH - 1) (tex_path t)) in
      Some (JObject (
        [("source", JString path)] ++
        (if 0 <? tex_atlas_size t then [("atlas_size", JInt (tex_atlas_size t))] else []) ++
        flag_entry fl BGFX_TEXTURE_SRGB "srgb" (JBool true) ++
        flag_entry fl BGFX_TEXTURE_U_CLAMP "u_clamp" (JBool true) ++
        flag_entry fl BGFX_TEXTURE_V_CLAMP "v_clamp" (JBool true) ++
        flag_entry fl BGFX_TEXTURE_W_CLAMP "w_clamp" (JBool true) ++
        flag_entry fl BGFX_TEXTURE_MIN_POINT "min_filter" (JString "point") ++
        flag_entry fl BGFX_TEXTURE_MIN_ANISOTROPIC "min_filter" (JString "anisotropic") ++
        flag_entry fl BGFX_TEXTURE_MAG_POINT "mag_filter" (JString "point") ++
        flag_entry fl BGFX_TEXTURE_MAG_ANISOTROPIC "mag_filter" (JString "anisotropic") ++
        (if Texture_hasData t then [("keep_data", JBool true)] else [])))
  | None => Some (JObject [("source", JString "")])
  end.

(** [for (i = 0; i < m_texture_count; ++i)]: the blocks of slots [i ..]. *)
Fixpoint save_textures (ts : list Texture) (texs : list (option nat)) (i n : nat)
  : option (list (string * jvalue)) :=
  match n with
  | O => Some []
  | S n' =>
      slot ← texs !! i;
      block ← save_texture ts slot;
      rest ← save_textures ts texs (S i) n';
      Some (("texture", block) :: rest)
  end.

Definition save_defines (mask : Z) : list jvalue :=
  omap (fun i : nat =>
          if negb (Z.land mask (define_bit (Z.of_nat i)) =? 0)
          then Some (JString (getShaderDefine (Z.of_nat i)))
          else None)
       (seq 0 32).

(** [serialize(label, float)] and [serializeArrayItem(float)] *)
Definition serialize_float (value : Z) : jvalue := JFloat (JsonSerializer_float value).

Definition save_uniform (su : ShaderUniform) (u : Uniform) : jvalue :=
  JObject (("name", JString (su_name su)) ::
    match su_type su with
    | FLOAT => [("float_value", serialize_float (get_word u 0))]
    | COLOR =>
        [("color", JArray [serialize_float (get_word u 0); serialize_float (get_word u 1);
                           serialize_float (get_word u 2)])]
    | VEC3 =>
        [("vec3", JArray [serialize_float (get_word u 0); serialize_float (get_word u 1);
                          serialize_float (get_word u 2)])]
    | TIME => [("time", JInt 0)]
    | INT => [("int_value", JInt (s32 (get_word u 0)))]
    | MATRIX4 =>
        [("matrix_value", JArray ((fun j => serialize_float (get_word u j)) <$> seq 0 16))]
    end).

Fixpoint save_uniforms (i : nat) (sus : list ShaderUniform) (us : list Uniform)
  : option (list jvalue) :=
  match sus with
  | [] => Some []
  | su :: rest =>
      u ← us !! i;
      items ← save_uniforms (S i) rest us;
      Some (save_uniform su u :: items)
  end.

(** The serializer is the sequence of values written to it. *)
Definition save (serializer : list jvalue) : Eff (bool * list jvalue) :=
  let* m := self id in
  if negb (isReady m) then ret (false, serializer)
  else
    match m_shader m with
    | None => ret (false, serializer)
    | Some sh =>
        let* shader := shader_at sh in
        let* ts := gets textures in
        let* texture_blocks :=
          from_option (save_textures ts (m_textures m) 0 (m_texture_count m)) in
        let* uniforms := from_option (save_uniforms 0 (sh_uniforms shader) (m_uniforms m)) in
        let '(r, g, b) := m_color m in
        ret (true,
             serializer ++
             [JObject (
                [("shader", JString (sh_path shader))] ++
                (if negb (m_layer_count m =? 1) then [("layer_count", JInt (m_layer_count m))]
                 else []) ++
                texture_blocks ++
                [("defines", JArray (save_defines (m_define_mask m)));
                 ("uniforms", JArray uniforms);
                 ("shininess", serialize_float (m_shininess m));
                 ("alpha_ref", serialize_float (m_alpha_ref m));
                 ("color", JArray [serialize_float r; serialize_float g; serialize_float b])])])
    end.

(** *** Texture slots by uniform name *)

(** [m_shader] is followed without a null check; the slot index is a
    non-negative [int]. *)
Definition getTextureUniform (i : nat) : Eff string :=
  let* m := self id in
  let* sh := from_option (m_shader m) in
  let* shader := shader_at sh in
  if (i <? length (sh_texture_slots shader))%nat
  then ret (m_uniform (getTextureSlot shader i))
  else ret "".

(** The loop of getTextureByUniform: the first slot from [i] on whose
    uniform has the name. *)
Fixpoint find_slot (uniform : string) (slots : list TextureSlot) (i : nat) : option nat :=
  match slots with
  | [] => None
  | slot :: rest =>
      if compareString (m_uniform slot) uniform then Some i
      else find_slot uniform rest (S i)
  end.

Definition getTextureByUniform (uniform : string) : Eff (option nat) :=
  let* m := self id in
  match m_shader m with
  | None => ret None
  | Some sh =>
      let* shader := shader_at sh in
      match find_slot uniform (sh_texture_slots shader) 0 with
      | Some i => from_option (m_textures m !! i)
      | None => ret None
      end
  end.

(** *** The constructor *)

Definition Material_init (path : string) : Material :=
  {| m_path := path; m_state := EMPTY; m_size := 0; m_shader := None;
     m_shader_instance := None; m_textures := replicate MAX_TEXTURE_COUNT None;
     m_texture_count := 0; m_uniforms := []; m_render_states := 0;
     m_color := (F32.one, F32.one, F32.one); m_shininess := F32.four;
     m_alpha_ref := 0; m_define_mask := 0; m_command_buffer := None;
     m_layer_count := 1 |}.

(** The constructor's body, run on the member initializers. *)
Definition Material_ctor : Eff unit :=
  setAlphaRef DEFAULT_ALPHA_REF_VALUE >>
  update (set_m_textures (replicate MAX_TEXTURE_COUNT None)) >>
  setShader None.

End Methods.

(** * Predicates used in the statements *)

(** The shader-instance resolutions among the events of a call. *)
Definition is_resolution (e : Event) : bool :=
  match e with GetInstance _ _ => true | _ => false end.

Definition resolutions (ev : list Event) : nat := length (List.filter is_resolution ev).

Section Predicates.
Context `{Engine}.

(** The state is one the engine can be in: no pointer of the material
    dangles, the default shader exists, no shader declares more texture
    slots than the material has, and the texture count is within the array. *)
Definition well_formed (s : State) : bool :=
  (getDefaultShader <? length (shaders s))%nat
  && match m_shader (this s) with
     | Some sh => (sh <? length (shaders s))%nat
     | None => true
     end
  && forallb (fun sh => (length (sh_texture_slots sh) <=? length (m_textures (this s)))%nat)
             (shaders s)
  && (m_texture_count (this s) <=? length (m_textures (this s)))%nat
  && forallb (fun t => match t with
                       | Some id => (id <? length (textures s))%nat
                       | None => true
                       end)
             (m_textures (this s)).

(** The uniform table is index-aligned with a shader's schema. *)
Definition aligned (sus : list ShaderUniform) (us : list Uniform) : Prop :=
  forall i su, sus !! i = Some su ->
               exists u, us !! i = Some u /\ name_hash u = su_name_hash su.

(** [well_formed], spelled out. *)
Record wf (s : State) : Prop := {
  wf_default : (getDefaultShader < length (shaders s))%nat;
  wf_shader : forall sh, m_shader (this s) = Some sh -> (sh < length (shaders s))%nat;
  wf_slots : forall id sh, shaders s !! id = Some sh ->
             (length (sh_texture_slots sh) <= length (m_textures (this s)))%nat;
  wf_count : (m_texture_count (this s) <= length (m_textures (this s)))%nat;
  wf_textures : forall i id, m_textures (this s) !! i = Some (Some id) ->
                (id < length (textures s))%nat
}.

(** The uniform table has an entry for every uniform of the material's shader. *)
Definition covered (s : State) : Prop :=
  forall sh shader, m_shader (this s) = Some sh -> shaders s !! sh = Some shader ->
                    (length (sh_uniforms shader) <= length (m_uniforms (this s)))%nat.

(** The members that only parsing and the setters of their own write:
    everything but the shader and what is derived from it (the uniform
    table, the render states, the define mask, the command buffer and the
    shader instance). *)
Definition kept (s s1 : State) : Prop :=
  m_path (this s1) = m_path (this s) /\
  m_state (this s1) = m_state (this s) /\
  m_size (this s1) = m_size (this s) /\
  m_textures (this s1) = m_textures (this s) /\
  m_texture_count (this s1) = m_texture_count (this s) /\
  m_color (this s1) = m_color (this s) /\
  m_shininess (this s1) = m_shininess (this s) /\
  m_alpha_ref (this s1) = m_alpha_ref (this s) /\
  m_layer_count (this s1) = m_layer_count (this s).

(** What a refresh of the derived members leaves alone: the stores, the
    shader and the members [kept]. *)
Definition refreshed (s s1 : State) : Prop :=
  textures s1 = textures s /\ shaders s1 = shaders s /\
  m_shader (this s1) = m_shader (this s) /\ kept s s1.

(** The members of a texture block that deserializeTexture accepts. *)
Definition known_texture_key (label : string) : bool :=
  existsb (String.eqb label)
    ["source"; "atlas_size"; "min_filter"; "mag_filter"; "u_clamp"; "v_clamp"; "w_clamp";
     "keep_data"; "srgb"].

Definition texture_block_ok (v : jvalue) : bool :=
  forallb (fun e : string * jvalue => known_texture_key (fst e)) (object_entries v).

Definition is_texture_member (e : string * jvalue) : bool := String.eqb (fst e) "texture".

(** The document has a [texture] member with a key deserializeTexture rejects. *)
Definition has_bad_texture_block (entries : list (string * jvalue)) : bool :=
  existsb (fun e => is_texture_member e && negb (texture_block_ok (snd e))) entries.

Definition texture_blocks (entries : list (string * jvalue)) : nat :=
  length (List.filter is_texture_member entries).

Definition has_member (key : string) (entries : list (string * jvalue)) : bool :=
  existsb (fun e => String.eqb (fst e) key) entries.

(** The top-level members load knows. *)
Definition known_key (label : string) : bool :=
  existsb (String.eqb label)
    ["defines"; "uniforms"; "texture"; "alpha_ref"; "layer_count"; "color"; "shininess";
     "shader"].

(** The alpha reference a document leaves in [m_alpha_ref]: that of its
    last [alpha_ref] member, or [start] if it has none. *)
Definition doc_alpha_ref (entries : list (string * jvalue)) (start : Z) : Z :=
  foldl (fun acc e => if String.eqb (fst e) "alpha_ref"
                      then read_float (snd e) DEFAULT_ALPHA_REF_VALUE else acc)
        start entries.

(** The define mask a [defines] array leaves. *)
Definition parsed_defines (v : jvalue) : Z :=
  foldl (fun mask item =>
           Z.lor mask (define_bit (getShaderDefineIdx (read_string 32 item ""))))
        0 (array_items v).

(** The uniform table a [uniforms] array leaves, and what parsing it logs. *)
Definition parsed_uniforms (v : jvalue) : list Uniform :=
  (fun item => fst (deserializeUniform_entries (object_entries item) fresh_uniform))
    <$> array_items v.

Definition uniforms_log (v : jvalue) : list Event :=
  concat ((fun item => snd (deserializeUniform_entries (object_entries item) fresh_uniform))
            <$> array_items v).

(** The material can load the document: the state is well formed, the
    material has a shader (the constructor leaves the default one), and the
    document has no more texture blocks than the material has free slots. *)
Definition loadable (s : State) (file : jvalue) : bool :=
  well_formed s
  && bool_decide (is_Some (m_shader (this s)))
  && (m_texture_count (this s) + texture_blocks (object_entries file)
      <=? length (m_textures (this s)))%nat.

(** [covered], as a test. *)
Definition uniforms_cover (s : State) : bool :=
  match m_shader (this s) with
  | Some sh =>
      match shaders s !! sh with
      | Some shader => (length (sh_uniforms shader) <=? length (m_uniforms (this s)))%nat
      | None => true
      end
  | None => true
  end.

(** The texture bound at slot [i], if the slot is in use. *)
Definition bound_texture (m : Material) (i : nat) : option nat :=
  if (i <? m_texture_count m)%nat then mjoin (m_textures m !! i) else None.

(** setTexture can be called: the state is well formed, the slot is one of
    the array, the texture one of the store, and a ready material has an
    entry for every uniform of its shader. *)
Definition can_set_texture (s : State) (i : nat) (texture : option nat) : bool :=
  well_formed s
  && (negb (isReady (this s)) || uniforms_cover s)
  && (i <? length (m_textures (this s)))%nat
  && match texture with
     | Some t => (t <? length (textures s))%nat
     | None => true
     end.

Definition is_set_atlas_size (e : Event) : bool :=
  match e with SetAtlasSize _ _ => true | _ => false end.

(** The texture store only grows, and a texture keeps its path. *)
Definition textures_evolve (ts ts1 : list Texture) : Prop :=
  (length ts <= length ts1)%nat /\
  forall j t, ts !! j = Some t -> exists t1, ts1 !! j = Some t1 /\ tex_path t1 = tex_path t.

(** What reading a texture block may change: the texture store evolves,
    and of the material only [m_textures], and of that only the slot at
    [m_texture_count]. *)
Definition slot_step (s s1 : State) : Prop :=
  shaders s1 = shaders s /\
  this s1 = set_m_textures (m_textures (this s1)) (this s) /\
  length (m_textures (this s1)) = length (m_textures (this s)) /\
  (forall k, k <> m_texture_count (this s) ->
             m_textures (this s1) !! k = m_textures (this s) !! k) /\
  textures_evolve (textures s) (textures s1).

(** The calls that give up the shader a material holds; the default
    shader is never given up. *)
Definition release_shader_events (o : option nat) : list Event :=
  match o with
  | Some o =>
      if negb (o =? getDefaultShader)%nat
      then [RemoveDependency (ShaderRes o); ManagerUnload (ShaderRes o)]
      else []
  | None => []
  end.

(** The textures bound in the slots in use, in slot order. *)
Definition bound_textures (m : Material) : list nat :=
  omap id (take (m_texture_count m) (m_textures m)).

(** The calls that give up textures, one after the other. *)
Definition release_texture_events (ids : list nat) : list Event :=
  concat ((fun id => [RemoveDependency (TextureRes id); ManagerUnload (TextureRes id)])
            <$> ids).

(** A shader apart from its reference count. *)
Definition shader_schema (sh : Shader) : Shader :=
  {| sh_path := sh_path sh; sh_ready := sh_ready sh; sh_ref_count := 0;
     sh_uniforms := sh_uniforms sh; sh_texture_slots := sh_texture_slots sh;
     sh_render_states := sh_render_states sh |}.

(** The store holds the default shader and no shader with more texture
    slots than a material has. *)
Definition engine_ready (s : State) : bool :=
  (getDefaultShader <? length (shaders s))%nat
  && forallb (fun sh => (length (sh_texture_slots sh) <=? MAX_TEXTURE_COUNT)%nat) (shaders s).

(** What the constructor and unload leave of the shader and what derives
    from it. *)
Definition with_default_shader (m : Material) : Material :=
  set_m_shader_instance (Some (FirstInstance getDefaultShader))
    (set_m_shader (Some getDefaultShader) m).

(** The commands of a command buffer, by kind. *)
Definition is_uniform_command (c : Command) : bool :=
  match c with CmdSetUniform _ _ _ _ _ | CmdSetTimeUniform _ => true | _ => false end.

Definition is_texture_command (c : Command) : bool :=
  match c with CmdSetTexture _ _ _ => true | _ => false end.

(** The uniform types createCommandBuffer has a case for. *)
Definition has_command (su : ShaderUniform) : bool :=
  match su_type su with INT | MATRIX4 => false | _ => true end.

(** The slot that decides define [d] in onBeforeReady: the last one, from
    [i] on, that is tied to it. *)
Fixpoint deciding_slot (d : Z) (slots : list TextureSlot) (i : nat) : option nat :=
  match slots with
  | [] => None
  | slot :: rest =>
      match deciding_slot d rest (S i) with
      | Some k => Some k
      | None => if m_define_idx slot =? d then Some i else None
      end
  end.

(** Every texture slot of the shader is tied to a define below 32, or to none. *)
Definition slots_in_range (slots : list TextureSlot) : bool :=
  forallb (fun slot => m_define_idx slot <? 32) slots.

(** The pointer a slot of [m_textures] holds, null for a slot outside the
    array; the texture count is not consulted. *)
Definition slot_pointer (m : Material) (i : nat) : option nat := mjoin (m_textures m !! i).

(** The slots and the count after [setTexture(i, texture)]. *)
Definition rebound (i : nat) (texture : option nat) (m : Material) : Material :=
  set_m_texture_count
    (if (m_texture_count m <=? i)%nat then (i + 1)%nat else m_texture_count m)
    (set_m_textures (<[i := texture]> (m_textures m)) m).

(** The define mask [setTexture] leaves on a ready material: the define
    slot [i] of the shader is tied to, if any, follows the binding. *)
Definition slot_define_mask (shader : Shader) (i : nat) (bound : bool) (mask : Z) : Z :=
  if 0 <=? m_define_idx (getTextureSlot shader i)
  then with_define (m_define_idx (getTextureSlot shader i)) bound mask
  else mask.

(** The members of a uniform object that deserializeUniforms has a case for. *)
Definition known_uniform_key (label : string) : bool :=
  existsb (String.eqb label)
    ["name"; "int_value"; "float_value"; "matrix_value"; "time"; "color"; "vec3"].

(** The members of a uniform object it has no case for, in document order. *)
Definition unknown_uniform_labels (item : jvalue) : list string :=
  List.filter (fun label => negb (known_uniform_key label)) (fst <$> object_entries item).

(** The last member of an object under a key, if it has one. *)
Definition last_member (key : string) (entries : list (string * jvalue)) : option jvalue :=
  foldl (fun acc e => if String.eqb (fst e) key then Some (snd e) else acc) None entries.

(** The value a member of a uniform object stores in word [j] of the
    union, if it stores one there: [int_value], [float_value] and [time]
    write word 0, [color] and [vec3] words 0 to 2, [matrix_value] all
    sixteen. *)
Definition member_word (label : string) (v : jvalue) (j : nat) : option Z :=
  if String.eqb label "int_value" then
    (if (j =? 0)%nat then Some (u32 (read_int v 0)) else None)
  else if String.eqb label "float_value" || String.eqb label "time" then
    (if (j =? 0)%nat then Some (read_float v F32.zero) else None)
  else if String.eqb label "matrix_value" then
    (if (j <? 16)%nat then Some (read_float_item (array_items v) j F32.zero) else None)
  else if String.eqb label "color" || String.eqb label "vec3" then
    (if (j <? 3)%nat then Some (read_float_item (array_items v) j F32.zero) else None)
  else None.

(** The value the last member that writes word [j] stores there. *)
Definition last_write (j : nat) (entries : list (string * jvalue)) : option Z :=
  foldl (fun acc e => match member_word (fst e) (snd e) j with
                      | Some w => Some w
                      | None => acc
                      end) None entries.

(** The define index an item of a [defines] array names. *)
Definition define_of_item (item : jvalue) : Z := getShaderDefineIdx (read_string 32 item "").

(** The flag one member of a texture block contributes, 0 if none. *)
Definition member_flag (label : string) (v : jvalue) : Z :=
  if String.eqb label "srgb" then (if read_bool v false then BGFX_TEXTURE_SRGB else 0)
  else if String.eqb label "u_clamp" then (if read_bool v false then BGFX_TEXTURE_U_CLAMP else 0)
  else if String.eqb label "v_clamp" then (if read_bool v false then BGFX_TEXTURE_V_CLAMP else 0)
  else if String.eqb label "w_clamp" then (if read_bool v false then BGFX_TEXTURE_W_CLAMP else 0)
  else if String.eqb label "min_filter" then
    (if String.eqb (read_string 256 v "") "point" then BGFX_TEXTURE_MIN_POINT
     else if String.eqb (read_string 256 v "") "anisotropic" then BGFX_TEXTURE_MIN_ANISOTROPIC
     else 0)
  else if String.eqb label "mag_filter" then
    (if String.eqb (read_string 256 v "") "point" then BGFX_TEXTURE_MAG_POINT
     else if String.eqb (read_string 256 v "") "anisotropic" then BGFX_TEXTURE_MAG_ANISOTROPIC
     else 0)
  else 0.

(** The flags of a texture block: those of its members, or-ed together. *)
Definition block_flags (entries : list (string * jvalue)) : Z :=
  foldl (fun fl e => Z.lor fl (member_flag (fst e) (snd e))) 0 entries.

(** The atlas size of a texture block: that of its last [atlas_size]
    member, -1 if it has none. *)
Definition block_atlas_size (entries : list (string * jvalue)) : Z :=
  foldl (fun a e => if String.eqb (fst e) "atlas_size" then read_int (snd e) (-1) else a)
        (-1) entries.

(** The first non-empty [source] of a texture block, if any. *)
Definition has_source (entries : list (string * jvalue)) : bool :=
  existsb (fun e => String.eqb (fst e) "source"
                    && negb (is_empty_string (read_string MAX_PATH_LENGTH (snd e) "")))
          entries.






(** The members save writes into the block of a bound texture after its
    [source]. *)
Definition saved_members (t : Texture) : list (string * jvalue) :=
  (if 0 <? tex_atlas_size t then [("atlas_size", JInt (tex_atlas_size t))] else []) ++
  flag_entry (tex_flags t) BGFX_TEXTURE_SRGB "srgb" (JBool true) ++
  flag_entry (tex_flags t) BGFX_TEXTURE_U_CLAMP "u_clamp" (JBool true) ++
  flag_entry (tex_flags t) BGFX_TEXTURE_V_CLAMP "v_clamp" (JBool true) ++
  flag_entry (tex_flags t) BGFX_TEXTURE_W_CLAMP "w_clamp" (JBool true) ++
  flag_entry (tex_flags t) BGFX_TEXTURE_MIN_POINT "min_filter" (JString "point") ++
  flag_entry (tex_flags t) BGFX_TEXTURE_MIN_ANISOTROPIC "min_filter" (JString "anisotropic") ++
  flag_entry (tex_flags t) BGFX_TEXTURE_MAG_POINT "mag_filter" (JString "point") ++
  flag_entry (tex_flags t) BGFX_TEXTURE_MAG_ANISOTROPIC "mag_filter" (JString "anisotropic") ++
  (if Texture_hasData t then [("keep_data", JBool true)] else []).








(** A colour, each component as the serializer's text gives it back. *)
Definition saved_color (c : Z * Z * Z) : Z * Z * Z :=
  (JsonSerializer_float c.1.1, JsonSerializer_float c.1.2, JsonSerializer_float c.2).

(** The five members save writes after the texture blocks. *)
Definition save_tail (m : Material) (uniforms : list jvalue) : list (string * jvalue) :=
  [("defines", JArray (save_defines (m_define_mask m)));
   ("uniforms", JArray uniforms);
   ("shininess", serialize_float (m_shininess m));
   ("alpha_ref", serialize_float (m_alpha_ref m));
   ("color", JArray [serialize_float (m_color m).1.1; serialize_float (m_color m).1.2;
                     serialize_float (m_color m).2])].

(** The renderer's table of define names gives back the index of every
    define that is set in the mask. *)
Definition define_names_invert (mask : Z) : bool :=
  forallb (fun i : nat =>
             implb (Z.testbit mask (Z.of_nat i))
                   (define_of_item (JString (getShaderDefine (Z.of_nat i))) =? Z.of_nat i))
          (seq 0 32).

(** The value of a uniform of the given type, as save writes it and
    deserializeUniforms reads it back: the words the type uses, each float
    as the serializer's text gives it back.  The value of a TIME uniform is
    not saved: 0 is written in its place. *)
Definition same_value (ty : UniformType) (u u1 : Uniform) : Prop :=
  match ty with
  | FLOAT => get_word u1 0 = JsonSerializer_float (get_word u 0)
  | VEC3 | COLOR =>
      forall j, (j < 3)%nat -> get_word u1 j = JsonSerializer_float (get_word u j)
  | MATRIX4 =>
      forall j, (j < 16)%nat -> get_word u1 j = JsonSerializer_float (get_word u j)
  | INT => get_word u1 0 = u32 (get_word u 0)
  | TIME => get_word u1 0 = F32.zero
  end.

End Predicates.

(** ** A sample engine configuration

    The values bgfx and the engine use, for the examples below. *)

Module Sample.

(** CRC-32 (reflected, polynomial 0xEDB88320), bit by bit. *)
Fixpoint crc_bits (n : nat) (crc : Z) : Z :=
  match n with
  | O => crc
  | S n' =>
      crc_bits n' (if Z.odd crc then Z.lxor (Z.shiftr crc 1) 0xEDB88320 else Z.shiftr crc 1)
  end.

Fixpoint crc_string (s : string) (crc : Z) : Z :=
  match s with
  | EmptyString => crc
  | String c rest => crc_string rest (crc_bits 8 (Z.lxor crc (Z.of_nat (nat_of_ascii c))))
  end.

Definition crc32_ieee (s : string) : Z := Z.lxor (crc_string s 0xFFFFFFFF) 0xFFFFFFFF.

(** A leading separator is dropped and backslashes become slashes. *)
Fixpoint slashes (s : string) : string :=
  match s with
  | EmptyString => EmptyString
  | String c rest => String (if Ascii.eqb c "\"%char then "/"%char else c) (slashes rest)
  end.

Definition normalize (s : string) : string :=
  match slashes s with
  | String "/"%char rest => rest
  | other => other
  end.

(** The path up to and including its last slash. *)
Fixpoint dir_of (s : string) : string :=
  match s with
  | EmptyString => EmptyString
  | String c rest =>
      let d := dir_of rest in
      if Ascii.eqb c "/"%char then String c d
      else if is_empty_string d then EmptyString else String c d
  end.

Definition defines : list string := ["SKINNED"; "ALPHA_CUTOUT"; "SHADOW"; "NORMAL_MAPPING"].

Fixpoint index_of (name : string) (l : list string) : nat :=
  match l with
  | [] => O
  | x :: rest => if String.eqb x name then O else S (index_of name rest)
  end.

Definition engine : Engine := {|
  crc32 := crc32_ieee;
  MAX_TEXTURE_COUNT := 16;
  MAX_PATH_LENGTH := 260;
  BGFX_TEXTURE_SRGB := 0x2000;
  BGFX_TEXTURE_U_CLAMP := 0x2;
  BGFX_TEXTURE_V_CLAMP := 0x8;
  BGFX_TEXTURE_W_CLAMP := 0x20;
  BGFX_TEXTURE_MIN_POINT := 0x40;
  BGFX_TEXTURE_MIN_ANISOTROPIC := 0x80;
  BGFX_TEXTURE_MAG_POINT := 0x100;
  BGFX_TEXTURE_MAG_ANISOTROPIC := 0x200;
  BGFX_STATE_ALPHA_REF_SHIFT := 40;
  Path_normalize := normalize;
  PathUtils_getDir := dir_of;
  getShaderDefine := fun i => default "" (defines !! Z.to_nat i);
  getShaderDefineIdx := fun name => Z.of_nat (index_of name defines);
  getDefaultShader := 0%nat;
  getMaterialColorShininessUniform := 7;
  fresh_uniform := {| name_hash := 0; words := replicate 16 0 |};
  JsonSerializer_float := fun bits => Z.land bits 0xFFFFFFF0
|}.

#[local] Existing Instance engine.

(** The default shader: one float uniform, one colour, a time uniform, and
    two texture slots, the second tied to define 3. *)
Definition default_shader : Shader :=
  {| sh_path := "shaders/default.shd"; sh_ready := true; sh_ref_count := 1;
     sh_uniforms :=
       [ {| su_name := "roughness"; su_name_hash := crc32 "roughness"; su_type := FLOAT;
            su_handle := 1 |};
         {| su_name := "tint"; su_name_hash := crc32 "tint"; su_type := COLOR;
            su_handle := 2 |};
         {| su_name := "now"; su_name_hash := crc32 "now"; su_type := TIME;
            su_handle := 3 |} ];
     sh_texture_slots :=
       [ {| m_define_idx := -1; m_uniform := "u_texColor"; m_uniform_handle := 4 |};
         {| m_define_idx := 3; m_uniform := "u_texNormal"; m_uniform_handle := 5 |} ];
     sh_render_states := 0x10 |}.

Definition world : State :=
  {| textures := []; shaders := [default_shader];
     this := Material_init "models/crate/crate.mat" |}.

(** A freshly constructed material. *)
Definition fresh : State := Eval vm_compute in after Material_ctor world.

(** The document of the spec's scenario. *)
Definition scenario : jvalue :=
  JObject [ ("shader", JString "/shaders/default.shd");
            ("texture", JObject [("source", JString "t.dds"); ("srgb", JBool true)]);
            ("alpha_ref", JFloat 0x3F000000) ].

(** The material after loading the scenario, and after it became ready. *)
Definition loaded : State := Eval vm_compute in after (load scenario 100) fresh.

Definition ready : State :=
  Eval vm_compute in
    (let s := after onBeforeReady loaded in
     set_this (set_m_state READY (this s)) s).

(** The ready material, and a second texture in the store. *)
Definition two_textures : State :=
  Eval vm_compute in after (texture_manager_load "models/crate/u.dds") ready.

(** A document whose uniforms come in another order than the shader's,
    with one the shader does not declare and one missing. *)
Definition shuffled : jvalue :=
  JObject [ ("uniforms",
             JArray [ JObject [("name", JString "tint");
                               ("color", JArray [JFloat F32.one; JFloat 0; JFloat 0])];
                      JObject [("name", JString "glow"); ("float_value", JFloat F32.four)];
                      JObject [("name", JString "roughness");
                               ("float_value", JFloat 0x3F000000)] ]) ].

(** A document with a texture block that has an unknown member. *)
Definition bad_texture : jvalue :=
  JObject [ ("shader", JString "/shaders/default.shd");
            ("texture", JObject [("source", JString "t.dds"); ("mipmaps", JBool true)]) ].

(** A document without a [shader] member. *)
Definition shaderless : jvalue := JObject [ ("alpha_ref", JFloat 0x3F000000) ].

(** A reload: the material is loaded with one texture, unloaded, and
    loaded again from a document whose first texture block has an empty
    source. *)
Definition first_document : jvalue :=
  JObject [ ("shader", JString "/shaders/default.shd");
            ("texture", JObject [("source", JString "a.dds")]) ].

Definition second_document : jvalue :=
  JObject [ ("shader", JString "/shaders/default.shd");
            ("texture", JObject [("source", JString "")]);
            ("texture", JObject [("source", JString "b.dds")]) ].

Definition unloaded : State :=
  Eval vm_compute in after unload (after (load first_document 64) fresh).

(** The material after the first document of the reload is loaded. *)
Definition first_loaded : State :=
  Eval vm_compute in after (load first_document 64) fresh.

(** The material after the shuffled uniforms are loaded. *)
Definition shuffled_loaded : State :=
  Eval vm_compute in after (load shuffled 100) fresh.

(** A store with a second shader, still loading, and a fresh material. *)
Definition pending_shader : Shader :=
  {| sh_path := "shaders/water.shd"; sh_ready := false; sh_ref_count := 1;
     sh_uniforms := []; sh_texture_slots := []; sh_render_states := 0 |}.

Definition pending_world : State :=
  Eval vm_compute in
    after Material_ctor
      {| textures := []; shaders := [default_shader; pending_shader];
         this := Material_init "models/sea/sea.mat" |}.

(** The ready material with the define ALPHA_CUTOUT set. *)
Definition cutout : State := Eval vm_compute in after (setDefine 1 true) ready.





(** A texture block with every kind of member. *)
Definition full_block : jvalue :=
  JObject [ ("source", JString "t.dds"); ("srgb", JBool true);
            ("min_filter", JString "point"); ("atlas_size", JInt 4);
            ("u_clamp", JBool false) ].

End Sample.


(** * Reasoning about methods *)

Section Runs.

Lemma runs_ret {A : Type} (a : A) s (Q : A -> State -> list Event -> Prop) :
  Q a s [] -> runs (ret a) s Q.
Proof. intros HQ. exists a, s, []. split; [reflexivity | exact HQ]. Qed.

Lemma runs_bind {A B : Type} (m : Eff A) (f : A -> Eff B) s
    (Q : B -> State -> list Event -> Prop) :
  runs m s (fun a s1 ev1 => runs (f a) s1 (fun b s2 ev2 => Q b s2 (ev1 ++ ev2))) ->
  runs (bind m f) s Q.
Proof.
  intros (a & s1 & ev1 & Hm & b & s2 & ev2 & Hf & HQ).
  exists b, s2, (ev1 ++ ev2). split; [| exact HQ].
  unfold bind. rewrite Hm, Hf. reflexivity.
Qed.

Lemma runs_gets {A : Type} (f : State -> A) s (Q : A -> State -> list Event -> Prop) :
  Q (f s) s [] -> runs (gets f) s Q.
Proof. intros HQ. exists (f s), s, []. split; [reflexivity | exact HQ]. Qed.

Lemma runs_self {A : Type} (f : Material -> A) s (Q : A -> State -> list Event -> Prop) :
  Q (f (this s)) s [] -> runs (self f) s Q.
Proof. apply (runs_gets (fun s => f (this s))). Qed.

Lemma runs_modify (f : State -> State) s (Q : unit -> State -> list Event -> Prop) :
  Q tt (f s) [] -> runs (modify f) s Q.
Proof. intros HQ. exists tt, (f s), []. split; [reflexivity | exact HQ]. Qed.

Lemma runs_update (f : Material -> Material) s (Q : unit -> State -> list Event -> Prop) :
  Q tt (set_this (f (this s)) s) [] -> runs (update f) s Q.
Proof. apply (runs_modify (fun s => set_this (f (this s)) s)). Qed.

Lemma runs_emit (e : Event) s (Q : unit -> State -> list Event -> Prop) :
  Q tt s [e] -> runs (emit e) s Q.
Proof. intros HQ. exists tt, s, [e]. split; [reflexivity | exact HQ]. Qed.

Lemma runs_emit_all (log : list Event) s (Q : unit -> State -> list Event -> Prop) :
  Q tt s log -> runs (emit_all log) s Q.
Proof. intros HQ. exists tt, s, log. split; [reflexivity | exact HQ]. Qed.

Lemma runs_from_option {A : Type} (o : option A) (a : A) s
    (Q : A -> State -> list Event -> Prop) :
  o = Some a -> Q a s [] -> runs (from_option o) s Q.
Proof. intros -> HQ. apply runs_ret, HQ. Qed.

Lemma runs_shader_at (id : nat) sh s (Q : Shader -> State -> list Event -> Prop) :
  shaders s !! id = Some sh -> Q sh s [] -> runs (shader_at id) s Q.
Proof.
  intros Hl HQ. exists sh, s, []. split; [| exact HQ].
  unfold shader_at, bind, gets, from_option. rewrite Hl. reflexivity.
Qed.

Lemma runs_texture_at (id : nat) t s (Q : Texture -> State -> list Event -> Prop) :
  textures s !! id = Some t -> Q t s [] -> runs (texture_at id) s Q.
Proof.
  intros Hl HQ. exists t, s, []. split; [| exact HQ].
  unfold texture_at, bind, gets, from_option. rewrite Hl. reflexivity.
Qed.

Lemma runs_update_texture (id : nat) f t s (Q : unit -> State -> list Event -> Prop) :
  textures s !! id = Some t ->
  Q tt (set_textures (<[id := f t]> (textures s)) s) [] ->
  runs (update_texture id f) s Q.
Proof.
  intros Hl HQ. exists tt, (set_textures (<[id := f t]> (textures s)) s), [].
  split; [| exact HQ].
  unfold update_texture, texture_at, bind, gets, from_option, modify. rewrite Hl. reflexivity.
Qed.

Lemma runs_mono {A : Type} (m : Eff A) s (P Q : A -> State -> list Event -> Prop) :
  runs m s P -> (forall a s1 ev, P a s1 ev -> Q a s1 ev) -> runs m s Q.
Proof. intros (a & s1 & ev & Hm & HP) HPQ. exists a, s1, ev. auto. Qed.

Lemma runs_elim {A : Type} (m : Eff A) s (Q : A -> State -> list Event -> Prop) a s1 ev :
  runs m s Q -> m s = Some (a, s1, ev) -> Q a s1 ev.
Proof. intros (a' & s' & ev' & Hm & HQ) Heq. rewrite Hm in Heq. congruence. Qed.

Lemma runs_after {A : Type} (m : Eff A) s (Q : A -> State -> list Event -> Prop) :
  runs m s Q -> exists a, result m s = Some a /\ Q a (after m s) (events m s).
Proof.
  intros (a & s1 & ev & Hm & HQ). exists a.
  unfold result, after, events. rewrite Hm. auto.
Qed.

End Runs.

(** One step of a method: peel a bind, or run a primitive. *)
Ltac run1 :=
  lazymatch goal with
  | |- runs (bind _ _) _ _ => apply runs_bind
  | |- runs (ret _) _ _ => apply runs_ret
  | |- runs (self _) _ _ => apply runs_self
  | |- runs (gets _) _ _ => apply runs_gets
  | |- runs (update _) _ _ => apply runs_update
  | |- runs (modify _) _ _ => apply runs_modify
  | |- runs (emit _) _ _ => apply runs_emit
  | |- runs (emit_all _) _ _ => apply runs_emit_all
  end.
Ltac step := run1; cbv beta.

(** Write the state of the goal as a record of its three components. *)
Ltac norm_state :=
  unfold set_this, set_textures, set_shaders; cbn [textures shaders this].
Ltac run := repeat step.

(** Run a step whose lookup is given by the hypothesis [H]. *)
Ltac run_with H :=
  first [ eapply runs_from_option; [simpl; exact H |]
        | eapply runs_shader_at; [simpl; exact H |]
        | eapply runs_texture_at; [simpl; exact H |]
        | eapply runs_update_texture; [simpl; exact H |] ];
  cbv beta.

(** * The define mask *)

Section Defines.

Lemma define_bit_pow2 k : 0 <= k < 32 -> define_bit k = 2 ^ k.
Proof.
  intros Hk. unfold define_bit, u32. rewrite Z.shiftl_1_l.
  apply Z.mod_small. split; [apply Z.pow_nonneg; lia |].
  apply Z.pow_lt_mono_r; lia.
Qed.

Lemma define_bit_testbit k n :
  0 <= k < 32 -> 0 <= n -> Z.testbit (define_bit k) n = (k =? n).
Proof.
  intros Hk Hn. rewrite define_bit_pow2 by exact Hk.
  apply Z.pow2_bits_eqb; lia.
Qed.

Lemma define_bit_complement_testbit k n :
  0 <= k < 32 -> 0 <= n ->
  Z.testbit (define_bit_complement k) n = (n <? 32) && negb (k =? n).
Proof.
  intros Hk Hn. unfold define_bit_complement, u32.
  destruct (Z.ltb_spec n 32) as [Hlt | Hge]; simpl.
  - rewrite Z.mod_pow2_bits_low by lia.
    rewrite Z.lnot_spec by lia. rewrite Z.shiftl_1_l.
    rewrite Z.pow2_bits_eqb by lia. reflexivity.
  - apply Z.mod_pow2_bits_high; lia.
Qed.

Lemma land_zero_testbit a k :
  0 <= k < 32 -> (Z.land a (define_bit k) =? 0) = negb (Z.testbit a k).
Proof.
  intros Hk.
  destruct (Z.testbit a k) eqn:Hb; simpl.
  - apply Z.eqb_neq. intros H0.
    assert (Hbit : Z.testbit (Z.land a (define_bit k)) k = true).
    { rewrite Z.land_spec, Hb, define_bit_testbit by lia. rewrite Z.eqb_refl. reflexivity. }
    rewrite H0, Z.bits_0 in Hbit. discriminate.
  - apply Z.eqb_eq. apply Z.bits_inj'. intros n Hn.
    rewrite Z.land_spec, Z.bits_0, define_bit_testbit by lia.
    destruct (Z.eqb_spec k n) as [-> |]; [rewrite Hb; reflexivity | apply andb_false_r].
Qed.

Lemma isDefined_testbit m k :
  0 <= k < 32 -> isDefined m k = Z.testbit (m_define_mask m) k.
Proof.
  intros Hk. unfold isDefined. rewrite land_zero_testbit by exact Hk.
  apply negb_involutive.
Qed.

Lemma with_define_testbit k e mask n :
  0 <= k < 32 -> 0 <= n < 32 ->
  Z.testbit (with_define k e mask) n = if k =? n then e else Z.testbit mask n.
Proof.
  intros Hk Hn. unfold with_define. destruct e.
  - rewrite Z.lor_spec, define_bit_testbit by lia.
    destruct (k =? n); [apply orb_true_r | apply orb_false_r].
  - rewrite Z.land_spec, define_bit_complement_testbit by lia.
    destruct (Z.ltb_spec n 32); [| lia]. simpl.
    destruct (k =? n); simpl; [apply andb_false_r | apply andb_true_r].
Qed.

Lemma with_define_idempotent k e mask :
  with_define k e (with_define k e mask) = with_define k e mask.
Proof.
  unfold with_define. destruct e.
  - rewrite <- Z.lor_assoc, Z.lor_diag. reflexivity.
  - rewrite <- Z.land_assoc, Z.land_diag. reflexivity.
Qed.

Lemma u32_range_testbit mask n :
  0 <= mask < 2 ^ 32 -> 32 <= n -> Z.testbit mask n = false.
Proof.
  intros Hm Hn. rewrite <- (Z.mod_small mask (2 ^ 32)) by exact Hm.
  apply Z.mod_pow2_bits_high; lia.
Qed.

(** The mask changes exactly when the bit does. *)
Lemma with_define_unchanged k e mask :
  0 <= k < 32 -> 0 <= mask < 2 ^ 32 ->
  (mask =? with_define k e mask) = Bool.eqb (Z.testbit mask k) e.
Proof.
  intros Hk Hm.
  destruct (Bool.eqb (Z.testbit mask k) e) eqn:Hb.
  - apply Bool.eqb_prop in Hb. apply Z.eqb_eq. apply Z.bits_inj'. intros n Hn.
    destruct (Z.ltb_spec n 32) as [Hlt | Hge].
    + rewrite with_define_testbit by lia.
      destruct (Z.eqb_spec k n) as [-> |]; [exact Hb | reflexivity].
    + rewrite (u32_range_testbit mask n) by lia.
      unfold with_define. destruct e.
      * rewrite Z.lor_spec, (u32_range_testbit mask n) by lia.
        rewrite define_bit_testbit by lia.
        destruct (Z.eqb_spec k n); [lia | reflexivity].
      * rewrite Z.land_spec, (u32_range_testbit mask n) by lia. reflexivity.
  - apply Z.eqb_neq. intros Heq.
    assert (Hbit : Z.testbit (with_define k e mask) k = e).
    { rewrite with_define_testbit by lia. rewrite Z.eqb_refl. reflexivity. }
    rewrite <- Heq in Hbit. rewrite Hbit in Hb.
    rewrite Bool.eqb_reflx in Hb. discriminate.
Qed.

End Defines.

(** * setDefine and isDefined *)

Section SetDefine.

(** What setDefine does, in one equation. *)
Lemma setDefine_eq k e s :
  setDefine k e s =
  let mask := with_define k e (m_define_mask (this s)) in
  let s1 := set_this (set_m_define_mask mask (this s)) s in
  match isReady (this s), m_shader (this s) with
  | true, Some shader =>
      if m_define_mask (this s) =? mask then Some (tt, s1, [])
      else Some (tt, set_this (set_m_shader_instance (Some (InstanceOf shader mask)) (this s1)) s1,
                 [GetInstance shader mask])
  | _, _ => Some (tt, s1, [])
  end.
Proof.
  unfold setDefine, bind, self, update, gets, modify, getInstance, emit, ret, isReady. simpl.
  destruct (m_state (this s)); simpl; try reflexivity.
  destruct (m_shader (this s)); simpl; [| reflexivity].
  destruct (m_define_mask (this s) =? with_define k e (m_define_mask (this s))); reflexivity.
Qed.

Lemma setDefine_mask k e s s1 ev :
  setDefine k e s = Some (tt, s1, ev) ->
  m_define_mask (this s1) = with_define k e (m_define_mask (this s)).
Proof.
  rewrite setDefine_eq. cbv zeta.
  destruct (isReady (this s)), (m_shader (this s));
    try destruct (_ =? _); intros [= <- <-]; reflexivity.
Qed.

End SetDefine.

(** C10: after [setDefine(k, e)] returns, [isDefined(k)] equals [e], ready
    or not: the call is always defined, the mask bit is updated
    unconditionally, and when the material is not ready or has no shader
    nothing else happens (no shader instance is resolved, the instance
    pointer stays). *)
Theorem setDefine_then_isDefined (s : State) (k : Z) (e : bool) :
  0 <= k < 32 ->
  exists s1 ev,
    setDefine k e s = Some (tt, s1, ev) /\
    isDefined (this s1) k = e /\
    m_define_mask (this s1) = with_define k e (m_define_mask (this s)) /\
    (isReady (this s) = false \/ m_shader (this s) = None ->
     ev = [] /\ m_shader_instance (this s1) = m_shader_instance (this s)).
Proof.
  intros Hk.
  assert (Hbit : forall mask, Z.testbit (with_define k e mask) k = e).
  { intros mask. rewrite with_define_testbit by lia. rewrite Z.eqb_refl. reflexivity. }
  rewrite setDefine_eq. cbv zeta.
  destruct (isReady (this s)) eqn:Hready; [destruct (m_shader (this s)) as [shader |] eqn:Hsh |].
  - destruct (_ =? _); eexists _, _; (split; [reflexivity |]);
      rewrite isDefined_testbit by exact Hk; simpl; rewrite Hbit;
      (split; [reflexivity |]); (split; [reflexivity |]);
      intros [? | ?]; discriminate.
  - eexists _, _. split; [reflexivity |].
    rewrite isDefined_testbit by exact Hk. simpl. rewrite Hbit. auto.
  - eexists _, _. split; [reflexivity |].
    rewrite isDefined_testbit by exact Hk. simpl. rewrite Hbit. auto.
Qed.

(** C6: on a ready material, [setDefine(k, e)] called twice in a row
    resolves the shader instance once if the first call changed the bit and
    not at all otherwise; the second call changes nothing and resolves
    nothing. *)
Theorem setDefine_twice (s : State) (k : Z) (e : bool) (shader : nat) :
  0 <= k < 32 ->
  0 <= m_define_mask (this s) < 2 ^ 32 ->
  isReady (this s) = true ->
  m_shader (this s) = Some shader ->
  exists s1 ev1 ev2,
    setDefine k e s = Some (tt, s1, ev1) /\
    setDefine k e s1 = Some (tt, s1, ev2) /\
    ev2 = [] /\
    ev1 = (if Bool.eqb (isDefined (this s) k) e then []
           else [GetInstance shader (m_define_mask (this s1))]) /\
    resolutions (ev1 ++ ev2) = (if Bool.eqb (isDefined (this s) k) e then 0 else 1)%nat.
Proof.
  intros Hk Hmask Hready Hsh.
  rewrite isDefined_testbit by exact Hk.
  rewrite <- (with_define_unchanged k e) by assumption.
  rewrite (setDefine_eq k e s). cbv zeta. rewrite Hready, Hsh.
  destruct (m_define_mask (this s) =? with_define k e (m_define_mask (this s))) eqn:Hsame.
  - eexists _, [], []. split; [reflexivity |].
    split; [| auto].
    rewrite setDefine_eq. cbv zeta. unfold isReady in *. simpl.
    destruct (m_state (this s)); try discriminate.
    rewrite Hsh. rewrite with_define_idempotent, Z.eqb_refl. reflexivity.
  - eexists _, [_], []. split; [reflexivity |].
    split; [| auto].
    rewrite setDefine_eq. cbv zeta. unfold isReady in *. simpl.
    destruct (m_state (this s)); try discriminate.
    rewrite Hsh. rewrite with_define_idempotent, Z.eqb_refl. reflexivity.
Qed.

(** C9: [save] on a material that is not ready, or has no shader, returns
    false and leaves the serializer, and everything else, as it was. *)
Theorem save_refused `{Engine} (s : State) (serializer : list jvalue) :
  isReady (this s) = false \/ m_shader (this s) = None ->
  save serializer s = Some ((false, serializer), s, []).
Proof.
  intros Hor. unfold save, bind, self, gets, ret. simpl.
  destruct (isReady (this s)); simpl; [| reflexivity].
  destruct Hor as [Hr | Hs]; [discriminate |].
  rewrite Hs. reflexivity.
Qed.

(** * Readiness reconciliation *)

Section Reconcile.
Context `{Engine}.

Lemma find_uniform_Some h us j0 j :
  find_uniform h us j0 = Some j ->
  (j0 <= j)%nat /\ exists u, us !! (j - j0)%nat = Some u /\ name_hash u = h.
Proof.
  revert j0. induction us as [| u rest IH]; intros j0; simpl; [discriminate |].
  destruct (Z.eqb_spec (name_hash u) h) as [Hh | Hh].
  - intros [= <-]. split; [lia |]. exists u.
    replace (j0 - j0)%nat with O by lia. auto.
  - intros Hf. apply IH in Hf as (Hle & u' & Hl & Hu). split; [lia |].
    exists u'. split; [| exact Hu].
    replace (j - j0)%nat with (S (j - S j0)) by lia. exact Hl.
Qed.

(** One round: defined whenever [i] is at most the size, it leaves the
    entries before [i] alone and puts the wanted hash at [i]. *)
Lemma reconcile_uniform_spec i su us :
  (i <= length us)%nat ->
  exists us1,
    reconcile_uniform i su us = Some us1 /\
    (i < length us1)%nat /\
    (forall k, (k < i)%nat -> us1 !! k = us !! k) /\
    exists u, us1 !! i = Some u /\ name_hash u = su_name_hash su.
Proof.
  intros Hi. unfold reconcile_uniform.
  destruct (find_uniform (su_name_hash su) (drop i us) i) as [j |] eqn:Hfind.
  - apply find_uniform_Some in Hfind as (Hij & uj & Hj & Hhash).
    rewrite lookup_drop in Hj. replace (i + (j - i))%nat with j in Hj by lia.
    assert (Hjlt : (j < length us)%nat) by (eapply lookup_lt_Some; eauto).
    destruct (lookup_lt_is_Some_2 us i) as [ui Hui]; [lia |].
    rewrite Hui, Hj. simpl. eexists. split; [reflexivity |].
    rewrite !length_insert. split; [lia |]. split.
    + intros k Hk. rewrite !list_lookup_insert_ne by lia. reflexivity.
    + destruct (decide (i = j)) as [-> | Hne].
      * exists ui. split; [apply list_lookup_insert_eq; rewrite length_insert; lia |].
        congruence.
      * exists uj. split; [| exact Hhash].
        rewrite list_lookup_insert_ne by lia.
        apply list_lookup_insert_eq. lia.
  - set (us1 := match us !! i with Some ui => us ++ [ui] | None => us ++ [fresh_uniform] end).
    assert (Hlen : length us1 = S (length us)).
    { subst us1. destruct (us !! i); rewrite length_app; simpl; lia. }
    assert (Hpre : forall k, (k < length us)%nat -> us1 !! k = us !! k).
    { intros k Hk. subst us1. destruct (us !! i); apply lookup_app_l; exact Hk. }
    destruct (lookup_lt_is_Some_2 us1 i) as [ui Hui]; [lia |].
    rewrite Hui. simpl. eexists. split; [reflexivity |].
    rewrite length_insert. split; [lia |]. split.
    + intros k Hk. rewrite list_lookup_insert_ne by lia. apply Hpre. lia.
    + eexists. split; [apply list_lookup_insert_eq; lia | reflexivity].
Qed.

(** The whole loop, from any index within the table. *)
Lemma reconcile_uniforms_spec sus : forall i us,
  (i <= length us)%nat ->
  exists us1,
    reconcile_uniforms i sus us = Some us1 /\
    (i + length sus <= length us1)%nat /\
    (forall k, (k < i)%nat -> us1 !! k = us !! k) /\
    (forall k su, sus !! k = Some su ->
                  exists u, us1 !! (i + k)%nat = Some u /\ name_hash u = su_name_hash su).
Proof.
  induction sus as [| su rest IH]; intros i us Hi; simpl.
  - exists us. split; [reflexivity |]. split; [lia |]. split; [auto |].
    intros k su Hk. rewrite lookup_nil in Hk. discriminate.
  - destruct (reconcile_uniform_spec i su us Hi) as (us1 & -> & Hlt & Hpre & u & Hu & Hhash).
    simpl. destruct (IH (S i) us1) as (us2 & -> & Hlen & Hpre2 & Hal); [lia |].
    exists us2. split; [reflexivity |]. split; [lia |]. split.
    + intros k Hk. rewrite Hpre2 by lia. apply Hpre. exact Hk.
    + intros [| k] su' Hk; simpl in Hk.
      * injection Hk as <-. exists u. rewrite Nat.add_0_r.
        rewrite Hpre2 by lia. auto.
      * replace (i + S k)%nat with (S i + k)%nat by lia. apply Hal. exact Hk.
Qed.

(** Whatever the table held, the loop ends with it aligned to the schema. *)
Lemma reconcile_uniforms_aligned sus us :
  exists us1, reconcile_uniforms 0 sus us = Some us1 /\
              aligned sus us1 /\ (length sus <= length us1)%nat.
Proof.
  destruct (reconcile_uniforms_spec sus 0 us) as (us1 & Heq & Hlen & _ & Hal); [lia |].
  exists us1. split; [exact Heq |]. split; [| exact Hlen].
  intros i su Hi. apply (Hal i su Hi).
Qed.

End Reconcile.

(** * Well-formed states *)

Section WellFormed.
Context `{Engine}.

Lemma well_formed_wf s : well_formed s = true <-> wf s.
Proof.
  unfold well_formed. rewrite !andb_true_iff, !forallb_forall.
  rewrite !Nat.ltb_lt, Nat.leb_le. split.
  - intros ((((Hd & Hs) & Hsl) & Hc) & Ht). split; try assumption.
    + intros sh Hsh. rewrite Hsh in Hs. apply Nat.ltb_lt, Hs.
    + intros id sh Hid. apply Nat.leb_le, Hsl.
      apply list_elem_of_In. eapply list_elem_of_lookup_2, Hid.
    + intros i id Hi. apply Nat.ltb_lt.
      apply (Ht (Some id)). apply list_elem_of_In. eapply list_elem_of_lookup_2, Hi.
  - intros [Hd Hs Hsl Hc Ht]. repeat split; try assumption.
    + destruct (m_shader (this s)) as [sh |]; [| reflexivity]. apply Nat.ltb_lt. auto.
    + intros sh Hin. apply list_elem_of_In, list_elem_of_lookup_1 in Hin as [id Hid].
      apply Nat.leb_le. eauto.
    + intros [id |] Hin; [| reflexivity].
      apply list_elem_of_In, list_elem_of_lookup_1 in Hin as [i Hi].
      apply Nat.ltb_lt. eauto.
Qed.

Lemma kept_refl s : kept s s.
Proof. repeat split. Qed.

Lemma kept_trans s1 s2 s3 : kept s1 s2 -> kept s2 s3 -> kept s1 s3.
Proof. unfold kept. intros H1 H2. intuition congruence. Qed.

Lemma refreshed_refl s : refreshed s s.
Proof. repeat split. Qed.

Lemma wf_refreshed s s1 : refreshed s s1 -> wf s -> wf s1.
Proof.
  intros (Ht & Hs & Hsh & _ & _ & _ & Htx & Hc & _) [Hd Hs1 Hsl Hcn Htex].
  split; rewrite ?Ht, ?Hs, ?Hsh, ?Htx, ?Hc; assumption.
Qed.

Lemma uniform_commands_defined sus : forall i us,
  (i + length sus <= length us)%nat -> is_Some (uniform_commands i sus us).
Proof.
  induction sus as [| su rest IH]; intros i us Hlen; simpl; [eauto |].
  simpl in Hlen. destruct (lookup_lt_is_Some_2 us i) as [u ->]; [lia |]. simpl.
  destruct (IH (S i) us) as [cmds ->]; [lia |]. simpl. eauto.
Qed.

Lemma texture_commands_defined slots : forall i ts m,
  (m_texture_count m <= length (m_textures m))%nat ->
  (forall k id, m_textures m !! k = Some (Some id) -> (id < length ts)%nat) ->
  is_Some (texture_commands i slots ts m).
Proof.
  induction slots as [| slot rest IH]; intros i ts m Hc Hv; simpl; [eauto |].
  destruct (IH (S i) ts m Hc Hv) as [cmds ->]. simpl.
  destruct (Nat.leb_spec (m_texture_count m) i) as [Hle | Hlt]; [eauto |].
  destruct (lookup_lt_is_Some_2 (m_textures m) i) as [t Ht]; [lia |].
  rewrite Ht. simpl. destruct t as [id |]; [| eauto].
  destruct (lookup_lt_is_Some_2 ts id) as [tx ->]; [eauto |]. simpl. eauto.
Qed.

Lemma texture_defines_defined slots : forall i texs mask,
  (i + length slots <= length texs)%nat -> is_Some (texture_defines i slots texs mask).
Proof.
  induction slots as [| slot rest IH]; intros i texs mask Hlen; simpl; [eauto |].
  simpl in Hlen. destruct (0 <=? m_define_idx slot).
  - destruct (lookup_lt_is_Some_2 texs i) as [t ->]; [lia |]. simpl. apply IH. lia.
  - apply IH. lia.
Qed.

(** createCommandBuffer replaces the command buffer and nothing else. *)
Lemma createCommandBuffer_spec s :
  wf s -> covered s ->
  runs createCommandBuffer s (fun _ s1 ev =>
    ev = [] /\ exists cb, s1 = set_this (set_m_command_buffer cb (this s)) s).
Proof.
  intros Hwf Hcov. unfold createCommandBuffer.
  run. simpl. destruct (m_shader (this s)) as [sh |] eqn:Hsh.
  - destruct (lookup_lt_is_Some_2 (shaders s) sh) as [shader Hshader];
      [apply Hwf, Hsh |].
    destruct (uniform_commands_defined (sh_uniforms shader) 0 (m_uniforms (this s)))
      as [ucmds Hu]; [apply (Hcov sh shader Hsh Hshader) |].
    destruct (texture_commands_defined (sh_texture_slots shader) 0 (textures s)
                (set_m_command_buffer None (this s))) as [tcmds Ht];
      [apply Hwf | apply Hwf |].
    run1. run_with Hshader. run1. run_with Hu. run. run_with Ht.
    destruct (m_color (this s)) as [[r g] b]. run.
    split; [reflexivity |]. eexists. reflexivity.
  - run. split; [reflexivity |]. eexists. reflexivity.
Qed.

(** onBeforeReady is defined on every well-formed state; it refreshes the
    derived members and leaves the uniform table aligned with the schema. *)
Lemma onBeforeReady_spec s :
  wf s ->
  runs onBeforeReady s (fun _ s1 ev =>
    refreshed s s1 /\
    match m_shader (this s) with
    | None => s1 = s /\ ev = []
    | Some sh =>
        exists shader,
          shaders s !! sh = Some shader /\
          aligned (sh_uniforms shader) (m_uniforms (this s1)) /\
          (length (sh_uniforms shader) <= length (m_uniforms (this s1)))%nat /\
          m_render_states (this s1) =
            Z.lor (BGFX_STATE_ALPHA_REF (alpha_ref_byte (m_alpha_ref (this s))))
                  (sh_render_states shader) /\
          texture_defines 0 (sh_texture_slots shader) (m_textures (this s))
            (m_define_mask (this s)) = Some (m_define_mask (this s1)) /\
          ev = [GetInstance sh (m_define_mask (this s1))] /\
          m_shader_instance (this s1) = Some (InstanceOf sh (m_define_mask (this s1)))
    end).
Proof.
  intros Hwf. unfold onBeforeReady. run. simpl.
  destruct (m_shader (this s)) as [sh |] eqn:Hsh.
  - destruct (lookup_lt_is_Some_2 (shaders s) sh) as [shader Hshader];
      [apply Hwf, Hsh |].
    destruct (reconcile_uniforms_aligned (sh_uniforms shader) (m_uniforms (this s)))
      as (us1 & Hrec & Hal & Hlen).
    destruct (texture_defines_defined (sh_texture_slots shader) 0 (m_textures (this s))
                (m_define_mask (this s))) as [mask Hmask];
      [simpl; eapply (wf_slots s Hwf), Hshader |].
    run1. run_with Hshader. run1. run_with Hrec. run. run_with Hmask. run.
    eapply runs_mono.
    { apply createCommandBuffer_spec.
      - eapply wf_refreshed; [| exact Hwf]. repeat split.
      - intros sh' shader'. simpl. rewrite Hsh. intros [= <-] Hl.
        rewrite Hshader in Hl. injection Hl as <-. exact Hlen. }
    simpl. intros _ s1 ev (-> & cb & ->). unfold getInstance. run.
    split; [repeat split |]. simpl.
    exists shader. repeat split; assumption.
  - run. split; [apply refreshed_refl | auto].
Qed.

End WellFormed.

(** C1: on a well-formed state [onBeforeReady] returns, and for every
    uniform [i] the shader declares, the material's entry [i] then has the
    shader's name hash; the table it starts from is arbitrary. *)
Theorem onBeforeReady_aligns `{Engine} (s : State) (sh : nat) (shader : Shader) :
  well_formed s = true ->
  m_shader (this s) = Some sh ->
  shaders s !! sh = Some shader ->
  exists s1 ev,
    onBeforeReady s = Some (tt, s1, ev) /\
    forall i su, sh_uniforms shader !! i = Some su ->
                 exists u, m_uniforms (this s1) !! i = Some u /\
                           name_hash u = su_name_hash su.
Proof.
  intros Hwf Hsh Hshader. apply well_formed_wf in Hwf.
  destruct (onBeforeReady_spec s Hwf) as ([] & s1 & ev & Hrun & _ & Hpost).
  exists s1, ev. split; [exact Hrun |].
  rewrite Hsh in Hpost. destruct Hpost as (shader' & Hl & Hal & _).
  rewrite Hshader in Hl. injection Hl as <-. exact Hal.
Qed.

(** * Loading: shaders *)

Section Shaders.
Context `{Engine}.

Lemma index_of_path_Some {A : Type} (f : A -> string) p (l : list A) : forall i,
  index_of_path f p l = Some i -> exists x, l !! i = Some x /\ f x = p.
Proof.
  induction l as [| x rest IH]; intros i; simpl; [discriminate |].
  destruct (String.eqb_spec (f x) p) as [Hp | Hp].
  - intros [= <-]. exists x. auto.
  - destruct (index_of_path f p rest) as [j |]; simpl; [| discriminate].
    intros [= <-]. apply IH. reflexivity.
Qed.

Lemma index_of_path_None {A : Type} (f : A -> string) p (l : list A) :
  index_of_path f p l = None -> forall i x, l !! i = Some x -> f x <> p.
Proof.
  induction l as [| y rest IH]; simpl; intros Hn i x Hl; [rewrite lookup_nil in Hl; discriminate |].
  destruct (String.eqb_spec (f y) p) as [Hp | Hp]; [discriminate |].
  destruct (index_of_path f p rest) as [j |]; simpl in Hn; [discriminate |].
  destruct i as [| i]; simpl in Hl; [injection Hl as <-; exact Hp | eapply IH; eauto].
Qed.

Lemma runs_update_shader (id : nat) f sh s (Q : unit -> State -> list Event -> Prop) :
  shaders s !! id = Some sh ->
  Q tt (set_shaders (<[id := f sh]> (shaders s)) s) [] ->
  runs (update_shader id f) s Q.
Proof.
  intros Hl HQ. exists tt, (set_shaders (<[id := f sh]> (shaders s)) s), [].
  split; [| exact HQ].
  unfold update_shader, shader_at, bind, gets, from_option, modify. rewrite Hl. reflexivity.
Qed.

(** Changing a shader's reference count changes nothing a material reads. *)
Lemma lookup_add_shader_ref (ss : list Shader) (id j : nat) d sh shj :
  ss !! id = Some sh ->
  (<[id := add_shader_ref d sh]> ss) !! j = Some shj ->
  exists sh0, ss !! j = Some sh0 /\ sh_texture_slots sh0 = sh_texture_slots shj.
Proof.
  intros Hid Hj. destruct (decide (id = j)) as [<- | Hne].
  - rewrite list_lookup_insert_eq in Hj by (eapply lookup_lt_Some, Hid).
    injection Hj as <-. exists sh. auto.
  - rewrite list_lookup_insert_ne in Hj by exact Hne. exists shj. auto.
Qed.

Lemma wf_add_shader_ref s id d sh :
  shaders s !! id = Some sh -> wf s ->
  wf (set_shaders (<[id := add_shader_ref d sh]> (shaders s)) s).
Proof.
  intros Hid [Hd Hs Hsl Hc Ht]. split; simpl; rewrite ?length_insert; try assumption.
  intros j shj Hj.
  destruct (lookup_add_shader_ref (shaders s) id j d sh shj Hid Hj) as (sh0 & Hj0 & <-).
  eauto.
Qed.

Lemma paths_add_shader_ref (ss : list Shader) (id : nat) d sh :
  ss !! id = Some sh -> sh_path <$> <[id := add_shader_ref d sh]> ss = sh_path <$> ss.
Proof.
  intros Hid. rewrite list_fmap_insert. simpl.
  apply list_insert_id. rewrite list_lookup_fmap, Hid. reflexivity.
Qed.

(** The shader manager hands out a shader of the store, with the path asked for. *)
Lemma shader_manager_load_spec p s :
  wf s ->
  runs (shader_manager_load p) s (fun id s1 ev =>
    wf s1 /\ this s1 = this s /\ textures s1 = textures s /\
    (exists sh, shaders s1 !! id = Some sh /\ sh_path sh = p) /\
    ev = [ManagerLoad (ShaderRes id)]).
Proof.
  intros Hwf. unfold shader_manager_load. run.
  destruct (index_of_path sh_path p (shaders s)) as [id |] eqn:Hfind.
  - apply index_of_path_Some in Hfind as (sh & Hid & Hp).
    run1. eapply runs_update_shader; [exact Hid |]. run.
    split; [apply wf_add_shader_ref; assumption |].
    repeat split; try reflexivity.
    exists (add_shader_ref 1 sh). simpl. split; [| exact Hp].
    apply list_lookup_insert_eq. eapply lookup_lt_Some, Hid.
  - run. split.
    + destruct Hwf as [Hd Hs Hsl Hc Ht]. split; simpl; rewrite ?length_app; simpl;
        try assumption; try lia.
      * intros sh Hsh. apply Hs in Hsh. lia.
      * intros j shj Hj. apply lookup_app_Some in Hj as [Hj | [_ Hj]]; [eauto |].
        apply list_lookup_singleton_Some in Hj as [_ <-]. simpl. lia.
    + repeat split; try reflexivity.
      exists (new_shader p). split; [| reflexivity].
      simpl. rewrite lookup_app_r by lia. rewrite Nat.sub_diag. reflexivity.
Qed.

(** setShader with a shader of the store: defined, and it touches neither
    the textures nor the members [kept]. *)
Lemma setShader_spec sh s :
  wf s -> (sh < length (shaders s))%nat ->
  runs (setShader (Some sh)) s (fun _ s1 ev =>
    wf s1 /\ kept s s1 /\ textures s1 = textures s /\
    sh_path <$> shaders s1 = sh_path <$> shaders s /\
    m_shader (this s1) = Some sh).
Proof.
  intros Hwf Hsh. unfold setShader. run1. run1. cbv beta. run1.
  (* releasing the previous shader *)
  set (release := match m_shader (this s) with Some o => _ | None => _ end).
  assert (Hrel : runs release s (fun _ s1 ev =>
            wf s1 /\ kept s s1 /\ textures s1 = textures s /\
            sh_path <$> shaders s1 = sh_path <$> shaders s /\
            length (shaders s1) = length (shaders s))).
  { subst release. destruct (m_shader (this s)) as [o |] eqn:Ho.
    - destruct (negb (o =? getDefaultShader)%nat).
      + destruct (lookup_lt_is_Some_2 (shaders s) o) as [old Hold]; [apply Hwf, Ho |].
        unfold removeDependency, shader_manager_unload. run.
        eapply runs_update_shader; [simpl; exact Hold |]. run. simpl.
        split; [| split; [repeat split | split; [reflexivity |]]].
        * pose proof (wf_add_shader_ref s o (-1) old Hold Hwf) as [Hd Hs Hsl Hc Ht].
          split; simpl in *; try assumption. discriminate.
        * split; [apply paths_add_shader_ref, Hold | apply length_insert].
      + run. split; [exact Hwf |]. repeat split.
    - run. split; [exact Hwf |]. repeat split. }
  eapply runs_mono; [exact Hrel |]. cbv beta.
  intros _ s1 ev1 (Hwf1 & Hk1 & Ht1 & Hp1 & Hlen1).
  unfold addDependency. run.
  destruct (lookup_lt_is_Some_2 (shaders s1) sh) as [sd Hsd]; [lia |].
  run_with Hsd.
  assert (Hwf2 : wf (set_this (set_m_shader (Some sh) (this s1)) s1)).
  { destruct Hwf1 as [Hd Hs Hsl Hc Ht]. split; simpl; try assumption.
    intros sh' [= <-]. lia. }
  assert (Hk2 : kept s (set_this (set_m_shader (Some sh) (this s1)) s1)).
  { eapply kept_trans; [exact Hk1 |]. repeat split. }
  destruct (sh_ready sd).
  - eapply runs_mono; [apply onBeforeReady_spec, Hwf2 |]. cbv beta.
    intros _ s2 ev2 (Href & _).
    split; [eapply wf_refreshed; eassumption |].
    destruct Href as (Ht2 & Hs2 & Hsh2 & Hk).
    split; [eapply kept_trans; eassumption |].
    rewrite Ht2, Hs2, Hsh2. simpl. auto.
  - run. auto.
Qed.

End Shaders.

(** * Loading: texture blocks *)

Section Textures.
Context `{Engine}.

Lemma textures_evolve_refl ts : textures_evolve ts ts.
Proof. split; [lia | eauto]. Qed.

Lemma textures_evolve_trans ts1 ts2 ts3 :
  textures_evolve ts1 ts2 -> textures_evolve ts2 ts3 -> textures_evolve ts1 ts3.
Proof.
  intros [Hl1 Hp1] [Hl2 Hp2]. split; [lia |].
  intros j t Hj. destruct (Hp1 j t Hj) as (t1 & Hj1 & Hq1).
  destruct (Hp2 j t1 Hj1) as (t2 & Hj2 & Hq2). exists t2. split; [exact Hj2 | congruence].
Qed.

Lemma textures_evolve_insert (ts : list Texture) (id : nat) t t1 :
  ts !! id = Some t -> tex_path t1 = tex_path t -> textures_evolve ts (<[id := t1]> ts).
Proof.
  intros Hid Hp. split; [rewrite length_insert; lia |].
  intros j tj Hj. destruct (decide (id = j)) as [<- | Hne].
  - exists t1. split; [apply list_lookup_insert_eq; eapply lookup_lt_Some, Hid |].
    congruence.
  - exists tj. split; [rewrite list_lookup_insert_ne by exact Hne; exact Hj | reflexivity].
Qed.

(** A state that differs in the texture store and the slots only. *)
Lemma wf_textures_step s s1 :
  wf s ->
  shaders s1 = shaders s -> m_shader (this s1) = m_shader (this s) ->
  length (m_textures (this s1)) = length (m_textures (this s)) ->
  (m_texture_count (this s1) <= length (m_textures (this s1)))%nat ->
  (forall i id, m_textures (this s1) !! i = Some (Some id) -> (id < length (textures s1))%nat) ->
  wf s1.
Proof.
  intros [Hd Hs Hsl Hc Ht] Hss Hsh Hlen Hcount Hvalid.
  rewrite Hlen in Hcount. split; rewrite ?Hss, ?Hsh, ?Hlen; assumption.
Qed.

(** A texture mutator: the store keeps its length and its paths. *)
Lemma runs_texture_mutator (id : nat) (f : Texture -> Texture) e t s
    (Q : unit -> State -> list Event -> Prop) :
  textures s !! id = Some t ->
  Q tt (set_textures (<[id := f t]> (textures s)) s) [e] ->
  runs (update_texture id f >> emit e) s Q.
Proof.
  intros Hid HQ. run1. run_with Hid. run. exact HQ.
Qed.

(** The texture manager hands out a texture of the store, with the path
    asked for; the material is not touched. *)
Lemma texture_manager_load_spec p s :
  runs (texture_manager_load p) s (fun id s1 ev =>
    this s1 = this s /\ shaders s1 = shaders s /\
    textures_evolve (textures s) (textures s1) /\
    (exists t, textures s1 !! id = Some t /\ tex_path t = p) /\
    ev = [ManagerLoad (TextureRes id)]).
Proof.
  unfold texture_manager_load. run.
  destruct (index_of_path tex_path p (textures s)) as [id |] eqn:Hfind.
  - apply index_of_path_Some in Hfind as (t & Hid & Hp).
    run1. run_with Hid. run. simpl. repeat split; try reflexivity.
    + rewrite length_insert. lia.
    + intros j tj Hj. eapply textures_evolve_insert; eauto.
    + exists (add_texture_ref 1 t). split; [| exact Hp].
      apply list_lookup_insert_eq. eapply lookup_lt_Some, Hid.
  - run. simpl. repeat split; try reflexivity.
    + rewrite length_app. lia.
    + intros j tj Hj. exists tj. split; [apply lookup_app_l_Some, Hj | reflexivity].
    + exists (new_texture p). split; [| reflexivity].
      rewrite lookup_app_r by lia. rewrite Nat.sub_diag. reflexivity.
Qed.

Lemma set_m_textures_id (m : Material) : m = set_m_textures (m_textures m) m.
Proof. destruct m. reflexivity. Qed.

Lemma slot_step_refl s : slot_step s s.
Proof.
  split; [reflexivity |]. split; [apply set_m_textures_id |].
  split; [reflexivity |]. split; [reflexivity | apply textures_evolve_refl].
Qed.

Lemma slot_step_count s s1 :
  slot_step s s1 -> m_texture_count (this s1) = m_texture_count (this s).
Proof. intros (_ & -> & _). reflexivity. Qed.

Lemma slot_step_trans s1 s2 s3 : slot_step s1 s2 -> slot_step s2 s3 -> slot_step s1 s3.
Proof.
  intros Ha Hb. pose proof (slot_step_count _ _ Ha) as Hc.
  destruct Ha as (Hs1 & Ht1 & Hl1 & Hk1 & He1), Hb as (Hs2 & Ht2 & Hl2 & Hk2 & He2).
  split; [congruence |]. split; [rewrite Ht2, Ht1; reflexivity |].
  split; [congruence |]. split; [| eapply textures_evolve_trans; eassumption].
  intros k Hk. rewrite Hk2 by congruence. apply Hk1, Hk.
Qed.

Lemma wf_slot_step s s1 :
  wf s -> slot_step s s1 ->
  (forall id, m_textures (this s1) !! m_texture_count (this s) = Some (Some id) ->
              (id < length (textures s1))%nat) ->
  wf s1.
Proof.
  intros Hwf Hstep Hslot. pose proof (slot_step_count _ _ Hstep) as Hc.
  destruct Hstep as (Hs & Ht & Hl & Hk & [Hlen Hev]).
  apply (wf_textures_step s); try assumption.
  - rewrite Ht. reflexivity.
  - rewrite Hc, Hl. apply Hwf.
  - intros i id Hi. destruct (decide (i = m_texture_count (this s))) as [-> | Hne].
    + apply Hslot, Hi.
    + rewrite Hk in Hi by exact Hne. apply (wf_textures s Hwf) in Hi. lia.
Qed.

Lemma set_current_slot_spec texture s :
  (m_texture_count (this s) < length (m_textures (this s)))%nat ->
  runs (set_current_slot texture) s (fun _ s1 ev =>
    s1 = set_this (set_m_textures (<[m_texture_count (this s) := texture]>
                                      (m_textures (this s))) (this s)) s /\
    ev = []).
Proof.
  intros Hlt. unfold set_current_slot. run.
  apply Nat.ltb_lt in Hlt. unfold id. rewrite Hlt. run. auto.
Qed.

(** One member of a texture block. *)
Lemma deserializeTexture_entry_spec dir label v b s :
  wf s -> (m_texture_count (this s) < length (m_textures (this s)))%nat ->
  runs (deserializeTexture_entry dir label v b) s (fun r s1 ev =>
    wf s1 /\ slot_step s s1 /\ bool_decide (is_Some r) = known_texture_key label).
Proof.
  intros Hwf Hlt. unfold deserializeTexture_entry, known_texture_key, compareString.
  cbn [existsb].
  destruct (String.eqb label "source") eqn:E1.
  { cbn [orb].
    destruct (negb (is_empty_string (read_string MAX_PATH_LENGTH v ""))).
    - run1. eapply runs_mono; [apply texture_manager_load_spec |]. cbv beta.
      intros id s1 ev1 (Hthis & Hsh & Hev & (t & Hid & Hp) & ->).
      run1. eapply runs_mono; [apply set_current_slot_spec; rewrite Hthis; exact Hlt |].
      cbv beta. intros _ s2 ev2 (-> & ->). unfold addDependency. run.
      assert (Hstep : slot_step s (set_this (set_m_textures
                 (<[m_texture_count (this s1) := Some id]> (m_textures (this s1)))
                 (this s1)) s1)).
      { rewrite Hthis. split; [exact Hsh |]. split; [reflexivity |]. simpl.
        split; [apply length_insert |]. split; [| exact Hev].
        intros k Hk. apply list_lookup_insert_ne. congruence. }
      split; [| split; [exact Hstep | reflexivity]].
      eapply wf_slot_step; [exact Hwf | exact Hstep |].
      simpl. rewrite Hthis. rewrite list_lookup_insert_eq by exact Hlt.
      intros id' [= <-]. eapply lookup_lt_Some, Hid.
    - run. split; [exact Hwf |]. split; [apply slot_step_refl | reflexivity]. }
  cbn [orb].
  repeat match goal with
  | |- runs (if String.eqb label ?k then _ else _) _ _ =>
      let E := fresh "E" in
      destruct (String.eqb label k) eqn:E;
      [ cbn [orb];
        repeat match goal with
        | |- runs (if ?c then _ else _) _ _ => destruct c
        end;
        run; (split; [exact Hwf |]); (split; [apply slot_step_refl | reflexivity])
      | cbn [orb] ]
  end.
  run. split; [exact Hwf |]. split; [apply slot_step_refl | reflexivity].
Qed.

(** The members of a texture block, in order. *)
Lemma deserializeTexture_entries_spec dir entries : forall b s,
  wf s -> (m_texture_count (this s) < length (m_textures (this s)))%nat ->
  runs (deserializeTexture_entries dir entries b) s (fun r s1 ev =>
    wf s1 /\ slot_step s s1 /\
    bool_decide (is_Some r) = forallb (fun e => known_texture_key (fst e)) entries).
Proof.
  induction entries as [| [label v] rest IH]; intros b s Hwf Hlt; simpl.
  - run. split; [exact Hwf |]. split; [apply slot_step_refl | reflexivity].
  - run1. eapply runs_mono; [apply deserializeTexture_entry_spec; assumption |].
    cbv beta. intros r s1 ev1 (Hwf1 & Hstep1 & Hr).
    destruct r as [b1 |]; simpl in Hr; rewrite <- Hr.
    + eapply runs_mono; [apply IH; [exact Hwf1 |] |].
      { rewrite (slot_step_count _ _ Hstep1).
        destruct Hstep1 as (_ & _ & -> & _). exact Hlt. }
      cbv beta. intros r s2 ev2 (Hwf2 & Hstep2 & Hr2).
      split; [exact Hwf2 |]. split; [eapply slot_step_trans; eassumption | exact Hr2].
    + run. split; [exact Hwf1 |]. split; [exact Hstep1 | reflexivity].
Qed.

(** What deserializeTexture does to the texture its slot holds. *)
Lemma texture_settings_spec (id : nat) (b : TextureBlock) t s :
  textures s !! id = Some t ->
  runs (Texture_setAtlasSize id (atlas_size b) >>
        Texture_setFlags id (flags b) >>
        (if keep_data b then Texture_addDataReference id else ret tt)) s
    (fun _ s1 ev =>
       this s1 = this s /\ shaders s1 = shaders s /\
       textures_evolve (textures s) (textures s1) /\
       length (textures s1) = length (textures s) /\
       exists t1, textures s1 = <[id := t1]> (textures s) /\
                  tex_path t1 = tex_path t /\ tex_flags t1 = flags b /\
                  tex_atlas_size t1 = atlas_size b).
Proof.
  intros Hid. pose proof (lookup_lt_Some _ _ _ Hid) as Hlt.
  unfold Texture_setAtlasSize, Texture_setFlags, Texture_addDataReference.
  run1. run1. run_with Hid. run.
  eapply runs_update_texture.
  { simpl. apply list_lookup_insert_eq. exact Hlt. }
  cbn [textures set_textures]. rewrite list_insert_insert_eq. run.
  destruct (keep_data b).
  - run1. eapply runs_update_texture.
    { simpl. apply list_lookup_insert_eq. exact Hlt. }
    cbn [textures set_textures]. rewrite list_insert_insert_eq. run. simpl.
    split; [reflexivity |]. split; [reflexivity |].
    split; [eapply textures_evolve_insert; [exact Hid | reflexivity] |].
    split; [apply length_insert |]. eexists. split; [reflexivity |]. simpl. auto.
  - run. simpl.
    split; [reflexivity |]. split; [reflexivity |].
    split; [eapply textures_evolve_insert; [exact Hid | reflexivity] |].
    split; [apply length_insert |]. eexists. split; [reflexivity |]. simpl. auto.
Qed.

(** A texture block: it takes the next slot, or fails on an unknown member. *)
Lemma deserializeTexture_spec v dir s :
  wf s -> (m_texture_count (this s) < length (m_textures (this s)))%nat ->
  runs (deserializeTexture v dir) s (fun ok s1 ev =>
    wf s1 /\ ok = texture_block_ok v /\
    slot_step s (set_this (set_m_texture_count (m_texture_count (this s)) (this s1)) s1) /\
    m_texture_count (this s1) =
      (if ok then S (m_texture_count (this s)) else m_texture_count (this s))).
Proof.
  intros Hwf Hlt. unfold deserializeTexture, texture_block_ok. run1.
  eapply runs_mono; [apply deserializeTexture_entries_spec; assumption |]. cbv beta.
  intros r s1 ev1 (Hwf1 & Hstep & Hr).
  pose proof (slot_step_count _ _ Hstep) as Hc.
  assert (Hreset : forall s2, this s2 = this s1 ->
            set_m_texture_count (m_texture_count (this s)) (this s2) = this s1).
  { intros s2 ->. rewrite <- Hc. destruct (this s1). reflexivity. }
  destruct r as [b |]; simpl in Hr; rewrite <- Hr.
  - run.
    destruct (lookup_lt_is_Some_2 (m_textures (this s1)) (m_texture_count (this s1)))
      as [t Ht].
    { rewrite Hc. destruct Hstep as (_ & _ & -> & _). exact Hlt. }
    run_with Ht. run1.
    assert (Hset : runs
      match t with
      | Some texture =>
          Texture_setAtlasSize texture (atlas_size b) >>
          Texture_setFlags texture (flags b) >>
          (if keep_data b then Texture_addDataReference texture else ret tt)
      | None => ret tt
      end s1
      (fun _ s2 ev => this s2 = this s1 /\ shaders s2 = shaders s1 /\
                      textures_evolve (textures s1) (textures s2))).
    { destruct t as [texture |].
      - destruct (lookup_lt_is_Some_2 (textures s1) texture) as [tx Htx];
          [eapply (wf_textures s1 Hwf1), Ht |].
        eapply runs_mono; [apply (texture_settings_spec texture b tx), Htx |].
        cbv beta. intros _ s2 ev (? & ? & ? & _). auto.
      - run. split; [reflexivity |]. split; [reflexivity | apply textures_evolve_refl]. }
    eapply runs_mono; [exact Hset |]. cbv beta.
    intros _ s2 ev2 (Hthis2 & Hsh2 & Hev2). run. simpl.
    assert (Hstep2 : slot_step s (set_this (this s1) s2)).
    { destruct Hstep as (Hs1 & Ht1 & Hl1 & Hk1 & He1).
      split; [simpl; congruence |]. split; [exact Ht1 |].
      split; [exact Hl1 |]. split; [exact Hk1 |].
      simpl. eapply textures_evolve_trans; eassumption. }
    rewrite Hthis2, Hc.
    replace (set_m_texture_count (m_texture_count (this s))
               (set_m_texture_count (S (m_texture_count (this s))) (this s1)))
      with (this s1) by (rewrite <- Hc; destruct (this s1); reflexivity).
    split; [| split; [reflexivity | split; [| reflexivity]]].
    + eapply (wf_textures_step s1); try assumption; simpl; try reflexivity.
      * destruct Hstep as (_ & _ & -> & _). lia.
      * intros i id Hi. apply (wf_textures s1 Hwf1) in Hi.
        destruct Hev2 as [Hlen _]. lia.
    + replace (set_this (this s1)
                 (set_this (set_m_texture_count (S (m_texture_count (this s))) (this s1)) s2))
        with (set_this (this s1) s2) by reflexivity.
      exact Hstep2.
  - run. split; [exact Hwf1 |]. split; [reflexivity |]. split; [| exact Hc].
    rewrite (Hreset s1 eq_refl). destruct s1. exact Hstep.
Qed.

End Textures.

(** * Loading: defines and uniforms *)

Section Arrays.
Context `{Engine}.

Lemma deserializeDefines_eq v s :
  deserializeDefines v s =
  Some (tt, set_this (set_m_define_mask (parsed_defines v) (this s)) s, []).
Proof.
  unfold deserializeDefines, parsed_defines.
  assert (Hloop : forall items i mask s0,
    m_define_mask (this s0) = mask ->
    for_each i items (fun _ item =>
      update (fun m => set_m_define_mask
        (Z.lor (m_define_mask m)
           (define_bit (getShaderDefineIdx (read_string 32 item "")))) m)) s0 =
    Some (tt,
          set_this (set_m_define_mask
            (foldl (fun mask item =>
               Z.lor mask (define_bit (getShaderDefineIdx (read_string 32 item ""))))
               mask items) (this s0)) s0, [])).
  { induction items as [| item rest IH]; intros i mask s0 Hm; simpl.
    - unfold ret. rewrite <- Hm. destruct s0 as [ts ss m]. destruct m. reflexivity.
    - unfold bind, update, modify at 1. unfold modify at 1.
      erewrite IH; [| simpl; rewrite Hm; reflexivity]. reflexivity. }
  unfold bind at 1. unfold update at 1. unfold modify at 1.
  erewrite Hloop; [| reflexivity]. reflexivity.
Qed.

Lemma deserializeUniforms_eq v s :
  deserializeUniforms v s =
  Some (tt, set_this (set_m_uniforms (parsed_uniforms v) (this s)) s, uniforms_log v).
Proof.
  unfold deserializeUniforms, parsed_uniforms, uniforms_log.
  assert (Hloop : forall items i us s0,
    m_uniforms (this s0) = us ->
    for_each i items (fun _ item =>
      let '(uniform, log) := deserializeUniform_entries (object_entries item) fresh_uniform in
      emit_all log >>
      update (fun m => set_m_uniforms (m_uniforms m ++ [uniform]) m)) s0 =
    Some (tt,
          set_this (set_m_uniforms
            (us ++ ((fun item => fst (deserializeUniform_entries (object_entries item)
                                        fresh_uniform)) <$> items)) (this s0)) s0,
          concat ((fun item => snd (deserializeUniform_entries (object_entries item)
                                      fresh_uniform)) <$> items))).
  { induction items as [| item rest IH]; intros i us s0 Hm; simpl.
    - unfold ret. rewrite app_nil_r, <- Hm. destruct s0 as [ts ss m]. destruct m.
      reflexivity.
    - destruct (deserializeUniform_entries (object_entries item) fresh_uniform)
        as [uniform log] eqn:Hu.
      unfold bind at 1. unfold bind at 1. unfold emit_all at 1.
      unfold update at 1. unfold modify at 1.
      erewrite IH; [| simpl; rewrite Hm; reflexivity].
      simpl. rewrite <- app_assoc, app_nil_r. reflexivity. }
  unfold bind at 1. unfold update at 1. unfold modify at 1.
  erewrite Hloop; [| reflexivity]. reflexivity.
Qed.

End Arrays.

(** * Loading: the document *)

Section Load.
Context `{Engine}.

Lemma runs_of_eq {A : Type} (m : Eff A) s a s1 ev (Q : A -> State -> list Event -> Prop) :
  m s = Some (a, s1, ev) -> Q a s1 ev -> runs m s Q.
Proof. intros Heq HQ. exists a, s1, ev. auto. Qed.

(** One member of the document. *)
Lemma load_entry_spec dir label v s :
  wf s -> is_Some (m_shader (this s)) ->
  (is_texture_member (label, v) = true ->
   (m_texture_count (this s) < length (m_textures (this s)))%nat) ->
  runs (load_entry dir label v) s (fun ok s1 ev =>
    wf s1 /\ is_Some (m_shader (this s1)) /\
    m_path (this s1) = m_path (this s) /\
    length (m_textures (this s1)) = length (m_textures (this s)) /\
    textures_evolve (textures s) (textures s1) /\
    ok = negb (is_texture_member (label, v) && negb (texture_block_ok v)) /\
    m_texture_count (this s1) =
      (if is_texture_member (label, v) && ok then S (m_texture_count (this s))
       else m_texture_count (this s)) /\
    m_alpha_ref (this s1) =
      (if String.eqb label "alpha_ref" then read_float v DEFAULT_ALPHA_REF_VALUE
       else m_alpha_ref (this s)) /\
    (String.eqb label "shader" = false -> m_shader (this s1) = m_shader (this s))).
Proof.
  intros Hwf Hsh Hcap. unfold load_entry, compareString, is_texture_member in *.
  simpl fst in *.
  assert (Hsame : forall f : Material -> Material,
    m_shader (f (this s)) = m_shader (this s) ->
    m_textures (f (this s)) = m_textures (this s) ->
    m_texture_count (f (this s)) = m_texture_count (this s) ->
    wf (set_this (f (this s)) s)).
  { intros f H1 H2 H3. apply (wf_textures_step s); simpl; try assumption; try reflexivity.
    - rewrite H2. reflexivity.
    - rewrite H2, H3. apply Hwf.
    - rewrite H2. apply Hwf. }
  destruct (String.eqb_spec label "defines") as [-> | N1].
  { run1. eapply runs_of_eq; [apply deserializeDefines_eq |]. run.
    split; [apply Hsame; reflexivity |]. simpl.
    repeat split; try assumption; try reflexivity; try lia; eauto. }
  destruct (String.eqb_spec label "uniforms") as [-> | N2].
  { run1. eapply runs_of_eq; [apply deserializeUniforms_eq |]. run.
    split; [apply Hsame; reflexivity |]. simpl.
    repeat split; try assumption; try reflexivity; try lia; eauto. }
  destruct (String.eqb_spec label "texture") as [-> | N3].
  { eapply runs_mono; [apply deserializeTexture_spec; [exact Hwf | apply Hcap; reflexivity] |].
    cbv beta. intros ok s1 ev (Hwf1 & -> & Hstep & Hcount).
    destruct Hstep as (Hs1 & Ht1 & Hl1 & Hk1 & He1). simpl in *.
    assert (Hm : this s1 = set_m_texture_count (m_texture_count (this s1))
                             (set_m_textures (m_textures (this s1)) (this s))).
    { rewrite <- Ht1. destruct (this s1). reflexivity. }
    split; [exact Hwf1 |].
    split; [rewrite Hm; exact Hsh |].
    split; [rewrite Hm; reflexivity |].
    split; [exact Hl1 |]. split; [exact He1 |].
    split; [destruct (texture_block_ok v); reflexivity |].
    split; [rewrite Hcount; destruct (texture_block_ok v); reflexivity |].
    rewrite Hm. split; reflexivity. }
  destruct (String.eqb_spec label "alpha_ref") as [-> | N4].
  { run. split; [apply Hsame; reflexivity |]. simpl.
    repeat split; try assumption; try reflexivity; try lia; eauto. }
  destruct (String.eqb_spec label "layer_count") as [-> | N5].
  { run. split; [apply Hsame; reflexivity |]. simpl.
    repeat split; try assumption; try reflexivity; try lia; eauto. }
  destruct (String.eqb_spec label "color") as [-> | N6].
  { run. split; [apply Hsame; reflexivity |]. simpl.
    repeat split; try assumption; try reflexivity; try lia; eauto. }
  destruct (String.eqb_spec label "shininess") as [-> | N7].
  { run. split; [apply Hsame; reflexivity |]. simpl.
    repeat split; try assumption; try reflexivity; try lia; eauto. }
  destruct (String.eqb_spec label "shader") as [-> | N8].
  { run1. eapply runs_mono; [apply shader_manager_load_spec, Hwf |]. cbv beta.
    intros id s1 ev1 (Hwf1 & Hthis & Htex & (sh & Hid & _) & _).
    run1. eapply runs_mono;
      [apply setShader_spec; [exact Hwf1 | eapply lookup_lt_Some, Hid] |].
    cbv beta. intros _ s2 ev2 (Hwf2 & Hk & Htex2 & _ & Hsh2). run.
    destruct Hk as (Hp & _ & _ & Htx & Hc & _ & _ & Ha & _).
    rewrite Hthis in *.
    split; [exact Hwf2 |]. split; [rewrite Hsh2; eauto |].
    split; [exact Hp |]. split; [rewrite Htx; reflexivity |].
    split; [rewrite Htex2, Htex; apply textures_evolve_refl |].
    split; [reflexivity |]. split; [exact Hc |]. split; [exact Ha | discriminate]. }
  run. simpl. repeat split; try apply Hwf; try assumption; try reflexivity; try lia; eauto.
Qed.

Lemma texture_blocks_cons e entries :
  texture_blocks (e :: entries) =
  ((if is_texture_member e then 1 else 0) + texture_blocks entries)%nat.
Proof. unfold texture_blocks. simpl. destruct (is_texture_member e); reflexivity. Qed.

(** The members of the document, in order, up to the first bad texture block. *)
Lemma load_entries_spec dir entries : forall s,
  wf s -> is_Some (m_shader (this s)) ->
  (m_texture_count (this s) + texture_blocks entries <= length (m_textures (this s)))%nat ->
  runs (load_entries dir entries) s (fun ok s1 ev =>
    wf s1 /\ is_Some (m_shader (this s1)) /\
    m_path (this s1) = m_path (this s) /\
    length (m_textures (this s1)) = length (m_textures (this s)) /\
    textures_evolve (textures s) (textures s1) /\
    ok = negb (has_bad_texture_block entries) /\
    (ok = true ->
     m_texture_count (this s1) = (m_texture_count (this s) + texture_blocks entries)%nat /\
     m_alpha_ref (this s1) = doc_alpha_ref entries (m_alpha_ref (this s))) /\
    (has_member "shader" entries = false -> m_shader (this s1) = m_shader (this s))).
Proof.
  induction entries as [| [label v] rest IH]; intros s Hwf Hsh Hcap; cbn [load_entries].
  - run. repeat split; try apply Hwf; try assumption; try reflexivity.
    + apply textures_evolve_refl.
    + unfold texture_blocks. simpl. lia.
  - rewrite texture_blocks_cons in Hcap.
    assert (Hhb : has_bad_texture_block ((label, v) :: rest) =
                  (is_texture_member (label, v) && negb (texture_block_ok v))
                  || has_bad_texture_block rest) by reflexivity.
    assert (Hda : forall a, doc_alpha_ref ((label, v) :: rest) a =
                  doc_alpha_ref rest (if String.eqb label "alpha_ref"
                                      then read_float v DEFAULT_ALPHA_REF_VALUE else a))
      by reflexivity.
    assert (Hhm : has_member "shader" ((label, v) :: rest) =
                  String.eqb label "shader" || has_member "shader" rest) by reflexivity.
    run1.
    eapply runs_mono; [apply load_entry_spec; [exact Hwf | exact Hsh |] |].
    { intros Ht. rewrite Ht in Hcap. lia. }
    cbv beta. intros ok s1 ev1 (Hwf1 & Hsh1 & Hp1 & Hl1 & He1 & -> & Hc1 & Ha1 & Hm1).
    destruct (is_texture_member (label, v) && negb (texture_block_ok v)) eqn:Hbad;
      cbn [negb] in *.
    + run. rewrite Hhb, Hhm. cbn [orb negb].
      split; [exact Hwf1 |]. split; [exact Hsh1 |]. split; [exact Hp1 |].
      split; [exact Hl1 |]. split; [exact He1 |]. split; [reflexivity |].
      split; [discriminate |].
      intros [Hn _]%orb_false_iff. auto.
    + replace (is_texture_member (label, v) && true) with (is_texture_member (label, v))
        in Hc1 by (destruct (is_texture_member (label, v)); reflexivity).
      eapply runs_mono; [apply IH; [exact Hwf1 | exact Hsh1 |] |].
      { rewrite Hl1, Hc1. destruct (is_texture_member (label, v)); lia. }
      cbv beta. intros ok s2 ev2 (Hwf2 & Hsh2 & Hp2 & Hl2 & He2 & -> & Hok & Hm2).
      rewrite Hhb, Hhm, Hda. cbn [orb].
      split; [exact Hwf2 |]. split; [exact Hsh2 |]. split; [congruence |].
      split; [congruence |]. split; [eapply textures_evolve_trans; eassumption |].
      split; [reflexivity |]. split.
      * intros Hgood. destruct (Hok Hgood) as [Hc2 Ha2].
        rewrite texture_blocks_cons. split.
        -- rewrite Hc2, Hc1. destruct (is_texture_member (label, v)); lia.
        -- rewrite Ha2, Ha1. reflexivity.
      * intros [Hn Hr]%orb_false_iff. rewrite Hm2, Hm1 by assumption. reflexivity.
Qed.

(** load: it returns false exactly when the document has a texture block
    with an unknown member; a material always has a shader, the default one
    if nothing else, so the final check for a missing shader never fires. *)
Lemma load_spec file size s :
  wf s -> is_Some (m_shader (this s)) ->
  (m_texture_count (this s) + texture_blocks (object_entries file)
   <= length (m_textures (this s)))%nat ->
  runs (load file size) s (fun ok s1 ev =>
    wf s1 /\ is_Some (m_shader (this s1)) /\
    textures_evolve (textures s) (textures s1) /\
    ok = negb (has_bad_texture_block (object_entries file)) /\
    (ok = true ->
     m_texture_count (this s1) =
       (m_texture_count (this s) + texture_blocks (object_entries file))%nat /\
     m_alpha_ref (this s1) = doc_alpha_ref (object_entries file) DEFAULT_ALPHA_REF_VALUE) /\
    (has_member "shader" (object_entries file) = false ->
     m_shader (this s1) = m_shader (this s))).
Proof.
  intros Hwf Hsh Hcap. unfold load, setAlphaRef. run.
  eapply runs_mono; [apply load_entries_spec |].
  - apply (wf_textures_step s); simpl; try assumption; try reflexivity; apply Hwf.
  - exact Hsh.
  - exact Hcap.
  - cbv beta. simpl. intros ok s1 ev1 (Hwf1 & [sh Hsh1] & Hp1 & Hl1 & He1 & -> & Hok & Hm).
    destruct (has_bad_texture_block (object_entries file)); simpl.
    + run. split; [exact Hwf1 |]. split; [eauto |]. split; [exact He1 |].
      split; [reflexivity |]. split; [discriminate | exact Hm].
    + run. simpl. rewrite Hsh1. run. simpl.
      split; [apply (wf_textures_step s1); simpl; try assumption; try reflexivity; apply Hwf1 |].
      split; [rewrite Hsh1; eauto |]. split; [exact He1 |]. split; [reflexivity |].
      split; [intros _; exact (Hok eq_refl) |].
      intros Hx. apply Hm in Hx. simpl. congruence.
Qed.

End Load.

(** * Loading: what a document can and cannot make load do *)

Section LoadClaims.
Context `{Engine}.

Lemma loadable_spec s file :
  loadable s file = true ->
  wf s /\ is_Some (m_shader (this s)) /\
  (m_texture_count (this s) + texture_blocks (object_entries file)
   <= length (m_textures (this s)))%nat.
Proof.
  unfold loadable. rewrite !andb_true_iff, bool_decide_eq_true, Nat.leb_le.
  intros [[Hwf Hsh] Hcap]. apply well_formed_wf in Hwf. auto.
Qed.

Lemma load_entries_app dir a b : forall s,
  load_entries dir (a ++ b) s =
  match load_entries dir a s with
  | Some (true, s1, ev1) =>
      match load_entries dir b s1 with
      | Some (ok, s2, ev2) => Some (ok, s2, ev1 ++ ev2)
      | None => None
      end
  | Some (false, s1, ev1) => Some (false, s1, ev1)
  | None => None
  end.
Proof.
  induction a as [| [label v] rest IH]; intros s.
  - simpl. destruct (load_entries dir b s) as [[[ok s2] ev2] |]; reflexivity.
  - cbn [app load_entries]. unfold bind.
    destruct (load_entry dir label v s) as [[[ok s1] ev1] |]; [| reflexivity].
    destruct ok.
    + rewrite IH. destruct (load_entries dir rest s1) as [[[ok2 s2] ev2] |]; [| reflexivity].
      destruct ok2; [| reflexivity].
      destruct (load_entries dir b s2) as [[[ok3 s3] ev3] |]; [| reflexivity].
      rewrite app_assoc. reflexivity.
    + reflexivity.
Qed.

Lemma load_entry_unknown dir label v s :
  known_key label = false ->
  load_entry dir label v s = Some (true, s, [LogWarning label]).
Proof.
  unfold known_key. cbn [existsb]. rewrite !orb_false_iff.
  intros (E1 & E2 & E3 & E4 & E5 & E6 & E7 & E8 & _).
  unfold load_entry, compareString. rewrite E1, E2, E3, E4, E5, E6, E7, E8.
  reflexivity.
Qed.

(** An unknown member changes neither the result nor the state of the
    loop; if the loop gets to it, it logs one warning. *)
Lemma load_entries_insert dir pre post label v s ok s1 ev :
  known_key label = false ->
  load_entries dir (pre ++ post) s = Some (ok, s1, ev) ->
  exists ev1, load_entries dir (pre ++ (label, v) :: post) s = Some (ok, s1, ev1) /\
              (ok = true -> LogWarning label ∈ ev1).
Proof.
  intros Hk. rewrite !load_entries_app.
  destruct (load_entries dir pre s) as [[[ok0 s0] ev0] |]; [| discriminate].
  destruct ok0.
  - cbn [load_entries]. unfold bind. rewrite (load_entry_unknown dir label v s0 Hk).
    destruct (load_entries dir post s0) as [[[ok2 s2] ev2] |]; [| discriminate].
    intros [= <- <- <-]. eexists. split; [reflexivity |].
    intros _. apply elem_of_app. right. simpl. left.
  - intros [= <- <- <-]. eexists. split; [reflexivity | discriminate].
Qed.

Lemma deserializeTexture_entries_app dir a b : forall blk s,
  deserializeTexture_entries dir (a ++ b) blk s =
  match deserializeTexture_entries dir a blk s with
  | Some (Some blk1, s1, ev1) =>
      match deserializeTexture_entries dir b blk1 s1 with
      | Some (r, s2, ev2) => Some (r, s2, ev1 ++ ev2)
      | None => None
      end
  | Some (None, s1, ev1) => Some (None, s1, ev1)
  | None => None
  end.
Proof.
  induction a as [| [label v] rest IH]; intros blk s.
  - simpl. destruct (deserializeTexture_entries dir b blk s) as [[[r s2] ev2] |]; reflexivity.
  - cbn [app deserializeTexture_entries]. unfold bind.
    destruct (deserializeTexture_entry dir label v blk s) as [[[r s1] ev1] |]; [| reflexivity].
    destruct r as [blk1 |].
    + rewrite IH.
      destruct (deserializeTexture_entries dir rest blk1 s1) as [[[r2 s2] ev2] |];
        [| reflexivity].
      destruct r2 as [blk2 |]; [| reflexivity].
      destruct (deserializeTexture_entries dir b blk2 s2) as [[[r3 s3] ev3] |]; [| reflexivity].
      rewrite app_assoc. reflexivity.
    + simpl. rewrite app_nil_r. reflexivity.
Qed.

Lemma deserializeTexture_entry_unknown dir label v blk s :
  known_texture_key label = false ->
  deserializeTexture_entry dir label v blk s = Some (None, s, [LogWarning label]).
Proof.
  unfold known_texture_key. cbn [existsb]. rewrite !orb_false_iff.
  intros (E1 & E2 & E3 & E4 & E5 & E6 & E7 & E8 & E9 & _).
  unfold deserializeTexture_entry, compareString.
  rewrite E1, E2, E3, E4, E5, E6, E7, E8, E9. reflexivity.
Qed.

(** An unknown member of the document only logs a warning; the loop goes on. *)
Lemma load_entries_unknown dir label v post s :
  known_key label = false ->
  load_entries dir ((label, v) :: post) s =
  match load_entries dir post s with
  | Some (ok, s1, ev) => Some (ok, s1, LogWarning label :: ev)
  | None => None
  end.
Proof.
  intros Hk. cbn [load_entries]. unfold bind.
  rewrite (load_entry_unknown dir label v s Hk).
  destruct (load_entries dir post s) as [[[ok s1] ev] |]; reflexivity.
Qed.

(** A texture block with an unknown member ends the loop, whatever follows. *)
Lemma load_entries_bad_block dir bpre label v bpost post s :
  wf s -> (m_texture_count (this s) < length (m_textures (this s)))%nat ->
  forallb (fun e => known_texture_key (fst e)) bpre = true ->
  known_texture_key label = false ->
  exists s1 ev,
    load_entries dir (("texture", JObject (bpre ++ (label, v) :: bpost)) :: post) s
    = Some (false, s1, ev ++ [LogWarning label]) /\
    deserializeTexture_entries dir bpre {| keep_data := false; flags := 0; atlas_size := -1 |} s
    = Some (Some (default {| keep_data := false; flags := 0; atlas_size := -1 |}
                    (result (deserializeTexture_entries dir bpre
                               {| keep_data := false; flags := 0; atlas_size := -1 |}) s
                     ≫= id)), s1, ev).
Proof.
  intros Hwf Hlt Hpre Hlabel.
  destruct (deserializeTexture_entries_spec dir bpre
              {| keep_data := false; flags := 0; atlas_size := -1 |} s Hwf Hlt)
    as (r & s1 & ev1 & Hrun1 & _ & _ & Hr).
  rewrite Hpre in Hr. destruct r as [blk |]; [| discriminate].
  exists s1, ev1. split.
  - cbn [load_entries]. unfold bind at 1.
    change (load_entry dir "texture" (JObject (bpre ++ (label, v) :: bpost)))
      with (deserializeTexture (JObject (bpre ++ (label, v) :: bpost)) dir).
    unfold deserializeTexture. cbn [object_entries]. unfold bind at 1.
    rewrite deserializeTexture_entries_app, Hrun1. cbn [deserializeTexture_entries].
    unfold bind at 1. rewrite (deserializeTexture_entry_unknown dir label v blk s1 Hlabel).
    unfold ret. rewrite !app_nil_r. reflexivity.
  - unfold result. rewrite Hrun1. reflexivity.
Qed.

(** The state the loop of load starts from. *)
Lemma load_start s :
  wf s -> is_Some (m_shader (this s)) ->
  let s0 := after (update (set_m_render_states 0) >>
                   setAlphaRef DEFAULT_ALPHA_REF_VALUE >>
                   update (set_m_uniforms [])) s in
  wf s0 /\ is_Some (m_shader (this s0)) /\
  m_texture_count (this s0) = m_texture_count (this s) /\
  m_textures (this s0) = m_textures (this s).
Proof.
  intros Hwf Hsh. cbv zeta.
  unfold after, setAlphaRef, bind, update, modify, ret. simpl.
  split; [| auto].
  apply (wf_textures_step s); simpl; try assumption; try reflexivity; apply Hwf.
Qed.

(** load, with its loop singled out. *)
Lemma load_unfold file size s :
  load file size s =
  match load_entries (PathUtils_getDir (m_path (this s))) (object_entries file)
          (after (update (set_m_render_states 0) >>
                  setAlphaRef DEFAULT_ALPHA_REF_VALUE >>
                  update (set_m_uniforms [])) s) with
  | Some (true, s1, ev) =>
      match m_shader (this s1) with
      | None => Some (false, s1, ev ++ [LogError "without a shader"])
      | Some _ => Some (true, set_this (set_m_size size (this s1)) s1, ev)
      end
  | Some (false, s1, ev) => Some (false, s1, ev)
  | None => None
  end.
Proof.
  unfold load, setAlphaRef, after, bind, update, modify, self, gets, emit, ret. simpl.
  match goal with
  | |- context [load_entries ?d ?e ?s0] =>
      destruct (load_entries d e s0) as [[[ok s1] ev] |]; [| reflexivity]
  end.
  destruct ok; [| rewrite app_nil_r; reflexivity].
  destruct (m_shader (this s1)); simpl; rewrite ?app_nil_r; reflexivity.
Qed.

End LoadClaims.

(** C3 (the code departs from the claim): a document without a [shader]
    member does not make load fail.  The material already has a shader, the
    default one the constructor (or unload) installed, so the test for a
    missing shader at the end of load does not fire: unless a texture block
    has an unknown member, load returns true and the material keeps the
    shader it had. *)
Theorem load_without_shader_member `{Engine} (s : State) (file : jvalue) (size : Z) :
  loadable s file = true ->
  has_member "shader" (object_entries file) = false ->
  has_bad_texture_block (object_entries file) = false ->
  exists s1 ev,
    load file size s = Some (true, s1, ev) /\
    m_shader (this s1) = m_shader (this s).
Proof.
  intros (Hwf & Hsh & Hcap)%loadable_spec Hno Hgood.
  destruct (load_spec file size s Hwf Hsh Hcap)
    as (ok & s1 & ev & Hrun & _ & _ & _ & -> & _ & Hm).
  rewrite Hgood in Hrun. exists s1, ev. split; [exact Hrun | exact (Hm Hno)].
Qed.

(** C4: load stops at a texture block that has an unknown member: it
    returns false with the state and the log the members read so far have
    left, ending in the warning for that member, and whatever follows the
    block in the document is not read; the resource then ends in the FAILURE
    state.  An unknown member at the top level of a document without such a
    block does not make load fail: load returns true, in the same state as
    for the document without the member, and the log has one more entry,
    the warning, at the member's place. *)
Theorem load_unknown_members `{Engine} (s : State) (size : Z) :
  well_formed s = true ->
  is_Some (m_shader (this s)) ->
  (forall pre bpre label v bpost,
     has_bad_texture_block pre = false ->
     (m_texture_count (this s) + texture_blocks pre < length (m_textures (this s)))%nat ->
     forallb (fun e => known_texture_key (fst e)) bpre = true ->
     known_texture_key label = false ->
     exists s1 ev,
       forall post,
         load (JObject (pre ++ ("texture", JObject (bpre ++ (label, v) :: bpost)) :: post))
           size s
         = Some (false, s1, ev ++ [LogWarning label]) /\
         fileLoaded
           (JObject (pre ++ ("texture", JObject (bpre ++ (label, v) :: bpost)) :: post))
           size s
         = Some (tt, set_this (set_m_state FAILURE (this s1)) s1, ev ++ [LogWarning label])) /\
  (forall pre post label v,
     has_bad_texture_block (pre ++ post) = false ->
     (m_texture_count (this s) + texture_blocks (pre ++ post)
      <= length (m_textures (this s)))%nat ->
     known_key label = false ->
     exists s1 ev_pre ev_post,
       load (JObject (pre ++ post)) size s = Some (true, s1, ev_pre ++ ev_post) /\
       load (JObject (pre ++ (label, v) :: post)) size s
       = Some (true, s1, ev_pre ++ LogWarning label :: ev_post) /\
       fileLoaded (JObject (pre ++ (label, v) :: post)) size s
       = Some (tt, s1, ev_pre ++ LogWarning label :: ev_post)).
Proof.
  intros Hwf%well_formed_wf Hsh.
  destruct (load_start s Hwf Hsh) as (Hwf0 & Hsh0 & Hc0 & Ht0).
  set (dir := PathUtils_getDir (m_path (this s))).
  split.
  - intros pre bpre label v bpost Hgood Hcap Hbpre Hlabel.
    destruct (load_entries_spec dir pre _ Hwf0 Hsh0)
      as (ok & s' & ev0 & Hrun0 & Hwf' & _ & _ & Hlen' & _ & -> & Hok & _).
    { rewrite Hc0, Ht0. lia. }
    rewrite Hgood in Hrun0, Hok. destruct (Hok eq_refl) as [Hc' _].
    assert (Hlt : (m_texture_count (this s') < length (m_textures (this s')))%nat).
    { rewrite Hc', Hlen', Hc0, Ht0. exact Hcap. }
    destruct (load_entries_bad_block dir bpre label v bpost [] s' Hwf' Hlt Hbpre Hlabel)
      as (s1 & ev1 & _ & Hblock).
    exists s1, (ev0 ++ ev1). intros post.
    destruct (load_entries_bad_block dir bpre label v bpost post s' Hwf' Hlt Hbpre Hlabel)
      as (s2 & ev2 & Hrun & Hblock2).
    rewrite Hblock in Hblock2. injection Hblock2 as <- <-.
    assert (Hload : load (JObject (pre ++ ("texture", JObject (bpre ++ (label, v) :: bpost))
                                     :: post)) size s
                    = Some (false, s1, (ev0 ++ ev1) ++ [LogWarning label])).
    { rewrite load_unfold. cbn [object_entries]. fold dir.
      rewrite load_entries_app, Hrun0. cbn [negb]. rewrite Hrun.
      rewrite app_assoc. reflexivity. }
    split; [exact Hload |].
    unfold fileLoaded, bind. rewrite Hload. unfold update, modify. rewrite app_nil_r.
    reflexivity.
  - intros pre post label v Hgood Hcap Hk.
    destruct (load_entries_spec dir (pre ++ post) _ Hwf0 Hsh0)
      as (ok & s1 & ev & Hrun & _ & [sh Hsh1] & _ & _ & _ & -> & _).
    { rewrite Hc0, Ht0. exact Hcap. }
    rewrite Hgood in Hrun. cbn [negb] in Hrun.
    rewrite load_entries_app in Hrun.
    destruct (load_entries dir pre _) as [[[ok0 s'] ev_pre] |] eqn:Hpre; [| discriminate].
    destruct ok0; [| discriminate].
    destruct (load_entries dir post s') as [[[ok1 s2] ev_post] |] eqn:Hpost; [| discriminate].
    injection Hrun as -> -> <-.
    exists (set_this (set_m_size size (this s1)) s1), ev_pre, ev_post.
    assert (Hload : load (JObject (pre ++ (label, v) :: post)) size s
                    = Some (true, set_this (set_m_size size (this s1)) s1,
                            ev_pre ++ LogWarning label :: ev_post)).
    { rewrite load_unfold. cbn [object_entries]. fold dir.
      rewrite load_entries_app, Hpre, (load_entries_unknown dir label v post s' Hk), Hpost.
      rewrite Hsh1. reflexivity. }
    split; [| split; [exact Hload |]].
    + rewrite load_unfold. cbn [object_entries]. fold dir.
      rewrite load_entries_app, Hpre, Hpost, Hsh1. reflexivity.
    + unfold fileLoaded, bind. rewrite Hload. unfold ret. rewrite app_nil_r. reflexivity.
Qed.

(** * The alpha reference *)

Section AlphaRef.
Context `{Engine}.

Lemma alpha_ref_field_lor a b :
  alpha_ref_field (Z.lor a b) = Z.lor (alpha_ref_field a) (alpha_ref_field b).
Proof. unfold alpha_ref_field. rewrite Z.shiftr_lor. apply Z.land_lor_distr_l. Qed.

Lemma alpha_ref_field_of_ref v :
  0 <= BGFX_STATE_ALPHA_REF_SHIFT -> 0 <= v < 256 ->
  alpha_ref_field (BGFX_STATE_ALPHA_REF v) = v.
Proof.
  intros Hs Hv. unfold alpha_ref_field, BGFX_STATE_ALPHA_REF, BGFX_STATE_ALPHA_REF_MASK.
  rewrite Z.shiftr_land, !Z.shiftr_shiftl_l by lia.
  rewrite Z.sub_diag, !Z.shiftl_0_r.
  rewrite <- Z.land_assoc, Z.land_diag.
  change 255 with (Z.ones 8). rewrite Z.land_ones by lia.
  apply Z.mod_small. change (2 ^ 8) with 256. lia.
Qed.

Lemma alpha_ref_byte_range value : 0 <= alpha_ref_byte value < 256.
Proof.
  unfold alpha_ref_byte, F32.to_u8, u8.
  destruct (_ =? 255); [lia |]. apply Z.mod_pos_bound. lia.
Qed.

(** The sub-field onBeforeReady leaves, when the shader's own render states
    keep clear of it. *)
Lemma onBeforeReady_alpha_ref s sh shader :
  wf s -> 0 <= BGFX_STATE_ALPHA_REF_SHIFT ->
  m_shader (this s) = Some sh -> shaders s !! sh = Some shader ->
  alpha_ref_field (sh_render_states shader) = 0 ->
  exists s1 ev,
    onBeforeReady s = Some (tt, s1, ev) /\
    alpha_ref_field (m_render_states (this s1)) = alpha_ref_byte (m_alpha_ref (this s)).
Proof.
  intros Hwf Hshift Hsh Hshader Hclear.
  destruct (onBeforeReady_spec s Hwf) as ([] & s1 & ev & Hrun & _ & Hpost).
  exists s1, ev. split; [exact Hrun |].
  rewrite Hsh in Hpost. destruct Hpost as (shader' & Hl & _ & _ & Hrs & _).
  rewrite Hshader in Hl. injection Hl as <-.
  rewrite Hrs, alpha_ref_field_lor, Hclear, Z.lor_0_r.
  apply alpha_ref_field_of_ref; [exact Hshift | apply alpha_ref_byte_range].
Qed.

End AlphaRef.

(** C5, as amended: after a document whose alpha reference is 0.5 has been
    loaded, and once the readiness reconciliation has run, the 8-bit
    alpha-reference sub-field of the render state is 127, the integer part
    of 0.5 * 255 (the shader's own render states keeping clear of the
    sub-field). *)
Theorem alpha_ref_after_ready `{Engine} (s : State) (file : jvalue) (size : Z)
    (s1 : State) (ev1 : list Event) (sh : nat) (shader : Shader) :
  loadable s file = true ->
  0 <= BGFX_STATE_ALPHA_REF_SHIFT ->
  doc_alpha_ref (object_entries file) DEFAULT_ALPHA_REF_VALUE = 0x3F000000 ->
  load file size s = Some (true, s1, ev1) ->
  m_shader (this s1) = Some sh ->
  shaders s1 !! sh = Some shader ->
  alpha_ref_field (sh_render_states shader) = 0 ->
  m_alpha_ref (this s1) = 0x3F000000 /\
  exists s2 ev2,
    onBeforeReady s1 = Some (tt, s2, ev2) /\
    alpha_ref_field (m_render_states (this s2)) = 127.
Proof.
  intros (Hwf & Hsh & Hcap)%loadable_spec Hshift Hdoc Hload Hsh1 Hshader Hclear.
  pose proof (load_spec file size s Hwf Hsh Hcap) as Hspec.
  apply (runs_elim _ _ _ _ _ _ Hspec) in Hload as (Hwf1 & _ & _ & _ & Hok & _).
  destruct (Hok eq_refl) as [_ Halpha]. rewrite Hdoc in Halpha.
  split; [exact Halpha |].
  destruct (onBeforeReady_alpha_ref s1 sh shader Hwf1 Hshift Hsh1 Hshader Hclear)
    as (s2 & ev2 & Hrun & Hfield).
  exists s2, ev2. split; [exact Hrun |]. rewrite Hfield, Halpha. reflexivity.
Qed.

(** * setTexture *)

Section SetTexture.
Context `{Engine}.

Lemma uniforms_cover_covered s : uniforms_cover s = true -> covered s.
Proof.
  unfold uniforms_cover, covered. intros Hc sh shader Hsh Hl.
  rewrite Hsh, Hl in Hc. apply Nat.leb_le, Hc.
Qed.

(** The second half of setTexture: on a ready material the define of the
    slot, the command buffer and the shader instance are refreshed; the
    texture store is not touched. *)
Lemma setTexture_refresh_spec (i : nat) s :
  wf s -> (isReady (this s) = true -> covered s) ->
  (i < length (m_textures (this s)))%nat ->
  runs (let* m := self id in
        match isReady m, m_shader m with
        | true, Some sh =>
            let* shader := shader_at sh in
            let define_idx := m_define_idx (getTextureSlot shader i) in
            (if 0 <=? define_idx then
               let* t := from_option (m_textures m !! i) in
               update (set_m_define_mask
                         (with_define define_idx (bool_decide (is_Some t)) (m_define_mask m)))
             else ret tt) >>
            createCommandBuffer >>
            let* mask := self m_define_mask in
            let* instance := getInstance sh mask in
            update (set_m_shader_instance (Some instance))
        | _, _ => ret tt
        end) s
    (fun _ s1 ev =>
       textures s1 = textures s /\ m_textures (this s1) = m_textures (this s) /\
       List.filter is_set_atlas_size ev = []).
Proof.
  intros Hwf Hcov Hi. run. unfold id.
  destruct (isReady (this s)) eqn:Hready; [| run; auto].
  destruct (m_shader (this s)) as [sh |] eqn:Hsh; [| run; auto].
  destruct (lookup_lt_is_Some_2 (shaders s) sh) as [shader Hshader]; [apply Hwf, Hsh |].
  destruct (lookup_lt_is_Some_2 (m_textures (this s)) i) as [t Ht]; [exact Hi |].
  run1. run_with Hshader. run1.
  set (define_idx := m_define_idx (getTextureSlot shader i)).
  assert (Hmask : runs
    (if 0 <=? define_idx
     then let* t0 := from_option (m_textures (this s) !! i) in
          update (set_m_define_mask
                    (with_define define_idx (bool_decide (is_Some t0))
                       (m_define_mask (this s))))
     else ret tt) s
    (fun _ s1 ev => ev = [] /\ exists mask, s1 = set_this (set_m_define_mask mask (this s)) s)).
  { destruct (0 <=? define_idx).
    - run1. run_with Ht. run. split; [reflexivity | eauto].
    - run. split; [reflexivity |]. exists (m_define_mask (this s)).
      destruct s as [ts ss m]. destruct m. reflexivity. }
  eapply runs_mono; [exact Hmask |]. cbv beta. intros _ s1 ev1 (-> & mask & ->).
  run1. eapply runs_mono.
  { apply createCommandBuffer_spec.
    - apply (wf_textures_step s); simpl; try assumption; try reflexivity; apply Hwf.
    - intros sh' shader' Hsh' Hl'. simpl in *. apply (Hcov eq_refl sh' shader' Hsh' Hl'). }
  cbv beta. intros _ s2 ev2 (-> & cb & ->). unfold getInstance. run. simpl. auto.
Qed.

(** setTexture is defined on a well-formed state for a slot of the array
    and a texture of the store.  If a texture was bound at the slot and the
    new one is non-null, the new texture gets the old one's atlas size, and
    that happens after the new dependency is added and before the old one
    is removed and the old texture unloaded.  Otherwise no atlas size is set. *)
Lemma setTexture_spec (i : nat) (texture : option nat) s :
  wf s -> (isReady (this s) = true -> covered s) ->
  (i < length (m_textures (this s)))%nat ->
  (forall t, texture = Some t -> (t < length (textures s))%nat) ->
  runs (setTexture i texture) s (fun _ s1 ev =>
    match bound_texture (this s) i, texture with
    | Some old, Some t =>
        exists told ev1,
          textures s !! old = Some told /\
          ev = [AddDependency (TextureRes t); SetAtlasSize t (tex_atlas_size told);
                RemoveDependency (TextureRes old); ManagerUnload (TextureRes old)] ++ ev1 /\
          List.filter is_set_atlas_size ev1 = [] /\
          tex_atlas_size <$> textures s1 !! t = Some (tex_atlas_size told)
    | _, _ =>
        List.filter is_set_atlas_size ev = [] /\
        forall id, tex_atlas_size <$> textures s1 !! id = tex_atlas_size <$> textures s !! id
    end).
Proof.
  intros Hwf Hcov Hi Hvalid. unfold setTexture, bound_texture. run. unfold id.
  destruct (lookup_lt_is_Some_2 (m_textures (this s)) i) as [slot Hslot]; [exact Hi |].
  rewrite Hslot. cbn [mjoin option_join].
  (* the old texture *)
  set (old := if (i <? m_texture_count (this s))%nat then slot else None).
  assert (Hold : runs (if (i <? m_texture_count (this s))%nat
                       then from_option (Some slot) else ret None) s
                   (fun r s1 ev => r = old /\ s1 = s /\ ev = [])).
  { subst old. destruct (i <? m_texture_count (this s))%nat; cbn [from_option]; run; auto. }
  eapply runs_mono; [exact Hold |]. cbv beta. intros _ _ _ (-> & -> & ->).
  assert (Hov : forall o, old = Some o -> (o < length (textures s))%nat).
  { subst old. intros o Ho. destruct (i <? m_texture_count (this s))%nat; [| discriminate].
    subst slot. eapply (wf_textures s Hwf), Hslot. }
  clearbody old. clear Hold.
  apply Nat.ltb_lt in Hi. rewrite Hi. apply Nat.ltb_lt in Hi.
  (* the state after the slot and the count are written *)
  set (count1 := if (m_texture_count (this s) <=? i)%nat then (i + 1)%nat
                 else m_texture_count (this s)).
  set (m1 := set_m_texture_count count1
               (set_m_textures (<[i := texture]> (m_textures (this s))) (this s))).
  assert (Hwf1 : forall ts, length ts = length (textures s) -> wf (set_this m1 (set_textures ts s))).
  { intros ts Hts. apply (wf_textures_step s); simpl; try assumption; try reflexivity.
    - apply length_insert.
    - rewrite length_insert. subst count1.
      destruct (Nat.leb_spec (m_texture_count (this s)) i); [lia | apply Hwf].
    - intros k id Hk. rewrite Hts. destruct (decide (i = k)) as [<- | Hne].
      + rewrite list_lookup_insert_eq in Hk by exact Hi. injection Hk as Hk. auto.
      + rewrite list_lookup_insert_ne in Hk by exact Hne. eapply (wf_textures s Hwf), Hk. }
  assert (Hcov1 : forall ts, isReady m1 = true -> covered (set_this m1 (set_textures ts s))).
  { intros ts Hr. apply Hcov in Hr. exact Hr. }
  assert (Htail : forall ts, length ts = length (textures s) ->
    forall Q : unit -> State -> list Event -> Prop,
    (forall s1 ev, textures s1 = ts -> List.filter is_set_atlas_size ev = [] -> Q tt s1 ev) ->
    runs (let* m := self id in
        match isReady m, m_shader m with
        | true, Some sh =>
            let* shader := shader_at sh in
            let define_idx := m_define_idx (getTextureSlot shader i) in
            (if 0 <=? define_idx then
               let* t := from_option (m_textures m !! i) in
               update (set_m_define_mask
                         (with_define define_idx (bool_decide (is_Some t)) (m_define_mask m)))
             else ret tt) >>
            createCommandBuffer >>
            let* mask := self m_define_mask in
            let* instance := getInstance sh mask in
            update (set_m_shader_instance (Some instance))
        | _, _ => ret tt
        end) (set_this m1 (set_textures ts s)) Q).
  { intros ts Hts Q HQ. eapply runs_mono.
    - apply setTexture_refresh_spec; [apply Hwf1, Hts | apply Hcov1 |].
      simpl. rewrite length_insert. exact Hi.
    - cbv beta. intros [] s1 ev (Ht & _ & Hev). apply HQ; [exact Ht | exact Hev]. }
  assert (Hstate : forall ts,
    set_this m1 (set_textures ts s) =
    set_textures ts
      (if (m_texture_count (this s) <=? i)%nat
       then set_this (set_m_texture_count (i + 1)
              (set_m_textures (<[i := texture]> (m_textures (this s))) (this s))) s
       else set_this (set_m_textures (<[i := texture]> (m_textures (this s))) (this s)) s)).
  { intros ts. subst m1 count1. destruct (m_texture_count (this s) <=? i)%nat;
      [reflexivity |]. destruct s as [ts0 ss m]. destruct m. reflexivity. }
  assert (Hcount : forall s0 (Q : unit -> State -> list Event -> Prop),
    m_texture_count (this s0) = m_texture_count (this s) ->
    Q tt (set_this (set_m_texture_count count1 (this s0)) s0) [] ->
    runs (if (m_texture_count (this s) <=? i)%nat
          then update (set_m_texture_count (i + 1)) else ret tt) s0 Q).
  { intros s0 Q Hc HQ. subst count1. destruct (m_texture_count (this s) <=? i)%nat; run.
    - exact HQ.
    - rewrite <- Hc in HQ. destruct s0 as [ts0 ss0 m0]. destruct m0. exact HQ. }
  destruct texture as [t |]; destruct old as [o |].
  - (* both: the atlas size travels *)
    destruct (lookup_lt_is_Some_2 (textures s) o) as [told Hto]; [auto |].
    destruct (lookup_lt_is_Some_2 (textures s) t) as [tnew Htn]; [auto |].
    unfold addDependency, removeDependency, Texture_setAtlasSize, texture_manager_unload.
    run. apply Hcount; [reflexivity |]. run. run_with Hto.
    run. run_with Htn. run.
    destruct (lookup_lt_is_Some_2 (<[t := set_tex_atlas_size (tex_atlas_size told) tnew]>
                                      (textures s)) o) as [told1 Hto1];
      [rewrite length_insert; auto |].
    run_with Hto1. step. norm_state.
    apply (Htail (<[o := add_texture_ref (-1) told1]>
                    (<[t := set_tex_atlas_size (tex_atlas_size told) tnew]> (textures s)))).
    { change (length (<[o := add_texture_ref (-1) told1]>
                (<[t := set_tex_atlas_size (tex_atlas_size told) tnew]> (textures s)))
              = length (textures s)).
      rewrite !length_insert. reflexivity. }
    intros s1 ev Hts Hev.
    change (textures s1 = <[o := add_texture_ref (-1) told1]>
              (<[t := set_tex_atlas_size (tex_atlas_size told) tnew]> (textures s))) in Hts.
    exists told, ev. split; [exact Hto |].
    split; [reflexivity |]. split; [exact Hev |]. rewrite Hts.
    destruct (decide (o = t)) as [-> | Hne].
    + rewrite list_lookup_insert_eq by (rewrite length_insert; eapply lookup_lt_Some, Htn).
      rewrite list_lookup_insert_eq in Hto1 by (eapply lookup_lt_Some, Htn).
      injection Hto1 as <-. reflexivity.
    + rewrite list_lookup_insert_ne by exact Hne.
      rewrite list_lookup_insert_eq by (eapply lookup_lt_Some, Htn). reflexivity.
  - (* no old texture *)
    unfold addDependency. run. apply Hcount; [reflexivity |]. do 2 step.
    apply (Htail (textures s)); [reflexivity |].
    intros s1 ev Hts Hev. split; [exact Hev | rewrite Hts; reflexivity].
  - (* no new texture: the old one is released *)
    destruct (lookup_lt_is_Some_2 (textures s) o) as [told Hto]; [auto |].
    unfold removeDependency, texture_manager_unload.
    run. apply Hcount; [reflexivity |]. run. run_with Hto. step. norm_state.
    apply (Htail (<[o := add_texture_ref (-1) told]> (textures s))).
    { change (length (<[o := add_texture_ref (-1) told]> (textures s))
              = length (textures s)).
      rewrite length_insert. reflexivity. }
    intros s1 ev Hts Hev.
    change (textures s1 = <[o := add_texture_ref (-1) told]> (textures s)) in Hts.
    split; [exact Hev |]. intros id'. rewrite Hts.
    destruct (decide (o = id')) as [<- | Hne].
    + rewrite list_lookup_insert_eq by (eapply lookup_lt_Some, Hto). rewrite Hto. reflexivity.
    + rewrite list_lookup_insert_ne by exact Hne. reflexivity.
  - (* neither *)
    run. apply Hcount; [reflexivity |]. do 2 step.
    apply (Htail (textures s)); [reflexivity |].
    intros s1 ev Hts Hev. split; [exact Hev | rewrite Hts; reflexivity].
Qed.

End SetTexture.

(** C8: [setTexture(i, new_texture)] with a texture bound at slot [i] and a
    non-null new texture sets the new texture's atlas size to the old one's,
    after adding the new dependency and before removing the old one and
    unloading the old texture; if the old or the new texture is absent, no
    atlas size is set and every texture keeps its own. *)
Theorem setTexture_atlas_size `{Engine} (s : State) (i : nat) (texture : option nat) :
  can_set_texture s i texture = true ->
  exists s1 ev,
    setTexture i texture s = Some (tt, s1, ev) /\
    match bound_texture (this s) i, texture with
    | Some old, Some t =>
        exists told ev1,
          textures s !! old = Some told /\
          ev = [AddDependency (TextureRes t); SetAtlasSize t (tex_atlas_size told);
                RemoveDependency (TextureRes old); ManagerUnload (TextureRes old)] ++ ev1 /\
          List.filter is_set_atlas_size ev1 = [] /\
          tex_atlas_size <$> textures s1 !! t = Some (tex_atlas_size told)
    | _, _ =>
        List.filter is_set_atlas_size ev = [] /\
        forall id, tex_atlas_size <$> textures s1 !! id = tex_atlas_size <$> textures s !! id
    end.
Proof.
  unfold can_set_texture. rewrite !andb_true_iff, Nat.ltb_lt.
  intros [[[Hwf Hcov] Hi] Ht]. apply well_formed_wf in Hwf.
  destruct (setTexture_spec i texture s Hwf) as ([] & s1 & ev & Hrun & Hpost).
  - intros Hr. rewrite Hr in Hcov. apply uniforms_cover_covered, Hcov.
  - exact Hi.
  - intros t ->. apply Nat.ltb_lt, Ht.
  - exists s1, ev. split; [exact Hrun | exact Hpost].
Qed.

(** * The theorems at work on the sample engine *)

Section Examples.
#[local] Existing Instance Sample.engine.

Lemma onBeforeReady_aligns_witness :
  exists s1 ev,
    onBeforeReady (after (load Sample.shuffled 100) Sample.fresh) = Some (tt, s1, ev) /\
    forall i su, sh_uniforms Sample.default_shader !! i = Some su ->
                 exists u, m_uniforms (this s1) !! i = Some u /\
                           name_hash u = su_name_hash su.
Proof.
  apply (onBeforeReady_aligns (after (load Sample.shuffled 100) Sample.fresh) 0
           Sample.default_shader); vm_compute; reflexivity.
Defined.

Lemma load_without_shader_member_witness :
  exists s1 ev,
    load Sample.shaderless 32 Sample.fresh = Some (true, s1, ev) /\
    m_shader (this s1) = m_shader (this Sample.fresh).
Proof.
  apply (load_without_shader_member Sample.fresh Sample.shaderless 32);
    vm_compute; reflexivity.
Defined.

Lemma load_unknown_members_witness :
  (exists s1 ev,
     forall post,
       load (JObject ([("shader", JString "/shaders/default.shd")] ++
                      ("texture", JObject ([("source", JString "t.dds")] ++
                                           ("mipmaps", JBool true) :: [("srgb", JBool true)]))
                      :: post)) 80 Sample.fresh
       = Some (false, s1, ev ++ [LogWarning "mipmaps"]) /\
       fileLoaded
         (JObject ([("shader", JString "/shaders/default.shd")] ++
                   ("texture", JObject ([("source", JString "t.dds")] ++
                                        ("mipmaps", JBool true) :: [("srgb", JBool true)]))
                   :: post)) 80 Sample.fresh
       = Some (tt, set_this (set_m_state FAILURE (this s1)) s1,
               ev ++ [LogWarning "mipmaps"])) /\
  (exists s1 ev_pre ev_post,
     load (JObject ([("shader", JString "/shaders/default.shd")] ++
                    [("alpha_ref", JFloat 0x3F000000)])) 100 Sample.fresh
     = Some (true, s1, ev_pre ++ ev_post) /\
     load (JObject ([("shader", JString "/shaders/default.shd")] ++
                    ("glossiness", JInt 3) :: [("alpha_ref", JFloat 0x3F000000)]))
       100 Sample.fresh
     = Some (true, s1, ev_pre ++ LogWarning "glossiness" :: ev_post) /\
     fileLoaded (JObject ([("shader", JString "/shaders/default.shd")] ++
                          ("glossiness", JInt 3) :: [("alpha_ref", JFloat 0x3F000000)]))
       100 Sample.fresh
     = Some (tt, s1, ev_pre ++ LogWarning "glossiness" :: ev_post)).
Proof.
  assert (Hwf : well_formed Sample.fresh = true) by (vm_compute; reflexivity).
  assert (Hsh : is_Some (m_shader (this Sample.fresh)))
    by (vm_compute; eexists; reflexivity).
  split.
  - apply (proj1 (load_unknown_members Sample.fresh 80 Hwf Hsh)).
    + reflexivity.
    + vm_compute. lia.
    + reflexivity.
    + reflexivity.
  - apply (proj2 (load_unknown_members Sample.fresh 100 Hwf Hsh)).
    + reflexivity.
    + vm_compute. lia.
    + reflexivity.
Defined.

(** C5, the counterexample: in the spec's scenario the sub-field is 76
    (the default 0.3) when load returns and 127 once the material is ready,
    and never 128. *)
Lemma alpha_ref_scenario_not_128 :
  result (load Sample.scenario 100) Sample.fresh = Some true /\
  alpha_ref_field (m_render_states (this Sample.loaded)) = 76 /\
  alpha_ref_field (m_render_states (this Sample.ready)) = 127 /\
  alpha_ref_field (m_render_states (this Sample.loaded)) <> 128 /\
  alpha_ref_field (m_render_states (this Sample.ready)) <> 128.
Proof. vm_compute. repeat split; discriminate. Qed.

Lemma alpha_ref_after_ready_witness :
  m_alpha_ref (this Sample.loaded) = 0x3F000000 /\
  exists s2 ev2,
    onBeforeReady Sample.loaded = Some (tt, s2, ev2) /\
    alpha_ref_field (m_render_states (this s2)) = 127.
Proof.
  apply (alpha_ref_after_ready Sample.fresh Sample.scenario 100 Sample.loaded
           (events (load Sample.scenario 100) Sample.fresh) 0
           (add_shader_ref 1 Sample.default_shader)).
  - vm_compute. reflexivity.
  - simpl. lia.
  - vm_compute. reflexivity.
  - vm_compute. reflexivity.
  - vm_compute. reflexivity.
  - vm_compute. reflexivity.
  - vm_compute. reflexivity.
Defined.

Lemma setDefine_then_isDefined_witness :
  exists s1 ev,
    setDefine 3 true Sample.fresh = Some (tt, s1, ev) /\
    isDefined (this s1) 3 = true /\
    m_define_mask (this s1) = with_define 3 true (m_define_mask (this Sample.fresh)) /\
    (isReady (this Sample.fresh) = false \/ m_shader (this Sample.fresh) = None ->
     ev = [] /\ m_shader_instance (this s1) = m_shader_instance (this Sample.fresh)).
Proof. apply (setDefine_then_isDefined Sample.fresh 3 true). lia. Defined.

Lemma setDefine_twice_witness :
  exists s1 ev1 ev2,
    setDefine 3 true Sample.ready = Some (tt, s1, ev1) /\
    setDefine 3 true s1 = Some (tt, s1, ev2) /\
    ev2 = [] /\
    ev1 = (if Bool.eqb (isDefined (this Sample.ready) 3) true then []
           else [GetInstance 0 (m_define_mask (this s1))]) /\
    resolutions (ev1 ++ ev2) =
      (if Bool.eqb (isDefined (this Sample.ready) 3) true then 0 else 1)%nat.
Proof.
  apply (setDefine_twice Sample.ready 3 true 0).
  - lia.
  - vm_compute. split; [discriminate | reflexivity].
  - vm_compute. reflexivity.
  - vm_compute. reflexivity.
Defined.

Lemma save_refused_witness :
  save [] Sample.fresh = Some ((false, []), Sample.fresh, []).
Proof. apply (save_refused Sample.fresh []). left. vm_compute. reflexivity. Defined.

(** The ready sample material gets another texture at slot 0. *)
Lemma setTexture_atlas_size_witness :
  exists s1 ev,
    setTexture 0 (Some 1%nat) Sample.two_textures
    = Some (tt, s1, ev) /\
    exists told ev1,
      textures Sample.two_textures !! 0%nat
      = Some told /\
      ev = [AddDependency (TextureRes 1); SetAtlasSize 1 (tex_atlas_size told);
            RemoveDependency (TextureRes 0); ManagerUnload (TextureRes 0)] ++ ev1 /\
      List.filter is_set_atlas_size ev1 = [] /\
      tex_atlas_size <$> textures s1 !! 1%nat = Some (tex_atlas_size told).
Proof.
  apply (setTexture_atlas_size
           Sample.two_textures 0 (Some 1%nat)).
  vm_compute. reflexivity.
Defined.

(** C7, where the code departs from the claim: a material that is loaded
    again after unload.  unload leaves the old pointers in [m_textures], so
    the block with the empty source finds slot 0 still holding the texture
    of the first load: the slot is not recorded as unbound, and the atlas
    size and flags of the block are written to that texture.  On a fresh
    material the same document leaves slot 0 unbound. *)
Lemma reload_keeps_stale_texture :
  m_texture_count (this Sample.unloaded) = 0%nat /\
  result (load Sample.second_document 96) Sample.unloaded = Some true /\
  m_textures (this (after (load Sample.second_document 96) Sample.unloaded)) !! 0%nat
  = Some (Some 0%nat) /\
  m_textures (this (after (load Sample.second_document 96) Sample.unloaded)) !! 1%nat
  = Some (Some 1%nat) /\
  SetFlags 0 0 ∈ events (load Sample.second_document 96) Sample.unloaded /\
  m_textures (this (after (load Sample.second_document 96) Sample.fresh)) !! 0%nat
  = Some None.
Proof.
  vm_compute. repeat split; try reflexivity.
  repeat (first [apply list_elem_of_here | apply list_elem_of_further]).
Qed.

End Examples.

(** * The define mask and the alpha reference, bit by bit *)

Section MaskRange.

Lemma range_of_bits z :
  0 <= z -> (forall n, 32 <= n -> Z.testbit z n = false) -> 0 <= z < 2 ^ 32.
Proof.
  intros Hz Hhigh. split; [exact Hz |].
  assert (Heq : z mod 2 ^ 32 = z).
  { apply Z.bits_inj'. intros n Hn.
    destruct (Z.ltb_spec n 32) as [Hlt | Hge].
    - apply Z.mod_pow2_bits_low. lia.
    - rewrite Z.mod_pow2_bits_high by lia. symmetry. apply Hhigh, Hge. }
  rewrite <- Heq. apply Z.mod_pos_bound. lia.
Qed.

Lemma u32_range z : 0 <= u32 z < 2 ^ 32.
Proof. unfold u32. apply Z.mod_pos_bound. lia. Qed.

Lemma lor_range a b :
  0 <= a < 2 ^ 32 -> 0 <= b < 2 ^ 32 -> 0 <= Z.lor a b < 2 ^ 32.
Proof.
  intros Ha Hb. apply range_of_bits.
  - apply Z.lor_nonneg. lia.
  - intros n Hn. rewrite Z.lor_spec, !u32_range_testbit by assumption. reflexivity.
Qed.

Lemma land_range a b : 0 <= a < 2 ^ 32 -> 0 <= Z.land a b < 2 ^ 32.
Proof.
  intros Ha. apply range_of_bits.
  - apply Z.land_nonneg. lia.
  - intros n Hn. rewrite Z.land_spec, (u32_range_testbit a) by assumption. reflexivity.
Qed.

Lemma with_define_range k e mask :
  0 <= mask < 2 ^ 32 -> 0 <= with_define k e mask < 2 ^ 32.
Proof.
  intros Hm. unfold with_define. destruct e.
  - apply lor_range; [exact Hm | apply u32_range].
  - apply land_range, Hm.
Qed.

Lemma setDefine_defined k e s : exists s1 ev, setDefine k e s = Some (tt, s1, ev).
Proof.
  rewrite setDefine_eq. cbv zeta.
  destruct (isReady (this s)), (m_shader (this s)); try destruct (_ =? _); eauto.
Qed.

(** Of the material, setDefine writes the mask and the instance pointer only. *)
Lemma setDefine_frame k e s s1 ev :
  setDefine k e s = Some (tt, s1, ev) ->
  textures s1 = textures s /\ shaders s1 = shaders s /\
  exists instance,
    this s1 = set_m_shader_instance instance
                (set_m_define_mask (with_define k e (m_define_mask (this s))) (this s)).
Proof.
  rewrite setDefine_eq. cbv zeta.
  assert (Hid : forall m : Material, m = set_m_shader_instance (m_shader_instance m) m)
    by (intros []; reflexivity).
  destruct (isReady (this s)), (m_shader (this s)); try destruct (_ =? _);
    intros [= <- <-]; (split; [reflexivity |]); (split; [reflexivity |]);
    eexists; simpl; first [reflexivity | apply Hid].
Qed.

Lemma with_define_comm j k a b mask :
  0 <= j < 32 -> 0 <= k < 32 -> j <> k -> 0 <= mask < 2 ^ 32 ->
  with_define k b (with_define j a mask) = with_define j a (with_define k b mask).
Proof.
  intros Hj Hk Hne Hm. apply Z.bits_inj'. intros n Hn.
  destruct (Z.ltb_spec n 32) as [Hlt | Hge].
  - rewrite !with_define_testbit by lia.
    destruct (Z.eqb_spec k n), (Z.eqb_spec j n); try reflexivity; lia.
  - rewrite !u32_range_testbit; try reflexivity; try exact Hge;
      repeat apply with_define_range; exact Hm.
Qed.

(** Whether a call changes the mask does not depend on another define. *)
Lemma with_define_unchanged_other j k a b mask :
  0 <= j < 32 -> 0 <= k < 32 -> j <> k -> 0 <= mask < 2 ^ 32 ->
  (with_define j a mask =? with_define k b (with_define j a mask))
  = (mask =? with_define k b mask).
Proof.
  intros Hj Hk Hne Hm.
  rewrite !with_define_unchanged by (try apply with_define_range; assumption).
  rewrite with_define_testbit by lia.
  destruct (Z.eqb_spec j k); [lia | reflexivity].
Qed.

(** Two calls in a row on a material that is not ready, or has no shader. *)
Lemma setDefine_idle s j k a b :
  isReady (this s) = false \/ m_shader (this s) = None ->
  exists s1,
    setDefine j a s = Some (tt, s1, []) /\
    setDefine k b s1 =
      Some (tt,
            set_this (set_m_define_mask
                        (with_define k b (with_define j a (m_define_mask (this s))))
                        (this s)) s,
            []).
Proof.
  intros Hidle. rewrite (setDefine_eq j a s). cbv zeta.
  assert (H1 : match isReady (this s), m_shader (this s) with
               | true, Some shader =>
                   if m_define_mask (this s) =? with_define j a (m_define_mask (this s))
                   then Some (tt, set_this (set_m_define_mask
                                              (with_define j a (m_define_mask (this s)))
                                              (this s)) s, [])
                   else Some (tt,
                              set_this
                                (set_m_shader_instance
                                   (Some (InstanceOf shader
                                            (with_define j a (m_define_mask (this s)))))
                                   (this (set_this (set_m_define_mask
                                                      (with_define j a (m_define_mask (this s)))
                                                      (this s)) s)))
                                (set_this (set_m_define_mask
                                             (with_define j a (m_define_mask (this s)))
                                             (this s)) s),
                              [GetInstance shader (with_define j a (m_define_mask (this s)))])
               | _, _ => Some (tt, set_this (set_m_define_mask
                                               (with_define j a (m_define_mask (this s)))
                                               (this s)) s, [])
               end
               = Some (tt, set_this (set_m_define_mask
                                       (with_define j a (m_define_mask (this s)))
                                       (this s)) s, [])).
  { destruct Hidle as [-> | ->]; [reflexivity | destruct (isReady (this s)); reflexivity]. }
  eexists. split; [exact H1 |].
  rewrite setDefine_eq. cbv zeta. cbn [this set_this].
  assert (Hr : isReady (set_m_define_mask (with_define j a (m_define_mask (this s))) (this s))
               = isReady (this s)) by (destruct (this s); reflexivity).
  rewrite Hr.
  change (m_shader (set_m_define_mask (with_define j a (m_define_mask (this s))) (this s)))
    with (m_shader (this s)).
  destruct Hidle as [-> | ->]; [reflexivity | destruct (isReady (this s)); reflexivity].
Qed.

(** Two calls in a row on a ready material with a shader. *)
Lemma setDefine_pair s j k a b sh :
  0 <= j < 32 -> 0 <= k < 32 -> j <> k ->
  0 <= m_define_mask (this s) < 2 ^ 32 ->
  isReady (this s) = true -> m_shader (this s) = Some sh ->
  exists s1 ev1 ev2,
    setDefine j a s = Some (tt, s1, ev1) /\
    setDefine k b s1 =
      Some (tt,
            set_this
              (set_m_shader_instance
                 (if m_define_mask (this s)
                     =? with_define k b (with_define j a (m_define_mask (this s)))
                  then m_shader_instance (this s)
                  else Some (InstanceOf sh
                               (with_define k b (with_define j a (m_define_mask (this s))))))
                 (set_m_define_mask
                    (with_define k b (with_define j a (m_define_mask (this s)))) (this s)))
              s,
            ev2) /\
    resolutions (ev1 ++ ev2) =
      ((if Bool.eqb (Z.testbit (m_define_mask (this s)) j) a then 0 else 1)
       + (if Bool.eqb (Z.testbit (m_define_mask (this s)) k) b then 0 else 1))%nat.
Proof.
  intros Hj Hk Hne Hm Hr Hs.
  set (m := m_define_mask (this s)) in *.
  pose proof (with_define_unchanged j a m Hj Hm) as Ej.
  pose proof (with_define_unchanged k b m Hk Hm) as Ek.
  pose proof (with_define_unchanged_other j k a b m Hj Hk Hne Hm) as Ejk.
  assert (Hready : forall (m0 : Material) v i,
            isReady m0 = true ->
            isReady (set_m_shader_instance i (set_m_define_mask v m0)) = true
            /\ isReady (set_m_define_mask v m0) = true)
    by (intros [] ? ? ?; auto).
  destruct (Hready (this s) (with_define j a m) (Some (InstanceOf sh (with_define j a m))) Hr)
    as [Hr1 Hr2].
  rewrite (setDefine_eq j a s). cbv zeta. rewrite Hr, Hs. fold m.
  rewrite <- Ej, <- Ek.
  destruct (m =? with_define j a m) eqn:Cj; destruct (m =? with_define k b m) eqn:Ck;
    eexists _, _, _; (split; [reflexivity |]);
    rewrite setDefine_eq; cbv zeta; cbn [this set_this]; rewrite ?Hr1, ?Hr2;
    cbn [m_shader set_m_shader_instance set_m_define_mask m_define_mask];
    rewrite Hs, Ejk.
  - apply Z.eqb_eq in Cj as Hmj. apply Z.eqb_eq in Ck as Hmk. split.
    + rewrite <- Hmj, <- Hmk, Z.eqb_refl. reflexivity.
    + reflexivity.
  - apply Z.eqb_eq in Cj as Hmj. split.
    + rewrite <- Hmj, Ck. reflexivity.
    + reflexivity.
  - assert (Hsame : with_define k b (with_define j a m) = with_define j a m).
    { symmetry. apply Z.eqb_eq. exact Ejk. }
    split.
    + rewrite Hsame, Cj. reflexivity.
    + reflexivity.
  - assert (Hdiff : (m =? with_define k b (with_define j a m)) = false).
    { apply Z.eqb_neq. intros Heq.
      assert (Hbit : Z.testbit (with_define k b (with_define j a m)) j = a).
      { rewrite !with_define_testbit by lia.
        destruct (Z.eqb_spec k j); [lia |]. rewrite Z.eqb_refl. reflexivity. }
      rewrite <- Heq in Hbit. rewrite Hbit, Bool.eqb_reflx in Ej. discriminate. }
    split.
    + rewrite Hdiff. reflexivity.
    + reflexivity.
Qed.

End MaskRange.

(** X1: [setDefine(k, e)] changes no define but [k]: every other define
    reads as before, and of the material only the mask and the
    shader-instance pointer are written; the stores are not touched. *)
Theorem setDefine_other_defines (s : State) (k j : Z) (e : bool) :
  0 <= k < 32 -> 0 <= j < 32 -> j <> k ->
  exists s1 ev,
    setDefine k e s = Some (tt, s1, ev) /\
    isDefined (this s1) j = isDefined (this s) j /\
    textures s1 = textures s /\ shaders s1 = shaders s /\
    exists instance,
      this s1 = set_m_shader_instance instance
                  (set_m_define_mask (m_define_mask (this s1)) (this s)).
Proof.
  intros Hk Hj Hne. destruct (setDefine_defined k e s) as (s1 & ev & Hrun).
  exists s1, ev. split; [exact Hrun |].
  pose proof (setDefine_mask k e s s1 ev Hrun) as Hmask.
  destruct (setDefine_frame k e s s1 ev Hrun) as (Ht & Hs & instance & Hthis).
  split.
  - rewrite !isDefined_testbit by exact Hj. rewrite Hmask.
    rewrite with_define_testbit by lia.
    destruct (Z.eqb_spec k j); [lia | reflexivity].
  - split; [exact Ht |]. split; [exact Hs |]. exists instance.
    rewrite Hmask. exact Hthis.
Qed.

(** X2: two [setDefine] calls on different defines can be made in either
    order: both orders are defined and leave the same state, mask and
    shader-instance pointer included, and resolve the shader instance
    equally often. *)
Theorem setDefine_order (s : State) (j k : Z) (a b : bool) :
  0 <= j < 32 -> 0 <= k < 32 -> j <> k ->
  0 <= m_define_mask (this s) < 2 ^ 32 ->
  exists s1 ev1 s1' ev1' s2 ev2 ev2',
    setDefine j a s = Some (tt, s1, ev1) /\
    setDefine k b s1 = Some (tt, s2, ev2) /\
    setDefine k b s = Some (tt, s1', ev1') /\
    setDefine j a s1' = Some (tt, s2, ev2') /\
    resolutions (ev1 ++ ev2) = resolutions (ev1' ++ ev2').
Proof.
  intros Hj Hk Hne Hm.
  destruct (isReady (this s)) eqn:Hr; [destruct (m_shader (this s)) as [sh |] eqn:Hs |].
  - destruct (setDefine_pair s j k a b sh Hj Hk Hne Hm Hr Hs)
      as (s1 & ev1 & ev2 & H1 & H2 & Hn).
    destruct (setDefine_pair s k j b a sh Hk Hj (not_eq_sym Hne) Hm Hr Hs)
      as (s1' & ev1' & ev2' & H1' & H2' & Hn').
    rewrite <- (with_define_comm j k a b _ Hj Hk Hne Hm) in H2'.
    exists s1, ev1, s1', ev1'. eexists _, ev2, ev2'.
    split; [exact H1 |]. split; [exact H2 |]. split; [exact H1' |]. split; [exact H2' |].
    rewrite Hn, Hn'. apply Nat.add_comm.
  - destruct (setDefine_idle s j k a b) as (s1 & H1 & H2); [right; exact Hs |].
    destruct (setDefine_idle s k j b a) as (s1' & H1' & H2'); [right; exact Hs |].
    rewrite <- (with_define_comm j k a b _ Hj Hk Hne Hm) in H2'.
    exists s1, [], s1', []. eexists _, [], [].
    split; [exact H1 |]. split; [exact H2 |]. split; [exact H1' |]. split; [exact H2' |].
    reflexivity.
  - destruct (setDefine_idle s j k a b) as (s1 & H1 & H2); [left; exact Hr |].
    destruct (setDefine_idle s k j b a) as (s1' & H1' & H2'); [left; exact Hr |].
    rewrite <- (with_define_comm j k a b _ Hj Hk Hne Hm) in H2'.
    exists s1, [], s1', []. eexists _, [], [].
    split; [exact H1 |]. split; [exact H2 |]. split; [exact H1' |]. split; [exact H2' |].
    reflexivity.
Qed.

(** X3: on a ready material with a shader, [setDefine(k, e)] followed by
    [setDefine(k, !e)] leaves the define as the second call says.  The
    second call always changes the mask, so it always resolves the shader
    instance; the pair resolves it once when the first call found the
    define as asked already, and twice otherwise. *)
Theorem setDefine_then_opposite (s : State) (k : Z) (e : bool) (shader : nat) :
  0 <= k < 32 ->
  0 <= m_define_mask (this s) < 2 ^ 32 ->
  isReady (this s) = true ->
  m_shader (this s) = Some shader ->
  exists s1 ev1 s2 ev2,
    setDefine k e s = Some (tt, s1, ev1) /\
    setDefine k (negb e) s1 = Some (tt, s2, ev2) /\
    isDefined (this s2) k = negb e /\
    ev2 = [GetInstance shader (m_define_mask (this s2))] /\
    m_shader_instance (this s2) = Some (InstanceOf shader (m_define_mask (this s2))) /\
    resolutions (ev1 ++ ev2) = (if Bool.eqb (isDefined (this s) k) e then 1 else 2)%nat.
Proof.
  intros Hk Hmask Hready Hsh.
  assert (Hready1 : forall m0 : Material, isReady m0 = true ->
            forall v, isReady (set_m_define_mask v m0) = true) by (intros [] ? ?; assumption).
  assert (Hready2 : forall m0 : Material, isReady m0 = true ->
            forall v, isReady (set_m_shader_instance v m0) = true) by (intros [] ? ?; assumption).
  pose proof (with_define_range k e _ Hmask) as Hmask1.
  assert (Hdiff : (with_define k e (m_define_mask (this s)) =?
                   with_define k (negb e) (with_define k e (m_define_mask (this s)))) = false).
  { rewrite with_define_unchanged by assumption.
    rewrite with_define_testbit by lia. rewrite Z.eqb_refl. destruct e; reflexivity. }
  assert (Hbit : isDefined
            (set_m_define_mask
               (with_define k (negb e) (with_define k e (m_define_mask (this s)))) (this s)) k
          = negb e).
  { rewrite isDefined_testbit by exact Hk. simpl.
    rewrite with_define_testbit by lia. rewrite Z.eqb_refl. reflexivity. }
  rewrite isDefined_testbit by exact Hk.
  rewrite <- (with_define_unchanged k e) by assumption.
  rewrite (setDefine_eq k e s). cbv zeta. rewrite Hready, Hsh.
  destruct (m_define_mask (this s) =? with_define k e (m_define_mask (this s))) eqn:Hsame.
  - eexists _, [], _, _. split; [reflexivity |].
    rewrite setDefine_eq. cbv zeta. cbn [this set_this].
    rewrite (Hready1 _ Hready).
    replace (m_shader (set_m_define_mask (with_define k e (m_define_mask (this s))) (this s)))
      with (Some shader) by (rewrite <- Hsh; reflexivity).
    replace (m_define_mask
               (set_m_define_mask (with_define k e (m_define_mask (this s))) (this s)))
      with (with_define k e (m_define_mask (this s))) by reflexivity.
    rewrite Hdiff. split; [reflexivity |].
    split; [rewrite isDefined_testbit by exact Hk; simpl;
            rewrite with_define_testbit by lia; rewrite Z.eqb_refl; reflexivity |].
    split; [reflexivity |]. split; reflexivity.
  - eexists _, [_], _, _. split; [reflexivity |].
    rewrite setDefine_eq. cbv zeta. cbn [this set_this].
    rewrite (Hready2 _ (Hready1 _ Hready _)).
    replace (m_shader
               (set_m_shader_instance
                  (Some (InstanceOf shader (with_define k e (m_define_mask (this s)))))
                  (set_m_define_mask (with_define k e (m_define_mask (this s))) (this s))))
      with (Some shader) by (rewrite <- Hsh; reflexivity).
    replace (m_define_mask
               (set_m_shader_instance
                  (Some (InstanceOf shader (with_define k e (m_define_mask (this s)))))
                  (set_m_define_mask (with_define k e (m_define_mask (this s))) (this s))))
      with (with_define k e (m_define_mask (this s))) by reflexivity.
    rewrite Hdiff. split; [reflexivity |].
    split; [rewrite isDefined_testbit by exact Hk; simpl;
            rewrite with_define_testbit by lia; rewrite Z.eqb_refl; reflexivity |].
    split; [reflexivity |]. split; reflexivity.
Qed.

(** * setAlphaRef *)

Section AlphaRefBits.
Context `{Engine}.

Lemma testbit_255 n : 0 <= n -> Z.testbit 255 n = (n <? 8).
Proof. intros Hn. change 255 with (Z.ones 8). apply Z.testbit_ones_nonneg; lia. Qed.

Lemma alpha_ref_mask_testbit n :
  0 <= BGFX_STATE_ALPHA_REF_SHIFT -> 0 <= n ->
  Z.testbit BGFX_STATE_ALPHA_REF_MASK n =
  (BGFX_STATE_ALPHA_REF_SHIFT <=? n) && (n <? BGFX_STATE_ALPHA_REF_SHIFT + 8).
Proof.
  intros Hs Hn. unfold BGFX_STATE_ALPHA_REF_MASK. rewrite Z.shiftl_spec by exact Hn.
  destruct (Z.leb_spec BGFX_STATE_ALPHA_REF_SHIFT n) as [Hle | Hlt].
  - rewrite testbit_255 by lia. simpl.
    destruct (Z.ltb_spec (n - BGFX_STATE_ALPHA_REF_SHIFT) 8),
             (Z.ltb_spec n (BGFX_STATE_ALPHA_REF_SHIFT + 8)); (reflexivity || lia).
  - apply Z.testbit_neg_r. lia.
Qed.

(** The render state setAlphaRef leaves, bit by bit. *)
Lemma setAlphaRef_testbit rs val n :
  0 <= BGFX_STATE_ALPHA_REF_SHIFT -> 0 <= n < 64 ->
  Z.testbit (Z.lor (Z.land rs (u64 (Z.lnot BGFX_STATE_ALPHA_REF_MASK)))
                   (BGFX_STATE_ALPHA_REF val)) n =
  if (BGFX_STATE_ALPHA_REF_SHIFT <=? n) && (n <? BGFX_STATE_ALPHA_REF_SHIFT + 8)
  then Z.testbit val (n - BGFX_STATE_ALPHA_REF_SHIFT)
  else Z.testbit rs n.
Proof.
  intros Hs Hn. unfold BGFX_STATE_ALPHA_REF, u64.
  rewrite Z.lor_spec, !Z.land_spec.
  rewrite Z.mod_pow2_bits_low by lia. rewrite Z.lnot_spec by lia.
  rewrite alpha_ref_mask_testbit by lia. rewrite Z.shiftl_spec by lia.
  destruct ((BGFX_STATE_ALPHA_REF_SHIFT <=? n) && (n <? BGFX_STATE_ALPHA_REF_SHIFT + 8)); simpl.
  - rewrite andb_false_r, andb_true_r. reflexivity.
  - rewrite andb_true_r, andb_false_r, orb_false_r. reflexivity.
Qed.

End AlphaRefBits.

(** X4: [setAlphaRef(value)] stores the value, puts the integer part of
    [value * 255] into the 8-bit alpha-reference sub-field of the render
    state and leaves every other bit of the render state as it was; it calls
    no collaborator. *)
Theorem setAlphaRef_field `{Engine} (s : State) (value : Z) :
  0 <= BGFX_STATE_ALPHA_REF_SHIFT <= 56 ->
  exists s1,
    setAlphaRef value s = Some (tt, s1, []) /\
    m_alpha_ref (this s1) = value /\
    alpha_ref_field (m_render_states (this s1)) = alpha_ref_byte value /\
    (forall n, 0 <= n < 64 ->
               n < BGFX_STATE_ALPHA_REF_SHIFT \/ BGFX_STATE_ALPHA_REF_SHIFT + 8 <= n ->
               Z.testbit (m_render_states (this s1)) n =
               Z.testbit (m_render_states (this s)) n).
Proof.
  intros Hs. eexists. split; [reflexivity |]. cbn [this set_this].
  split; [reflexivity |]. split.
  - cbn [m_render_states set_m_render_states set_m_alpha_ref].
    apply Z.bits_inj'. intros n Hn. unfold alpha_ref_field.
    rewrite Z.land_spec, Z.shiftr_spec by exact Hn. rewrite testbit_255 by exact Hn.
    pose proof (alpha_ref_byte_range value) as Hb.
    destruct (Z.ltb_spec n 8) as [Hlt | Hge].
    + rewrite andb_true_r. rewrite setAlphaRef_testbit by lia.
      destruct (Z.leb_spec BGFX_STATE_ALPHA_REF_SHIFT (n + BGFX_STATE_ALPHA_REF_SHIFT));
        [| lia].
      destruct (Z.ltb_spec (n + BGFX_STATE_ALPHA_REF_SHIFT) (BGFX_STATE_ALPHA_REF_SHIFT + 8));
        [| lia].
      simpl. f_equal. lia.
    + rewrite andb_false_r. symmetry.
      rewrite <- (Z.mod_small (alpha_ref_byte value) (2 ^ 8)) by (change (2 ^ 8) with 256; lia).
      apply Z.mod_pow2_bits_high. lia.
  - intros n Hn Hout. cbn [m_render_states set_m_render_states set_m_alpha_ref].
    rewrite setAlphaRef_testbit by lia.
    destruct (Z.leb_spec BGFX_STATE_ALPHA_REF_SHIFT n),
             (Z.ltb_spec n (BGFX_STATE_ALPHA_REF_SHIFT + 8)); simpl; (reflexivity || lia).
Qed.

(** * setShader, unload and the constructor *)

Section Release.
Context `{Engine}.

Lemma schema_add_shader_ref (ss : list Shader) (id : nat) d sh :
  ss !! id = Some sh ->
  shader_schema <$> <[id := add_shader_ref d sh]> ss = shader_schema <$> ss.
Proof.
  intros Hid. rewrite list_fmap_insert.
  apply list_insert_id. rewrite list_lookup_fmap, Hid. reflexivity.
Qed.

Lemma schema_lookup (ss ss1 : list Shader) (id : nat) sd :
  shader_schema <$> ss1 = shader_schema <$> ss -> ss !! id = Some sd ->
  exists sd1, ss1 !! id = Some sd1 /\ shader_schema sd1 = shader_schema sd.
Proof.
  intros Heq Hid.
  assert (Hl : (shader_schema <$> ss1) !! id = Some (shader_schema sd)).
  { rewrite Heq, list_lookup_fmap, Hid. reflexivity. }
  rewrite list_lookup_fmap in Hl. destruct (ss1 !! id) as [sd1 |]; [| discriminate].
  exists sd1. split; [reflexivity | simpl in Hl; congruence].
Qed.

(** Giving up the current shader: the first step of setShader. *)
Lemma release_shader_spec s :
  wf s ->
  runs (match m_shader (this s) with
        | Some o =>
            if negb (o =? getDefaultShader)%nat then
              update (set_m_shader None) >>
              removeDependency (ShaderRes o) >>
              shader_manager_unload o
            else ret tt
        | None => ret tt
        end) s
    (fun _ s1 ev =>
       ev = release_shader_events (m_shader (this s)) /\
       textures s1 = textures s /\
       shader_schema <$> shaders s1 = shader_schema <$> shaders s /\
       (forall v, set_m_shader v (this s1) = set_m_shader v (this s)) /\
       (m_shader (this s) = Some getDefaultShader -> s1 = s) /\
       wf s1).
Proof.
  intros Hwf. unfold release_shader_events.
  destruct (m_shader (this s)) as [o |] eqn:Ho.
  - destruct (Nat.eqb_spec o getDefaultShader) as [-> | Hne]; cbn [negb].
    + run. split_and!; try reflexivity. exact Hwf.
    + destruct (lookup_lt_is_Some_2 (shaders s) o) as [old Hold]; [apply Hwf, Ho |].
      unfold removeDependency, shader_manager_unload. run.
      eapply runs_update_shader; [simpl; exact Hold |]. run. simpl.
      split; [reflexivity |]. split; [reflexivity |].
      split; [apply schema_add_shader_ref, Hold |].
      split; [reflexivity |].
      split; [intros [= Heq]; congruence |].
      pose proof (wf_add_shader_ref s o (-1) old Hold Hwf) as [Hd Hs Hsl Hc Ht].
      split; simpl in *; try assumption. discriminate.
  - run. split_and!; try reflexivity; try discriminate. exact Hwf.
Qed.

(** setShader with a shader of the store, call by call. *)
Lemma setShader_events sh sd s :
  wf s -> shaders s !! sh = Some sd ->
  runs (setShader (Some sh)) s (fun _ s1 ev =>
    textures s1 = textures s /\
    shader_schema <$> shaders s1 = shader_schema <$> shaders s /\
    m_shader (this s1) = Some sh /\
    kept s s1 /\ wf s1 /\
    if sh_ready sd then
      ev = release_shader_events (m_shader (this s)) ++
           [AddDependency (ShaderRes sh); GetInstance sh (m_define_mask (this s1))] /\
      aligned (sh_uniforms sd) (m_uniforms (this s1)) /\
      m_shader_instance (this s1) = Some (InstanceOf sh (m_define_mask (this s1)))
    else
      ev = release_shader_events (m_shader (this s)) ++ [AddDependency (ShaderRes sh)] /\
      this s1 = set_m_shader (Some sh) (this s)).
Proof.
  intros Hwf Hsd. unfold setShader. run1. run1. cbv beta. run1.
  eapply runs_mono; [apply release_shader_spec, Hwf |]. cbv beta.
  intros _ s1 ev1 (-> & Ht1 & Hs1 & Hthis1 & _ & Hwf1).
  unfold addDependency. run.
  destruct (schema_lookup _ _ _ _ Hs1 Hsd) as (sd1 & Hsd1 & Hschema).
  run_with Hsd1.
  assert (Hready : sh_ready sd1 = sh_ready sd) by exact (f_equal sh_ready Hschema).
  assert (Huniforms : sh_uniforms sd1 = sh_uniforms sd) by exact (f_equal sh_uniforms Hschema).
  assert (Hwf2 : wf (set_this (set_m_shader (Some sh) (this s1)) s1)).
  { destruct Hwf1 as [Hd Hs Hsl Hc Ht]. split; simpl; try assumption.
    intros sh' [= <-]. eapply lookup_lt_Some, Hsd1. }
  assert (Hk2 : kept s (set_this (set_m_shader (Some sh) (this s1)) s1)).
  { simpl. rewrite Hthis1. repeat split. }
  rewrite Hready. destruct (sh_ready sd).
  - eapply runs_mono; [apply onBeforeReady_spec, Hwf2 |]. cbv beta.
    intros _ s2 ev2 (Href & Hpost). cbn [this set_this m_shader set_m_shader] in Hpost.
    destruct Hpost as (shader & Hl & Hal & _ & _ & _ & -> & Hinst).
    cbn [shaders set_this] in Hl. rewrite Hsd1 in Hl. injection Hl as <-.
    destruct Href as (Ht2 & Hs2 & Hsh2 & Hk).
    split; [rewrite Ht2; exact Ht1 |]. split; [rewrite Hs2; exact Hs1 |].
    split; [rewrite Hsh2; reflexivity |].
    split; [eapply kept_trans; eassumption |].
    split; [eapply wf_refreshed; [| exact Hwf2];
            exact (conj Ht2 (conj Hs2 (conj Hsh2 Hk))) |].
    split; [simpl; reflexivity |].
    split; [rewrite <- Huniforms; exact Hal | exact Hinst].
  - run. simpl. split; [exact Ht1 |]. split; [exact Hs1 |]. split; [reflexivity |].
    split; [exact Hk2 |]. split; [exact Hwf2 |].
    split; [rewrite ?app_nil_r; reflexivity | apply Hthis1].
Qed.

(** setShader with the null pointer: the default shader and its first
    instance are installed, and nothing is asked of them. *)
Lemma setShader_None_spec s :
  wf s ->
  runs (setShader None) s (fun _ s1 ev =>
    ev = release_shader_events (m_shader (this s)) /\
    textures s1 = textures s /\
    shader_schema <$> shaders s1 = shader_schema <$> shaders s /\
    this s1 = with_default_shader (this s) /\
    (m_shader (this s) = Some getDefaultShader -> shaders s1 = shaders s) /\
    wf s1).
Proof.
  intros Hwf. unfold setShader. run1. run1. cbv beta. run1.
  eapply runs_mono; [apply release_shader_spec, Hwf |]. cbv beta.
  intros _ s1 ev1 (-> & Ht1 & Hs1 & Hthis1 & Hsame & Hwf1). run. simpl.
  split; [rewrite !app_nil_r; reflexivity |].
  split; [exact Ht1 |]. split; [exact Hs1 |].
  split; [unfold with_default_shader; rewrite <- (Hthis1 (Some getDefaultShader)); reflexivity |].
  split; [intros Hd; rewrite (Hsame Hd); reflexivity |].
  destruct Hwf1 as [Hd Hs Hsl Hc Ht]. split; simpl; try assumption.
  intros sh' [= <-]. exact Hd.
Qed.

(** The loop of unload over the slots [i .. i + n). *)
Lemma release_textures_spec (texs : list (option nat)) : forall n i s,
  (i + n <= length texs)%nat ->
  (forall k t, texs !! k = Some (Some t) -> (t < length (textures s))%nat) ->
  runs (for_range i n (fun i =>
          let* t := from_option (texs !! i) in
          match t with
          | Some id => removeDependency (TextureRes id) >> texture_manager_unload id
          | None => ret tt
          end)) s
    (fun _ s1 ev =>
       ev = release_texture_events (omap id (take n (drop i texs))) /\
       this s1 = this s /\ shaders s1 = shaders s /\
       textures_evolve (textures s) (textures s1) /\
       length (textures s1) = length (textures s) /\
       (omap id (take n (drop i texs)) = [] -> s1 = s)).
Proof.
  induction n as [| n IH]; intros i s Hlen Hvalid; cbn [for_range].
  - run. rewrite take_0. split_and!; try reflexivity. apply textures_evolve_refl.
  - destruct (lookup_lt_is_Some_2 texs i) as [t Ht]; [lia |].
    rewrite (drop_S _ _ _ Ht). cbn [take omap].
    run1. run1. run_with Ht.
    destruct t as [t |]; cbn [id].
    + destruct (lookup_lt_is_Some_2 (textures s) t) as [tx Htx]; [eapply Hvalid, Ht |].
      unfold removeDependency. run1. run1.
      unfold texture_manager_unload.
      eapply runs_texture_mutator; [exact Htx |].
      eapply runs_mono; [apply IH; [lia |] |].
      { intros k t' Hk. simpl. rewrite length_insert. eapply Hvalid, Hk. }
      cbv beta. intros _ s1 ev (-> & Hthis & Hsh & Hev & Hl & _).
      simpl in *. split; [reflexivity |]. split; [exact Hthis |]. split; [exact Hsh |].
      split.
      * eapply textures_evolve_trans; [| exact Hev].
        eapply textures_evolve_insert; [exact Htx | reflexivity].
      * split; [rewrite Hl; apply length_insert | discriminate].
    + run. eapply runs_mono; [apply IH; [lia | exact Hvalid] |].
      cbv beta. intros _ s1 ev (-> & Hthis & Hsh & Hev & Hl & Hsame).
      simpl. split_and!; try assumption. reflexivity.
Qed.

Lemma unload_spec s :
  wf s ->
  runs unload s (fun _ s1 ev =>
    ev = release_shader_events (m_shader (this s)) ++
         release_texture_events (bound_textures (this s)) /\
    this s1 = set_m_texture_count 0
                (with_default_shader (set_m_uniforms [] (set_m_command_buffer None (this s)))) /\
    shader_schema <$> shaders s1 = shader_schema <$> shaders s /\
    textures_evolve (textures s) (textures s1) /\
    length (textures s1) = length (textures s) /\
    (m_shader (this s) = Some getDefaultShader -> bound_textures (this s) = [] ->
     textures s1 = textures s /\ shaders s1 = shaders s) /\
    wf s1).
Proof.
  intros Hwf. unfold unload. run.
  eapply runs_mono.
  { apply setShader_None_spec.
    apply (wf_textures_step s); simpl; try assumption; try reflexivity; apply Hwf. }
  cbv beta. intros _ s1 ev1 (-> & Ht1 & Hs1 & Hthis1 & Hsame1 & Hwf1).
  cbn [textures shaders this set_this m_shader set_m_uniforms set_m_command_buffer] in *.
  run. unfold id at 1 2.
  assert (Htexs : m_textures (this s1) = m_textures (this s))
    by (rewrite Hthis1; reflexivity).
  assert (Hcount : m_texture_count (this s1) = m_texture_count (this s))
    by (rewrite Hthis1; reflexivity).
  rewrite Htexs, Hcount.
  eapply runs_mono.
  { apply release_textures_spec.
    - pose proof (wf_count s Hwf). lia.
    - intros k t Hk. rewrite Ht1. eapply (wf_textures s Hwf), Hk. }
  cbv beta. intros _ s2 ev2 (-> & Hthis2 & Hs2 & Hev2 & Hl2 & Hsame2). run. simpl.
  rewrite !app_nil_r. unfold bound_textures.
  split; [reflexivity |].
  split; [rewrite Hthis2, Hthis1; reflexivity |].
  split; [rewrite Hs2; exact Hs1 |].
  split; [rewrite <- Ht1; exact Hev2 |].
  split; [rewrite Hl2, Ht1; reflexivity |].
  split.
  - intros Hd Hb. rewrite (Hsame2 Hb). split; [exact Ht1 | apply Hsame1, Hd].
  - apply (wf_textures_step s1); simpl; try assumption; try reflexivity.
    + rewrite Hthis2. reflexivity.
    + rewrite Hthis2. reflexivity.
    + lia.
    + intros k t Hk. rewrite Hthis2 in Hk. rewrite Hl2. eapply (wf_textures s1 Hwf1), Hk.
Qed.

Lemma forallb_replicate {A : Type} (f : A -> bool) (x : A) n :
  f x = true -> forallb f (replicate n x) = true.
Proof. intros Hx. induction n as [| n IH]; simpl; [reflexivity | rewrite Hx, IH; reflexivity]. Qed.

End Release.

(** X5: whatever it is given, [setShader] leaves the material with a
    shader: the one given or, for the null pointer, the engine's default
    shader.  The test [if (!m_shader)] that ends load can therefore not
    succeed once setShader has run, and the constructor runs it. *)
Theorem setShader_never_null `{Engine} (s : State) (shader : option nat) :
  well_formed s = true ->
  match shader with Some sh => (sh <? length (shaders s))%nat | None => true end = true ->
  exists s1 ev,
    setShader shader s = Some (tt, s1, ev) /\
    m_shader (this s1) = Some (default getDefaultShader shader).
Proof.
  intros Hwf%well_formed_wf Hvalid. destruct shader as [sh |].
  - apply Nat.ltb_lt in Hvalid.
    destruct (lookup_lt_is_Some_2 (shaders s) sh) as [sd Hsd]; [exact Hvalid |].
    destruct (setShader_events sh sd s Hwf Hsd) as ([] & s1 & ev & Hrun & _ & _ & Hsh & _).
    exists s1, ev. auto.
  - destruct (setShader_None_spec s Hwf) as ([] & s1 & ev & Hrun & _ & _ & _ & Hthis & _).
    exists s1, ev. split; [exact Hrun |]. rewrite Hthis. reflexivity.
Qed.

(** X6: [setShader] never gives up the default shader: whatever shader
    the material held and whatever it is given, no dependency on the default
    shader is removed and the shader manager is not asked to unload it. *)
Theorem setShader_spares_default_shader `{Engine} (s : State) (shader : option nat) :
  well_formed s = true ->
  match shader with Some sh => (sh <? length (shaders s))%nat | None => true end = true ->
  exists s1 ev,
    setShader shader s = Some (tt, s1, ev) /\
    (RemoveDependency (ShaderRes getDefaultShader) ∉ ev) /\
    (ManagerUnload (ShaderRes getDefaultShader) ∉ ev).
Proof.
  intros Hwf%well_formed_wf Hvalid.
  assert (Hrel : forall tail,
    (RemoveDependency (ShaderRes getDefaultShader) ∉ tail) ->
    (ManagerUnload (ShaderRes getDefaultShader) ∉ tail) ->
    (RemoveDependency (ShaderRes getDefaultShader)
       ∉ (release_shader_events (m_shader (this s)) ++ tail)) /\
    (ManagerUnload (ShaderRes getDefaultShader)
       ∉ (release_shader_events (m_shader (this s)) ++ tail))).
  { intros tail H1 H2. unfold release_shader_events.
    destruct (m_shader (this s)) as [o |]; [| auto].
    destruct (Nat.eqb_spec o getDefaultShader) as [-> | Hne]; cbn [negb]; [auto |].
    split; intros Hin; apply elem_of_app in Hin as [Hin | Hin]; try tauto;
      apply elem_of_cons in Hin as [Hin | Hin]; try congruence;
      apply elem_of_cons in Hin as [Hin | Hin]; try congruence;
      apply elem_of_nil in Hin; exact Hin. }
  destruct shader as [sh |].
  - apply Nat.ltb_lt in Hvalid.
    destruct (lookup_lt_is_Some_2 (shaders s) sh) as [sd Hsd]; [exact Hvalid |].
    destruct (setShader_events sh sd s Hwf Hsd)
      as ([] & s1 & ev & Hrun & _ & _ & _ & _ & _ & Hev).
    exists s1, ev. split; [exact Hrun |].
    destruct (sh_ready sd); destruct Hev as (-> & _); apply Hrel;
      intros Hin; repeat (apply elem_of_cons in Hin as [Hin | Hin]; try discriminate);
      apply elem_of_nil in Hin; exact Hin.
  - destruct (setShader_None_spec s Hwf) as ([] & s1 & ev & Hrun & -> & _).
    exists s1, (release_shader_events (m_shader (this s))). split; [exact Hrun |].
    rewrite <- (app_nil_r (release_shader_events _)).
    apply Hrel; apply not_elem_of_nil.
Qed.

(** X7: [setShader] with a shader that is ready gives up the previous
    shader (unless it is the default one), adds the dependency, reconciles
    the uniform table with the new shader's uniforms and resolves the shader
    instance for the define mask, in this order. *)
Theorem setShader_ready_shader `{Engine} (s : State) (sh : nat) (sd : Shader) :
  well_formed s = true ->
  shaders s !! sh = Some sd ->
  sh_ready sd = true ->
  exists s1,
    setShader (Some sh) s =
      Some (tt, s1,
            release_shader_events (m_shader (this s)) ++
            [AddDependency (ShaderRes sh); GetInstance sh (m_define_mask (this s1))]) /\
    m_shader (this s1) = Some sh /\
    aligned (sh_uniforms sd) (m_uniforms (this s1)) /\
    m_shader_instance (this s1) = Some (InstanceOf sh (m_define_mask (this s1))) /\
    textures s1 = textures s.
Proof.
  intros Hwf%well_formed_wf Hsd Hready.
  destruct (setShader_events sh sd s Hwf Hsd)
    as ([] & s1 & ev & Hrun & Ht & _ & Hsh & _ & _ & Hev).
  rewrite Hready in Hev. destruct Hev as (-> & Hal & Hinst).
  exists s1. auto.
Qed.

(** X8: [setShader] with a shader that is not ready yet only swaps the
    pointer: the uniform table, the render states, the define mask, the
    command buffer and the shader-instance pointer stay those computed for
    the previous shader, and no shader instance is resolved. *)
Theorem setShader_pending_shader `{Engine} (s : State) (sh : nat) (sd : Shader) :
  well_formed s = true ->
  shaders s !! sh = Some sd ->
  sh_ready sd = false ->
  exists s1,
    setShader (Some sh) s =
      Some (tt, s1,
            release_shader_events (m_shader (this s)) ++ [AddDependency (ShaderRes sh)]) /\
    this s1 = set_m_shader (Some sh) (this s) /\
    m_shader_instance (this s1) = m_shader_instance (this s) /\
    textures s1 = textures s.
Proof.
  intros Hwf%well_formed_wf Hsd Hready.
  destruct (setShader_events sh sd s Hwf Hsd)
    as ([] & s1 & ev & Hrun & Ht & _ & Hsh & _ & _ & Hev).
  rewrite Hready in Hev. destruct Hev as (-> & Hthis).
  exists s1. split; [exact Hrun |]. split; [exact Hthis |].
  split; [rewrite Hthis; reflexivity | exact Ht].
Qed.

(** X9: [unload] gives up the shader (unless it is the default one) and
    then, in slot order, every texture bound in a slot in use, each once;
    it leaves the material with the default shader, no uniforms, no command
    buffer and a texture count of 0.  The slots themselves are not cleared:
    [m_textures] still holds the pointers it held. *)
Theorem unload_releases `{Engine} (s : State) :
  well_formed s = true ->
  exists s1,
    unload s =
      Some (tt, s1,
            release_shader_events (m_shader (this s)) ++
            release_texture_events (bound_textures (this s))) /\
    this s1 = set_m_texture_count 0
                (with_default_shader (set_m_uniforms [] (set_m_command_buffer None (this s)))) /\
    m_textures (this s1) = m_textures (this s) /\
    bound_textures (this s1) = [] /\
    well_formed s1 = true.
Proof.
  intros Hwf%well_formed_wf.
  destruct (unload_spec s Hwf) as ([] & s1 & ev & Hrun & -> & Hthis & _ & _ & _ & _ & Hwf1).
  exists s1. split; [exact Hrun |]. split; [exact Hthis |].
  split; [rewrite Hthis; reflexivity |].
  split; [unfold bound_textures; rewrite Hthis; reflexivity |].
  apply well_formed_wf, Hwf1.
Qed.

(** X10: a second [unload] finds nothing to give up: it emits no call and
    leaves the state, stores included, exactly as the first one left it. *)
Theorem unload_twice `{Engine} (s : State) :
  well_formed s = true ->
  exists s1 ev,
    unload s = Some (tt, s1, ev) /\
    unload s1 = Some (tt, s1, []).
Proof.
  intros Hwf%well_formed_wf.
  destruct (unload_spec s Hwf) as ([] & s1 & ev & Hrun & _ & Hthis & _ & _ & _ & _ & Hwf1).
  exists s1, ev. split; [exact Hrun |].
  destruct (unload_spec s1 Hwf1)
    as ([] & s2 & ev2 & Hrun2 & -> & Hthis2 & _ & _ & _ & Hsame & _).
  assert (Hsh : m_shader (this s1) = Some getDefaultShader) by (rewrite Hthis; reflexivity).
  assert (Hb : bound_textures (this s1) = [])
    by (unfold bound_textures; rewrite Hthis; reflexivity).
  destruct (Hsame Hsh Hb) as [Ht2 Hs2].
  rewrite Hrun2. unfold release_shader_events. rewrite Hsh, Nat.eqb_refl, Hb. cbn [negb].
  assert (Heq : s2 = s1).
  { destruct s2 as [ts2 ss2 m2], s1 as [ts1 ss1 m1]. simpl in *.
    rewrite Ht2, Hs2, Hthis2, Hthis. reflexivity. }
  rewrite Heq. reflexivity.
Qed.

(** X11: the constructor leaves a material that holds the engine's
    default shader and its first instance, with every texture slot null and
    none in use, and it asks nothing of any collaborator (no dependency on
    the default shader is added).  In a store that has the default shader,
    the material is fit to load any document with at most
    [MAX_TEXTURE_COUNT] texture blocks. *)
Theorem Material_ctor_spec `{Engine} (s : State) (path : string) :
  engine_ready s = true ->
  exists s1,
    Material_ctor (set_this (Material_init path) s) = Some (tt, s1, []) /\
    textures s1 = textures s /\ shaders s1 = shaders s /\
    m_shader (this s1) = Some getDefaultShader /\
    m_shader_instance (this s1) = Some (FirstInstance getDefaultShader) /\
    m_textures (this s1) = replicate MAX_TEXTURE_COUNT None /\
    m_texture_count (this s1) = 0%nat /\
    well_formed s1 = true /\
    forall file, (texture_blocks (object_entries file) <= MAX_TEXTURE_COUNT)%nat ->
                 loadable s1 file = true.
Proof.
  unfold engine_ready. rewrite andb_true_iff. intros [Hd Hslots].
  pose (s1 := after Material_ctor (set_this (Material_init path) s)).
  assert (Hwf : well_formed s1 = true).
  { unfold well_formed.
    change (shaders s1) with (shaders s). change (textures s1) with (textures s).
    change (m_shader (this s1)) with (Some getDefaultShader).
    change (m_textures (this s1)) with (replicate MAX_TEXTURE_COUNT (@None nat)).
    change (m_texture_count (this s1)) with 0%nat.
    rewrite length_replicate, Hd, Hslots. simpl.
    apply forallb_replicate. reflexivity. }
  exists s1. split; [reflexivity |].
  do 5 (split; [reflexivity |]). split; [reflexivity |].
  split; [exact Hwf |].
  intros file Hcap. unfold loadable. rewrite Hwf.
  change (m_shader (this s1)) with (Some getDefaultShader).
  change (m_textures (this s1)) with (replicate MAX_TEXTURE_COUNT (@None nat)).
  change (m_texture_count (this s1)) with 0%nat.
  rewrite length_replicate. simpl. apply Nat.leb_le. exact Hcap.
Qed.

(** * Readiness: the define mask, the uniform table, the command buffer *)

Section ReadyState.
Context `{Engine}.

(** onBeforeReady on a material with a shader, in one equation. *)
Lemma onBeforeReady_state s sh shader :
  wf s -> m_shader (this s) = Some sh -> shaders s !! sh = Some shader ->
  exists us1 mask cb,
    reconcile_uniforms 0 (sh_uniforms shader) (m_uniforms (this s)) = Some us1 /\
    texture_defines 0 (sh_texture_slots shader) (m_textures (this s))
      (m_define_mask (this s)) = Some mask /\
    onBeforeReady s =
      Some (tt,
            set_this
              (set_m_shader_instance (Some (InstanceOf sh mask))
                 (set_m_command_buffer cb
                    (set_m_define_mask mask
                       (set_m_render_states
                          (Z.lor (BGFX_STATE_ALPHA_REF (alpha_ref_byte (m_alpha_ref (this s))))
                                 (sh_render_states shader))
                          (set_m_uniforms us1 (this s)))))) s,
            [GetInstance sh mask]).
Proof.
  intros Hwf Hsh Hshader.
  destruct (reconcile_uniforms_aligned (sh_uniforms shader) (m_uniforms (this s)))
    as (us1 & Hrec & Hal & Hlen).
  destruct (texture_defines_defined (sh_texture_slots shader) 0 (m_textures (this s))
              (m_define_mask (this s))) as [mask Hmask];
    [simpl; eapply (wf_slots s Hwf), Hshader |].
  assert (Hrun : runs onBeforeReady s (fun _ s1 ev =>
    exists cb,
      s1 = set_this
             (set_m_shader_instance (Some (InstanceOf sh mask))
                (set_m_command_buffer cb
                   (set_m_define_mask mask
                      (set_m_render_states
                         (Z.lor (BGFX_STATE_ALPHA_REF (alpha_ref_byte (m_alpha_ref (this s))))
                                (sh_render_states shader))
                         (set_m_uniforms us1 (this s)))))) s /\
      ev = [GetInstance sh mask])).
  { unfold onBeforeReady. run. simpl. rewrite Hsh.
    run1. run_with Hshader. run1. run_with Hrec. run. run_with Hmask. run.
    eapply runs_mono.
    { apply createCommandBuffer_spec.
      - eapply wf_refreshed; [| exact Hwf]. repeat split.
      - intros sh' shader'. simpl. rewrite Hsh. intros [= <-] Hl.
        rewrite Hshader in Hl. injection Hl as <-. exact Hlen. }
    simpl. intros _ s1 ev (-> & cb & ->). unfold getInstance. run.
    exists cb. split; reflexivity. }
  destruct Hrun as ([] & s1 & ev & Hrun & cb & -> & ->).
  exists us1, mask, cb. auto.
Qed.

(** ** The define mask *)

Lemma texture_defines_testbit slots : forall i texs mask mask' d,
  slots_in_range slots = true -> 0 <= d < 32 ->
  texture_defines i slots texs mask = Some mask' ->
  Z.testbit mask' d =
  match deciding_slot d slots i with
  | Some k => bool_decide (is_Some (mjoin (texs !! k)))
  | None => Z.testbit mask d
  end.
Proof.
  induction slots as [| slot rest IH]; intros i texs mask mask' d Hin Hd; simpl.
  - intros [= <-]. reflexivity.
  - simpl in Hin. apply andb_true_iff in Hin as [Hslot Hrest]. apply Z.ltb_lt in Hslot.
    destruct (Z.leb_spec 0 (m_define_idx slot)) as [Hge | Hlt].
    + destruct (texs !! i) as [t |] eqn:Ht; simpl; [| discriminate].
      intros Hrun. rewrite (IH _ _ _ _ d Hrest Hd Hrun).
      destruct (deciding_slot d rest (S i)); [reflexivity |].
      rewrite with_define_testbit by lia.
      destruct (m_define_idx slot =? d); [| reflexivity].
      rewrite Ht. reflexivity.
    + intros Hrun. rewrite (IH _ _ _ _ d Hrest Hd Hrun).
      destruct (deciding_slot d rest (S i)); [reflexivity |].
      destruct (Z.eqb_spec (m_define_idx slot) d); [lia | reflexivity].
Qed.

Lemma texture_defines_range slots : forall i texs mask mask',
  0 <= mask < 2 ^ 32 ->
  texture_defines i slots texs mask = Some mask' -> 0 <= mask' < 2 ^ 32.
Proof.
  induction slots as [| slot rest IH]; intros i texs mask mask' Hm; simpl.
  - intros [= <-]. exact Hm.
  - destruct (0 <=? m_define_idx slot).
    + destruct (texs !! i) as [t |]; simpl; [| discriminate].
      apply IH, with_define_range, Hm.
    + apply IH, Hm.
Qed.

(** ** The uniform table *)

Lemma find_uniform_None h us : forall j0,
  find_uniform h us j0 = None -> forall k u, us !! k = Some u -> name_hash u <> h.
Proof.
  induction us as [| u0 rest IH]; intros j0; simpl.
  - intros _ k u Hk. rewrite lookup_nil in Hk. discriminate.
  - destruct (Z.eqb_spec (name_hash u0) h) as [Hh | Hh]; [discriminate |].
    intros Hf [| k] u Hk; simpl in Hk.
    + injection Hk as <-. exact Hh.
    + eapply IH; eassumption.
Qed.

(** One round of the loop over the shader's uniforms.  [orig] is the table
    the loop started from: the entries from [i] on are entries of [orig],
    and every entry of [orig] that a uniform still to come will ask for is
    among them. *)
Lemma reconcile_uniform_round (orig : list Uniform) (rest_hashes : list Z) i su cur cur1 :
  (i <= length cur)%nat ->
  su_name_hash su ∉ rest_hashes ->
  (forall k u, (i <= k)%nat -> cur !! k = Some u -> u ∈ orig) ->
  (forall u, u ∈ orig -> name_hash u ∈ su_name_hash su :: rest_hashes ->
             exists k, (i <= k)%nat /\ cur !! k = Some u) ->
  reconcile_uniform i su cur = Some cur1 ->
  (forall k u, (S i <= k)%nat -> cur1 !! k = Some u -> u ∈ orig) /\
  (forall u, u ∈ orig -> name_hash u ∈ rest_hashes ->
             exists k, (S i <= k)%nat /\ cur1 !! k = Some u) /\
  ((exists u, u ∈ orig /\ name_hash u = su_name_hash su) ->
   exists u', cur1 !! i = Some u' /\ u' ∈ orig /\ name_hash u' = su_name_hash su).
Proof.
  intros Hi Hfresh Hc Ha. unfold reconcile_uniform.
  destruct (find_uniform (su_name_hash su) (drop i cur) i) as [j |] eqn:Hfind.
  - apply find_uniform_Some in Hfind as (Hij & uj & Hj & Hhash).
    rewrite lookup_drop in Hj. replace (i + (j - i))%nat with j in Hj by lia.
    assert (Hjlt : (j < length cur)%nat) by (eapply lookup_lt_Some; eauto).
    destruct (lookup_lt_is_Some_2 cur i) as [ui Hui]; [lia |].
    rewrite Hui, Hj. simpl. intros [= <-].
    split; [| split].
    + intros k u Hk Hl. destruct (decide (k = j)) as [-> | Hne].
      * rewrite list_lookup_insert_eq in Hl by (rewrite length_insert; lia).
        injection Hl as <-. eapply (Hc i); [lia | exact Hui].
      * rewrite !list_lookup_insert_ne in Hl by lia. eapply (Hc k); [lia | exact Hl].
    + intros u Hu Hin.
      assert (Hne : name_hash u <> su_name_hash su) by (intros Heq; rewrite Heq in Hin; auto).
      destruct (Ha u Hu) as (k & Hk & Hl); [right; exact Hin |].
      destruct (decide (k = i)) as [-> | Hki].
      * assert (u = ui) by congruence. subst u.
        assert (j <> i) by (intros ->; congruence).
        exists j. split; [lia |].
        apply list_lookup_insert_eq. rewrite length_insert. lia.
      * assert (k <> j) by (intros ->; congruence).
        exists k. split; [lia |]. rewrite !list_lookup_insert_ne by lia. exact Hl.
    + intros _. destruct (decide (i = j)) as [<- | Hne].
      * exists ui. split; [apply list_lookup_insert_eq; rewrite length_insert; lia |].
        split; [eapply (Hc i); [lia | exact Hui] | congruence].
      * exists uj. split.
        -- rewrite list_lookup_insert_ne by lia. apply list_lookup_insert_eq. lia.
        -- split; [eapply (Hc j); [lia | exact Hj] | exact Hhash].
  - pose proof (find_uniform_None _ _ _ Hfind) as Hnone.
    assert (Hnone' : forall k u, (i <= k)%nat -> cur !! k = Some u ->
                                 name_hash u <> su_name_hash su).
    { intros k u Hk Hl. apply (Hnone (k - i)%nat u).
      rewrite lookup_drop. replace (i + (k - i))%nat with k by lia. exact Hl. }
    assert (Habsurd : (exists u, u ∈ orig /\ name_hash u = su_name_hash su) -> False).
    { intros (u & Hu & Hh). destruct (Ha u Hu) as (k & Hk & Hl); [rewrite Hh; left |].
      exact (Hnone' k u Hk Hl Hh). }
    destruct (cur !! i) as [ui |] eqn:Hui.
    + assert (Hilt : (i < length cur)%nat) by (eapply lookup_lt_Some; eauto).
      rewrite (lookup_app_l cur [ui] i Hilt), Hui. simpl. intros [= <-].
      split; [| split].
      * intros k u Hk Hl. rewrite list_lookup_insert_ne in Hl by lia.
        apply lookup_app_Some in Hl as [Hl | [Hge Hl]].
        -- eapply (Hc k); [lia | exact Hl].
        -- apply list_lookup_singleton_Some in Hl as [_ <-].
           eapply (Hc i); [lia | exact Hui].
      * intros u Hu Hin. destruct (Ha u Hu) as (k & Hk & Hl); [right; exact Hin |].
        destruct (decide (k = i)) as [-> | Hki].
        -- assert (u = ui) by congruence. subst u.
           exists (length cur). split; [lia |].
           rewrite list_lookup_insert_ne by lia.
           rewrite lookup_app_r by lia. rewrite Nat.sub_diag. reflexivity.
        -- exists k. split; [lia |]. rewrite list_lookup_insert_ne by lia.
           apply lookup_app_l_Some. exact Hl.
      * intros Hex. destruct (Habsurd Hex).
    + apply lookup_ge_None in Hui. assert (i = length cur) by lia. subst i.
      rewrite lookup_app_r by lia. rewrite Nat.sub_diag. simpl. intros [= <-].
      split; [| split].
      * intros k u Hk Hl. rewrite list_lookup_insert_ne in Hl by lia.
        apply lookup_lt_Some in Hl. rewrite length_app in Hl. simpl in Hl. lia.
      * intros u Hu Hin. destruct (Ha u Hu) as (k & Hk & Hl); [right; exact Hin |].
        apply lookup_lt_Some in Hl. lia.
      * intros Hex. destruct (Habsurd Hex).
Qed.

(** The whole loop: the entry left at the index of a uniform the table had
    an entry for is an entry of the table. *)
Lemma reconcile_uniforms_values (orig : list Uniform) sus : forall i cur us1,
  (i <= length cur)%nat ->
  NoDup (su_name_hash <$> sus) ->
  (forall k u, (i <= k)%nat -> cur !! k = Some u -> u ∈ orig) ->
  (forall u, u ∈ orig -> name_hash u ∈ su_name_hash <$> sus ->
             exists k, (i <= k)%nat /\ cur !! k = Some u) ->
  reconcile_uniforms i sus cur = Some us1 ->
  forall k su, sus !! k = Some su ->
    (exists u, u ∈ orig /\ name_hash u = su_name_hash su) ->
    exists u', us1 !! (i + k)%nat = Some u' /\ u' ∈ orig /\ name_hash u' = su_name_hash su.
Proof.
  induction sus as [| su0 rest IH]; intros i cur us1 Hi Hnd Hc Ha Hrun k su Hk Hex.
  - rewrite lookup_nil in Hk. discriminate.
  - simpl in Hrun. rewrite fmap_cons in Hnd, Ha. apply NoDup_cons in Hnd as [Hfresh Hnd].
    destruct (reconcile_uniform i su0 cur) as [cur1 |] eqn:Hround; [| discriminate].
    simpl in Hrun.
    destruct (reconcile_uniform_round orig (su_name_hash <$> rest) i su0 cur cur1
                Hi Hfresh Hc Ha Hround) as (Hc1 & Ha1 & Hhere).
    destruct (reconcile_uniform_spec i su0 cur Hi) as (cur1' & Heq & Hlt & _).
    rewrite Hround in Heq. injection Heq as <-.
    destruct k as [| k]; simpl in Hk.
    + injection Hk as <-. destruct (Hhere Hex) as (u' & Hl & Hu' & Hh).
      exists u'. split; [| auto]. rewrite Nat.add_0_r.
      destruct (reconcile_uniforms_spec rest (S i) cur1) as (us1' & Heq & _ & Hpre & _);
        [lia |].
      rewrite Hrun in Heq. injection Heq as <-. rewrite Hpre by lia. exact Hl.
    + replace (i + S k)%nat with (S i + k)%nat by lia.
      eapply (IH (S i) cur1); eauto; lia.
Qed.

Lemma NoDup_fmap_eq {A B : Type} (f : A -> B) (l : list A) x y :
  NoDup (f <$> l) -> x ∈ l -> y ∈ l -> f x = f y -> x = y.
Proof.
  induction l as [| a l IH]; intros Hnd Hx Hy Hf.
  - apply elem_of_nil in Hx. destruct Hx.
  - rewrite fmap_cons in Hnd. apply NoDup_cons in Hnd as [Ha Hnd].
    apply elem_of_cons in Hx as [-> | Hx]; apply elem_of_cons in Hy as [-> | Hy].
    + reflexivity.
    + exfalso. apply Ha. rewrite Hf. apply list_elem_of_fmap_2, Hy.
    + exfalso. apply Ha. rewrite <- Hf. apply list_elem_of_fmap_2, Hx.
    + apply IH; assumption.
Qed.

(** ** The command buffer *)

Lemma uniform_commands_spec sus : forall i us cmds,
  uniform_commands i sus us = Some cmds ->
  forallb is_uniform_command cmds = true /\
  length cmds = length (List.filter has_command sus).
Proof.
  induction sus as [| su rest IH]; intros i us cmds; simpl.
  - intros [= <-]. auto.
  - destruct (us !! i) as [u |]; simpl; [| discriminate].
    destruct (uniform_commands (S i) rest us) as [cmds' |] eqn:Hrest; simpl; [| discriminate].
    intros [= <-]. destruct (IH _ _ _ Hrest) as [Hall Hlen].
    unfold uniform_command, has_command.
    destruct (su_type su); simpl; rewrite ?Hall, ?Hlen; auto.
Qed.

Lemma texture_commands_spec slots : forall i ts m cmds,
  texture_commands i slots ts m = Some cmds ->
  forallb is_texture_command cmds = true /\
  forall k h t,
    CmdSetTexture k h t ∈ cmds <->
    (i <= k)%nat /\ bound_texture m k = Some t /\
    exists slot, slots !! (k - i)%nat = Some slot /\ m_uniform_handle slot = h.
Proof.
  induction slots as [| slot rest IH]; intros i ts m cmds; simpl.
  - intros [= <-]. split; [reflexivity |]. intros k h t. split.
    + intros Hin. apply elem_of_nil in Hin. destruct Hin.
    + intros (_ & _ & slot & Hl & _). rewrite lookup_nil in Hl. discriminate.
  - destruct (texture_commands (S i) rest ts m) as [cmds' |] eqn:Hrest; simpl; [| discriminate].
    destruct (IH _ _ _ _ Hrest) as [Hall Hiff].
    assert (Hlater : forall k h t,
      (S i <= k)%nat ->
      (CmdSetTexture k h t ∈ cmds' <->
       (i <= k)%nat /\ bound_texture m k = Some t /\
       exists slot0, (slot :: rest) !! (k - i)%nat = Some slot0 /\ m_uniform_handle slot0 = h)).
    { intros k h t Hk. rewrite Hiff.
      replace (k - i)%nat with (S (k - S i)) by lia. simpl. split.
      - intros (_ & Hb & Hs). auto with lia.
      - intros (_ & Hb & Hs). auto with lia. }
    assert (Hskip : bound_texture m i = None ->
      forallb is_texture_command cmds' = true /\
      forall k h t,
        CmdSetTexture k h t ∈ cmds' <->
        (i <= k)%nat /\ bound_texture m k = Some t /\
        exists slot0, (slot :: rest) !! (k - i)%nat = Some slot0 /\ m_uniform_handle slot0 = h).
    { intros Hnone. split; [exact Hall |]. intros k h t.
      destruct (decide (k = i)) as [-> | Hne].
      - split.
        + intros Hin. apply Hiff in Hin as (Hle & _). lia.
        + intros (_ & Hb & _). congruence.
      - split.
        + intros Hin. pose proof Hin as Hin'. apply Hiff in Hin' as (Hle & _).
          apply Hlater; [lia | exact Hin].
        + intros (Hle & Hrest'). apply Hlater; [lia | auto]. }
    unfold bound_texture in Hskip at 1.
    destruct (Nat.leb_spec (m_texture_count m) i) as [Hle | Hlt].
    + intros [= <-]. apply Hskip.
      destruct (Nat.ltb_spec i (m_texture_count m)); [lia | reflexivity].
    + destruct (Nat.ltb_spec i (m_texture_count m)) as [_ |]; [| lia].
      destruct (m_textures m !! i) as [t0 |] eqn:Ht0; simpl; [| discriminate].
      destruct t0 as [id |].
      * destruct (ts !! id) as [tx |]; simpl; [| discriminate].
        intros [= <-]. split; [simpl; exact Hall |].
        assert (Hb : bound_texture m i = Some id).
        { unfold bound_texture. destruct (Nat.ltb_spec i (m_texture_count m)); [| lia].
          rewrite Ht0. reflexivity. }
        intros k h t. rewrite elem_of_cons.
        destruct (decide (k = i)) as [-> | Hne].
        -- split.
           ++ intros [[= -> ->] | Hin].
              ** split; [lia |]. split; [exact Hb |]. exists slot.
                 rewrite Nat.sub_diag. auto.
              ** apply Hiff in Hin as (Hle & _). lia.
           ++ intros (_ & Hb' & slot0 & Hl & Hh). left.
              rewrite Nat.sub_diag in Hl. simpl in Hl. injection Hl as <-.
              rewrite Hb in Hb'. injection Hb' as <-. rewrite Hh. reflexivity.
        -- split.
           ++ intros [[= -> _ _] | Hin]; [congruence |].
              pose proof Hin as Hin'. apply Hiff in Hin' as (Hle & _).
              apply Hlater; [lia | exact Hin].
           ++ intros (Hle & Hrest'). right. apply Hlater; [lia | auto].
      * intros [= <-]. apply Hskip. reflexivity.
Qed.


(** createCommandBuffer on a material with a shader, in one equation. *)
Lemma createCommandBuffer_state s sh shader :
  wf s -> covered s -> m_shader (this s) = Some sh -> shaders s !! sh = Some shader ->
  exists ucmds tcmds r g b,
    uniform_commands 0 (sh_uniforms shader) (m_uniforms (this s)) = Some ucmds /\
    texture_commands 0 (sh_texture_slots shader) (textures s)
      (set_m_command_buffer None (this s)) = Some tcmds /\
    m_color (this s) = (r, g, b) /\
    createCommandBuffer s =
      Some (tt,
            set_this
              (set_m_command_buffer
                 (Some (ucmds ++ tcmds ++
                        [CmdSetUniform getMaterialColorShininessUniform r g b
                           (m_shininess (this s));
                         CmdEnd]))
                 (this s)) s,
            []).
Proof.
  intros Hwf Hcov Hsh Hshader.
  destruct (uniform_commands_defined (sh_uniforms shader) 0 (m_uniforms (this s)))
    as [ucmds Hu]; [apply (Hcov sh shader Hsh Hshader) |].
  destruct (texture_commands_defined (sh_texture_slots shader) 0 (textures s)
              (set_m_command_buffer None (this s))) as [tcmds Ht];
    [apply Hwf | apply Hwf |].
  destruct (m_color (this s)) as [[r g] b] eqn:Hcolor.
  exists ucmds, tcmds, r, g, b.
  split; [exact Hu |]. split; [exact Ht |]. split; [reflexivity |].
  assert (Hrun : runs createCommandBuffer s (fun _ s1 ev =>
    s1 = set_this
           (set_m_command_buffer
              (Some (ucmds ++ tcmds ++
                     [CmdSetUniform getMaterialColorShininessUniform r g b
                        (m_shininess (this s));
                      CmdEnd]))
              (this s)) s /\
    ev = [])).
  { unfold createCommandBuffer. run. simpl. rewrite Hsh.
    run1. run_with Hshader. run1. run_with Hu. run. run_with Ht.
    rewrite Hcolor. run. split; reflexivity. }
  destruct Hrun as ([] & s1 & ev & Hrun & -> & ->). exact Hrun.
Qed.

End ReadyState.

(** X12: once [onBeforeReady] has run, a define that texture slots of the
    shader are tied to is set exactly when the last such slot holds a
    texture, and a define no slot is tied to is as it was.  The slot is
    read from [m_textures] whatever the texture count says.  A mask in
    [0, 2^32) stays there. *)
Theorem onBeforeReady_texture_defines `{Engine} (s : State) (sh : nat) (shader : Shader)
    (d : Z) :
  well_formed s = true ->
  m_shader (this s) = Some sh ->
  shaders s !! sh = Some shader ->
  slots_in_range (sh_texture_slots shader) = true ->
  0 <= d < 32 ->
  exists s1 ev,
    onBeforeReady s = Some (tt, s1, ev) /\
    isDefined (this s1) d =
      match deciding_slot d (sh_texture_slots shader) 0 with
      | Some k => bool_decide (is_Some (slot_pointer (this s) k))
      | None => isDefined (this s) d
      end /\
    (0 <= m_define_mask (this s) < 2 ^ 32 -> 0 <= m_define_mask (this s1) < 2 ^ 32).
Proof.
  intros Hwf%well_formed_wf Hsh Hshader Hrange Hd.
  destruct (onBeforeReady_state s sh shader Hwf Hsh Hshader)
    as (us1 & mask & cb & _ & Hmask & Hrun).
  eexists _, _. split; [exact Hrun |]. cbn [this set_this]. split.
  - rewrite !isDefined_testbit by exact Hd.
    change (m_define_mask
              (set_m_shader_instance (Some (InstanceOf sh mask))
                 (set_m_command_buffer cb
                    (set_m_define_mask mask
                       (set_m_render_states
                          (Z.lor (BGFX_STATE_ALPHA_REF (alpha_ref_byte (m_alpha_ref (this s))))
                             (sh_render_states shader))
                          (set_m_uniforms us1 (this s))))))) with mask.
    apply (texture_defines_testbit _ _ _ _ _ d Hrange Hd Hmask).
  - intros Hm. apply (texture_defines_range _ _ _ _ _ Hm Hmask).
Qed.

(** X13: [onBeforeReady] carries the parsed values to the shader's
    layout: if the uniform table has an entry under the name of the shader's
    uniform [i] (names being told apart by their hashes), then that entry,
    values and all, is the one at index [i] afterwards. *)
Theorem onBeforeReady_carries_values `{Engine} (s : State) (sh : nat) (shader : Shader)
    (i : nat) (su : ShaderUniform) (u : Uniform) :
  well_formed s = true ->
  m_shader (this s) = Some sh ->
  shaders s !! sh = Some shader ->
  NoDup (su_name_hash <$> sh_uniforms shader) ->
  NoDup (name_hash <$> m_uniforms (this s)) ->
  sh_uniforms shader !! i = Some su ->
  u ∈ m_uniforms (this s) ->
  name_hash u = su_name_hash su ->
  exists s1 ev,
    onBeforeReady s = Some (tt, s1, ev) /\
    m_uniforms (this s1) !! i = Some u.
Proof.
  intros Hwf%well_formed_wf Hsh Hshader Hnd Hndu Hi Hu Hhash.
  destruct (onBeforeReady_state s sh shader Hwf Hsh Hshader)
    as (us1 & mask & cb & Hrec & _ & Hrun).
  eexists _, _. split; [exact Hrun |]. cbn [this set_this].
  change (us1 !! i = Some u).
  destruct (reconcile_uniforms_values (m_uniforms (this s)) (sh_uniforms shader) 0
              (m_uniforms (this s)) us1) with (k := i) (su := su)
    as (u' & Hl & Hu' & Hh'); try assumption.
  - lia.
  - intros k u0 _ Hk. eapply list_elem_of_lookup_2, Hk.
  - intros u0 Hu0 _. apply list_elem_of_lookup_1 in Hu0 as [k Hk]. exists k. split; [lia | exact Hk].
  - exists u. auto.
  - simpl in Hl. rewrite Hl. f_equal.
    apply (NoDup_fmap_eq name_hash (m_uniforms (this s))); try assumption. congruence.
Qed.

(** X14: the command buffer [createCommandBuffer] builds for a material
    with a shader: one command for each uniform of the shader that has a
    case in the switch (FLOAT, VEC3, COLOR, TIME), then one texture command
    for each slot of the shader that is in use and holds a texture, and for
    no other slot, then the colour and shininess, then the end marker. *)
Theorem createCommandBuffer_shape `{Engine} (s : State) (sh : nat) (shader : Shader) :
  well_formed s = true ->
  uniforms_cover s = true ->
  m_shader (this s) = Some sh ->
  shaders s !! sh = Some shader ->
  exists ucmds tcmds r g b,
    createCommandBuffer s =
      Some (tt,
            set_this
              (set_m_command_buffer
                 (Some (ucmds ++ tcmds ++
                        [CmdSetUniform getMaterialColorShininessUniform r g b
                           (m_shininess (this s));
                         CmdEnd]))
                 (this s)) s,
            []) /\
    m_color (this s) = (r, g, b) /\
    forallb is_uniform_command ucmds = true /\
    length ucmds = length (List.filter has_command (sh_uniforms shader)) /\
    forallb is_texture_command tcmds = true /\
    forall k h t,
      CmdSetTexture k h t ∈ tcmds <->
      bound_texture (this s) k = Some t /\
      exists slot, sh_texture_slots shader !! k = Some slot /\ m_uniform_handle slot = h.
Proof.
  intros Hwf%well_formed_wf Hcov%uniforms_cover_covered Hsh Hshader.
  destruct (createCommandBuffer_state s sh shader Hwf Hcov Hsh Hshader)
    as (ucmds & tcmds & r & g & b & Hu & Ht & Hcolor & Hrun).
  exists ucmds, tcmds, r, g, b.
  destruct (uniform_commands_spec _ _ _ _ Hu) as [Hua Hul].
  destruct (texture_commands_spec _ _ _ _ _ Ht) as [Hta Hti].
  split; [exact Hrun |]. split; [exact Hcolor |]. split; [exact Hua |].
  split; [exact Hul |]. split; [exact Hta |].
  intros k h t. rewrite Hti. rewrite Nat.sub_0_r.
  change (bound_texture (set_m_command_buffer None (this s)) k)
    with (bound_texture (this s) k).
  split; [intros (_ & Hb & Hs); auto | intros (Hb & Hs); split; [lia | auto]].
Qed.

(** * Texture slots by uniform name *)

Section Slots.

Lemma find_slot_first u slots : forall i0 i slot,
  slots !! i = Some slot -> m_uniform slot = u ->
  (forall k slot', (k < i)%nat -> slots !! k = Some slot' -> m_uniform slot' <> u) ->
  find_slot u slots i0 = Some (i0 + i)%nat.
Proof.
  induction slots as [| slot0 rest IH]; intros i0 i slot Hi Hu Hbefore.
  - rewrite lookup_nil in Hi. discriminate.
  - simpl. unfold compareString. destruct i as [| i]; simpl in Hi.
    + injection Hi as ->. rewrite Hu, String.eqb_refl. f_equal. lia.
    + destruct (String.eqb_spec (m_uniform slot0) u) as [Heq | Hne].
      * exfalso. apply (Hbefore 0%nat slot0); [lia | reflexivity | exact Heq].
      * rewrite (IH (S i0) i slot Hi Hu); [f_equal; lia |].
        intros k slot' Hk Hl. apply (Hbefore (S k) slot'); [lia | exact Hl].
Qed.

Lemma find_slot_absent u slots : forall i0,
  (forall k slot, slots !! k = Some slot -> m_uniform slot <> u) ->
  find_slot u slots i0 = None.
Proof.
  induction slots as [| slot0 rest IH]; intros i0 Hno; simpl; [reflexivity |].
  unfold compareString. destruct (String.eqb_spec (m_uniform slot0) u) as [Heq | Hne].
  - exfalso. apply (Hno 0%nat slot0); [reflexivity | exact Heq].
  - apply IH. intros k slot Hl. apply (Hno (S k) slot). exact Hl.
Qed.

Lemma getTextureByUniform_eq u s sh shader :
  m_shader (this s) = Some sh -> shaders s !! sh = Some shader ->
  getTextureByUniform u s =
  match find_slot u (sh_texture_slots shader) 0 with
  | Some i =>
      match m_textures (this s) !! i with
      | Some t => Some (t, s, [])
      | None => None
      end
  | None => Some (None, s, [])
  end.
Proof.
  intros Hsh Hshader.
  unfold getTextureByUniform, shader_at, self, from_option, bind, gets, ret, undefined, id.
  rewrite Hsh. simpl. rewrite Hshader. simpl.
  destruct (find_slot u (sh_texture_slots shader) 0) as [i |]; [| reflexivity].
  destruct (m_textures (this s) !! i); reflexivity.
Qed.

Lemma NoDup_fmap_lookup {A B : Type} (f : A -> B) (l : list A) i j x y :
  NoDup (f <$> l) -> l !! i = Some x -> l !! j = Some y -> f x = f y -> i = j.
Proof.
  intros Hnd Hi Hj Hf. eapply NoDup_lookup; [exact Hnd | |].
  - rewrite list_lookup_fmap, Hi. reflexivity.
  - rewrite list_lookup_fmap, Hj. simpl. rewrite Hf. reflexivity.
Qed.

End Slots.

(** X15: [getTextureByUniform] returns what the first slot of the shader
    with the given uniform name holds in [m_textures]; slots further on
    with the same name are not looked at, and the texture count is not
    consulted. *)
Theorem getTextureByUniform_first_match (s : State) (sh : nat) (shader : Shader)
    (u : string) (i : nat) (slot : TextureSlot) (t : option nat) :
  m_shader (this s) = Some sh ->
  shaders s !! sh = Some shader ->
  sh_texture_slots shader !! i = Some slot ->
  m_uniform slot = u ->
  (forall k slot', (k < i)%nat -> sh_texture_slots shader !! k = Some slot' ->
                   m_uniform slot' <> u) ->
  m_textures (this s) !! i = Some t ->
  getTextureByUniform u s = Some (t, s, []).
Proof.
  intros Hsh Hshader Hslot Hu Hfirst Ht.
  rewrite (getTextureByUniform_eq u s sh shader Hsh Hshader).
  rewrite (find_slot_first u _ 0 i slot Hslot Hu Hfirst). simpl. rewrite Ht. reflexivity.
Qed.

(** X16: [getTextureByUniform] returns the null pointer for a name that no
    slot of the shader has, and for a material without a shader; it changes
    nothing. *)
Theorem getTextureByUniform_unknown (s : State) (u : string) :
  match m_shader (this s) with
  | Some sh =>
      exists shader,
        shaders s !! sh = Some shader /\
        forall k slot, sh_texture_slots shader !! k = Some slot -> m_uniform slot <> u
  | None => True
  end ->
  getTextureByUniform u s = Some (None, s, []).
Proof.
  destruct (m_shader (this s)) as [sh |] eqn:Hsh.
  - intros (shader & Hshader & Hno).
    rewrite (getTextureByUniform_eq u s sh shader Hsh Hshader).
    rewrite (find_slot_absent u _ 0 Hno). reflexivity.
  - intros _. unfold getTextureByUniform, bind, self, gets, ret, id. rewrite Hsh. reflexivity.
Qed.

(** X17: where the slots of the shader have names of their own,
    [getTextureByUniform] undoes [getTextureUniform]: asked for the name of
    slot [i], it returns what slot [i] of [m_textures] holds.  Neither call
    changes the state. *)
Theorem getTextureByUniform_of_getTextureUniform (s : State) (sh : nat) (shader : Shader)
    (i : nat) (t : option nat) :
  m_shader (this s) = Some sh ->
  shaders s !! sh = Some shader ->
  NoDup (m_uniform <$> sh_texture_slots shader) ->
  (i < length (sh_texture_slots shader))%nat ->
  m_textures (this s) !! i = Some t ->
  exists name,
    getTextureUniform i s = Some (name, s, []) /\
    getTextureByUniform name s = Some (t, s, []).
Proof.
  intros Hsh Hshader Hnd Hi Ht.
  destruct (lookup_lt_is_Some_2 (sh_texture_slots shader) i) as [slot Hslot]; [exact Hi |].
  exists (m_uniform slot). split.
  - unfold getTextureUniform, shader_at, self, from_option, bind, gets, ret, id.
    rewrite Hsh. simpl. rewrite Hshader. simpl.
    apply Nat.ltb_lt in Hi. rewrite Hi. unfold getTextureSlot. rewrite Hslot. reflexivity.
  - rewrite (getTextureByUniform_eq _ s sh shader Hsh Hshader).
    rewrite (find_slot_first (m_uniform slot) _ 0 i slot Hslot eq_refl).
    + simpl. rewrite Ht. reflexivity.
    + intros k slot' Hk Hl Heq.
      pose proof (NoDup_fmap_lookup m_uniform _ k i slot' slot Hnd Hl Hslot Heq). lia.
Qed.

(** X18: after [unload], [getTextureByUniform] still returns the
    textures that were given up: on a material that holds the default
    shader, unload releases the bound textures and sets the texture count to
    0, and every name is answered with the same pointer as before. *)
Theorem getTextureByUniform_after_unload `{Engine} (s : State) :
  well_formed s = true ->
  m_shader (this s) = Some getDefaultShader ->
  exists s1,
    unload s = Some (tt, s1, release_texture_events (bound_textures (this s))) /\
    bound_textures (this s1) = [] /\
    forall u, result (getTextureByUniform u) s1 = result (getTextureByUniform u) s.
Proof.
  intros Hwf%well_formed_wf Hsh.
  destruct (unload_spec s Hwf) as ([] & s1 & ev & Hrun & -> & Hthis & Hschema & _ & _ & _ & _).
  exists s1. split.
  { rewrite Hrun. unfold release_shader_events. rewrite Hsh, Nat.eqb_refl. reflexivity. }
  split; [unfold bound_textures; rewrite Hthis; reflexivity |].
  intros u.
  destruct (lookup_lt_is_Some_2 (shaders s) getDefaultShader) as [sd Hsd]; [apply Hwf |].
  destruct (schema_lookup _ _ _ _ Hschema Hsd) as (sd1 & Hsd1 & Heq).
  assert (Hsh1 : m_shader (this s1) = Some getDefaultShader) by (rewrite Hthis; reflexivity).
  unfold result.
  rewrite (getTextureByUniform_eq u s1 _ sd1 Hsh1 Hsd1).
  rewrite (getTextureByUniform_eq u s _ sd Hsh Hsd).
  replace (sh_texture_slots sd1) with (sh_texture_slots sd)
    by exact (f_equal sh_texture_slots (eq_sym Heq)).
  replace (m_textures (this s1)) with (m_textures (this s)) by (rewrite Hthis; reflexivity).
  destruct (find_slot u (sh_texture_slots sd) 0) as [i |]; [| reflexivity].
  destruct (m_textures (this s) !! i); reflexivity.
Qed.

(** * setTexture and setTexturePath: the slot, the count, the define *)

Section Rebind.
Context `{Engine}.

(** The second half of setTexture, in full. *)
Lemma setTexture_refresh_full (i : nat) s :
  wf s -> (isReady (this s) = true -> covered s) ->
  (i < length (m_textures (this s)))%nat ->
  runs (let* m := self id in
        match isReady m, m_shader m with
        | true, Some sh =>
            let* shader := shader_at sh in
            let define_idx := m_define_idx (getTextureSlot shader i) in
            (if 0 <=? define_idx then
               let* t := from_option (m_textures m !! i) in
               update (set_m_define_mask
                         (with_define define_idx (bool_decide (is_Some t)) (m_define_mask m)))
             else ret tt) >>
            createCommandBuffer >>
            let* mask := self m_define_mask in
            let* instance := getInstance sh mask in
            update (set_m_shader_instance (Some instance))
        | _, _ => ret tt
        end) s
    (fun _ s1 ev =>
       textures s1 = textures s /\ shaders s1 = shaders s /\ kept s s1 /\
       m_shader (this s1) = m_shader (this s) /\
       m_uniforms (this s1) = m_uniforms (this s) /\
       match isReady (this s), m_shader (this s) with
       | true, Some sh =>
           exists shader,
             shaders s !! sh = Some shader /\
             m_define_mask (this s1) =
               slot_define_mask shader i (bool_decide (is_Some (slot_pointer (this s) i)))
                 (m_define_mask (this s)) /\
             m_shader_instance (this s1) = Some (InstanceOf sh (m_define_mask (this s1))) /\
             ev = [GetInstance sh (m_define_mask (this s1))]
       | _, _ => s1 = s /\ ev = []
       end).
Proof.
  intros Hwf Hcov Hi. run. unfold id.
  destruct (isReady (this s)) eqn:Hready;
    [| run; split_and!; solve [reflexivity | apply kept_refl | assumption]].
  destruct (m_shader (this s)) as [sh |] eqn:Hsh;
    [| run; split_and!; solve [reflexivity | apply kept_refl | assumption]].
  destruct (lookup_lt_is_Some_2 (shaders s) sh) as [shader Hshader]; [apply Hwf, Hsh |].
  destruct (lookup_lt_is_Some_2 (m_textures (this s)) i) as [t Ht]; [exact Hi |].
  run1. run_with Hshader. run1.
  set (mask := slot_define_mask shader i (bool_decide (is_Some (slot_pointer (this s) i)))
                 (m_define_mask (this s))).
  assert (Hmask : runs
    (if 0 <=? m_define_idx (getTextureSlot shader i)
     then let* t0 := from_option (m_textures (this s) !! i) in
          update (set_m_define_mask
                    (with_define (m_define_idx (getTextureSlot shader i))
                       (bool_decide (is_Some t0)) (m_define_mask (this s))))
     else ret tt) s
    (fun _ s1 ev => ev = [] /\ s1 = set_this (set_m_define_mask mask (this s)) s)).
  { subst mask. unfold slot_define_mask, slot_pointer. rewrite Ht. cbn [mjoin option_join].
    destruct (0 <=? m_define_idx (getTextureSlot shader i)).
    - cbn [from_option]. run. split; reflexivity.
    - run. split; [reflexivity |]. destruct s as [ts ss m]. destruct m. reflexivity. }
  eapply runs_mono; [exact Hmask |]. cbv beta. intros _ s1 ev1 (-> & ->).
  run1. eapply runs_mono.
  { apply createCommandBuffer_spec.
    - apply (wf_textures_step s); simpl; try assumption; try reflexivity; apply Hwf.
    - intros sh' shader' Hsh' Hl'. simpl in *. apply (Hcov eq_refl sh' shader' Hsh' Hl'). }
  cbv beta. intros _ s2 ev2 (-> & cb & ->). unfold getInstance. run. simpl.
  split; [reflexivity |]. split; [reflexivity |]. split; [repeat split |].
  split; [exact Hsh |]. split; [reflexivity |].
  exists shader. split; [exact Hshader |]. split; [reflexivity |]. split; reflexivity.
Qed.

(** setTexture, in full: what becomes of the stores and of every member,
    and the calls it makes, those on the shader last. *)
Lemma setTexture_full (i : nat) (texture : option nat) s :
  wf s -> (isReady (this s) = true -> covered s) ->
  (i < length (m_textures (this s)))%nat ->
  (forall t, texture = Some t -> (t < length (textures s))%nat) ->
  runs (setTexture i texture) s (fun _ s1 ev =>
    shaders s1 = shaders s /\
    length (textures s1) = length (textures s) /\
    textures_evolve (textures s) (textures s1) /\
    kept (set_this (rebound i texture (this s)) s) s1 /\
    m_shader (this s1) = m_shader (this s) /\
    m_uniforms (this s1) = m_uniforms (this s) /\
    exists prefix tail,
      ev = prefix ++ tail /\ List.filter is_resolution prefix = [] /\
      match isReady (this s), m_shader (this s) with
      | true, Some sh =>
          exists shader,
            shaders s !! sh = Some shader /\
            m_define_mask (this s1) =
              slot_define_mask shader i (bool_decide (is_Some texture))
                (m_define_mask (this s)) /\
            m_shader_instance (this s1) = Some (InstanceOf sh (m_define_mask (this s1))) /\
            tail = [GetInstance sh (m_define_mask (this s1))]
      | _, _ => this s1 = rebound i texture (this s) /\ tail = []
      end).
Proof.
  intros Hwf Hcov Hi Hvalid. unfold setTexture. run. unfold id.
  destruct (lookup_lt_is_Some_2 (m_textures (this s)) i) as [slot Hslot]; [exact Hi |].
  rewrite Hslot.
  (* the old texture *)
  set (old := if (i <? m_texture_count (this s))%nat then slot else None).
  assert (Hold : runs (if (i <? m_texture_count (this s))%nat
                       then from_option (Some slot) else ret None) s
                   (fun r s1 ev => r = old /\ s1 = s /\ ev = [])).
  { subst old. destruct (i <? m_texture_count (this s))%nat; cbn [from_option]; run; auto. }
  eapply runs_mono; [exact Hold |]. cbv beta. intros _ _ _ (-> & -> & ->).
  assert (Hov : forall o, old = Some o -> (o < length (textures s))%nat).
  { subst old. intros o Ho. destruct (i <? m_texture_count (this s))%nat; [| discriminate].
    subst slot. eapply (wf_textures s Hwf), Hslot. }
  clearbody old. clear Hold.
  apply Nat.ltb_lt in Hi. rewrite Hi. apply Nat.ltb_lt in Hi.
  (* the state after the slot and the count are written *)
  set (count1 := if (m_texture_count (this s) <=? i)%nat then (i + 1)%nat
                 else m_texture_count (this s)).
  set (m1 := set_m_texture_count count1
               (set_m_textures (<[i := texture]> (m_textures (this s))) (this s))).
  assert (Hm1 : m1 = rebound i texture (this s)) by reflexivity.
  assert (Hwf1 : forall ts, length ts = length (textures s) -> wf (set_this m1 (set_textures ts s))).
  { intros ts Hts. apply (wf_textures_step s); simpl; try assumption; try reflexivity.
    - apply length_insert.
    - rewrite length_insert. subst count1.
      destruct (Nat.leb_spec (m_texture_count (this s)) i); [lia | apply Hwf].
    - intros k id Hk. rewrite Hts. destruct (decide (i = k)) as [<- | Hne].
      + rewrite list_lookup_insert_eq in Hk by exact Hi. injection Hk as Hk. auto.
      + rewrite list_lookup_insert_ne in Hk by exact Hne. eapply (wf_textures s Hwf), Hk. }
  assert (Hcov1 : forall ts, isReady m1 = true -> covered (set_this m1 (set_textures ts s))).
  { intros ts Hr. apply Hcov in Hr. exact Hr. }
  assert (Hpointer : slot_pointer m1 i = texture).
  { unfold slot_pointer. simpl. rewrite list_lookup_insert_eq by exact Hi. reflexivity. }
  assert (Htail : forall ts prefix,
    length ts = length (textures s) -> textures_evolve (textures s) ts ->
    List.filter is_resolution prefix = [] ->
    forall Q : unit -> State -> list Event -> Prop,
    (forall s1 tail,
       shaders s1 = shaders s /\
       length (textures s1) = length (textures s) /\
       textures_evolve (textures s) (textures s1) /\
       kept (set_this (rebound i texture (this s)) s) s1 /\
       m_shader (this s1) = m_shader (this s) /\
       m_uniforms (this s1) = m_uniforms (this s) /\
       match isReady (this s), m_shader (this s) with
       | true, Some sh =>
           exists shader,
             shaders s !! sh = Some shader /\
             m_define_mask (this s1) =
               slot_define_mask shader i (bool_decide (is_Some texture))
                 (m_define_mask (this s)) /\
             m_shader_instance (this s1) = Some (InstanceOf sh (m_define_mask (this s1))) /\
             tail = [GetInstance sh (m_define_mask (this s1))]
       | _, _ => this s1 = rebound i texture (this s) /\ tail = []
       end -> Q tt s1 tail) ->
    runs (let* m := self id in
        match isReady m, m_shader m with
        | true, Some sh =>
            let* shader := shader_at sh in
            let define_idx := m_define_idx (getTextureSlot shader i) in
            (if 0 <=? define_idx then
               let* t := from_option (m_textures m !! i) in
               update (set_m_define_mask
                         (with_define define_idx (bool_decide (is_Some t)) (m_define_mask m)))
             else ret tt) >>
            createCommandBuffer >>
            let* mask := self m_define_mask in
            let* instance := getInstance sh mask in
            update (set_m_shader_instance (Some instance))
        | _, _ => ret tt
        end) (set_this m1 (set_textures ts s)) Q).
  { intros ts prefix Hts Hev Hpre Q HQ. eapply runs_mono.
    - apply setTexture_refresh_full; [apply Hwf1, Hts | apply Hcov1 |].
      simpl. rewrite length_insert. exact Hi.
    - cbv beta. intros [] s1 ev (Ht & Hs & Hk & Hsh & Hu & Hpost). apply HQ.
      split; [exact Hs |]. split; [rewrite Ht; exact Hts |].
      split; [rewrite Ht; exact Hev |].
      split; [rewrite <- Hm1; exact Hk |].
      split; [exact Hsh |]. split; [exact Hu |].
      cbn [this set_this shaders set_textures] in Hpost.
      change (isReady m1) with (isReady (this s)) in Hpost.
      change (m_shader m1) with (m_shader (this s)) in Hpost.
      change (m_define_mask m1) with (m_define_mask (this s)) in Hpost.
      rewrite Hpointer in Hpost.
      destruct (isReady (this s)); [destruct (m_shader (this s)) |].
      + exact Hpost.
      + destruct Hpost as [-> ->]. auto.
      + destruct Hpost as [-> ->]. auto. }
  assert (Hcount : forall s0 (Q : unit -> State -> list Event -> Prop),
    m_texture_count (this s0) = m_texture_count (this s) ->
    Q tt (set_this (set_m_texture_count count1 (this s0)) s0) [] ->
    runs (if (m_texture_count (this s) <=? i)%nat
          then update (set_m_texture_count (i + 1)) else ret tt) s0 Q).
  { intros s0 Q Hc HQ. subst count1. destruct (m_texture_count (this s) <=? i)%nat; run.
    - exact HQ.
    - rewrite <- Hc in HQ. destruct s0 as [ts0 ss0 m0]. destruct m0. exact HQ. }
  assert (Hfinal : forall prefix s1 tail,
    List.filter is_resolution prefix = [] ->
    (shaders s1 = shaders s /\
     length (textures s1) = length (textures s) /\
     textures_evolve (textures s) (textures s1) /\
     kept (set_this (rebound i texture (this s)) s) s1 /\
     m_shader (this s1) = m_shader (this s) /\
     m_uniforms (this s1) = m_uniforms (this s) /\
     match isReady (this s), m_shader (this s) with
     | true, Some sh =>
         exists shader,
           shaders s !! sh = Some shader /\
           m_define_mask (this s1) =
             slot_define_mask shader i (bool_decide (is_Some texture))
               (m_define_mask (this s)) /\
           m_shader_instance (this s1) = Some (InstanceOf sh (m_define_mask (this s1))) /\
           tail = [GetInstance sh (m_define_mask (this s1))]
     | _, _ => this s1 = rebound i texture (this s) /\ tail = []
     end) ->
    shaders s1 = shaders s /\
    length (textures s1) = length (textures s) /\
    textures_evolve (textures s) (textures s1) /\
    kept (set_this (rebound i texture (this s)) s) s1 /\
    m_shader (this s1) = m_shader (this s) /\
    m_uniforms (this s1) = m_uniforms (this s) /\
    exists prefix0 tail0,
      prefix ++ tail = prefix0 ++ tail0 /\ List.filter is_resolution prefix0 = [] /\
      match isReady (this s), m_shader (this s) with
      | true, Some sh =>
          exists shader,
            shaders s !! sh = Some shader /\
            m_define_mask (this s1) =
              slot_define_mask shader i (bool_decide (is_Some texture))
                (m_define_mask (this s)) /\
            m_shader_instance (this s1) = Some (InstanceOf sh (m_define_mask (this s1))) /\
            tail0 = [GetInstance sh (m_define_mask (this s1))]
      | _, _ => this s1 = rebound i texture (this s) /\ tail0 = []
      end).
  { intros prefix s1 tail Hpre (H1 & H2 & H3 & H4 & H5 & H6 & H7).
    split_and!; try assumption. exists prefix, tail. auto. }
  destruct texture as [t |]; destruct old as [o |].
  - (* both: the atlas size travels *)
    destruct (lookup_lt_is_Some_2 (textures s) o) as [told Hto]; [auto |].
    destruct (lookup_lt_is_Some_2 (textures s) t) as [tnew Htn]; [auto |].
    unfold addDependency, removeDependency, Texture_setAtlasSize, texture_manager_unload.
    run. apply Hcount; [reflexivity |]. run. run_with Hto.
    run. run_with Htn. run.
    destruct (lookup_lt_is_Some_2 (<[t := set_tex_atlas_size (tex_atlas_size told) tnew]>
                                      (textures s)) o) as [told1 Hto1];
      [rewrite length_insert; auto |].
    run_with Hto1. step. norm_state.
    apply (Htail (<[o := add_texture_ref (-1) told1]>
                    (<[t := set_tex_atlas_size (tex_atlas_size told) tnew]> (textures s)))
                 []).
    { change (length (<[o := add_texture_ref (-1) told1]>
                (<[t := set_tex_atlas_size (tex_atlas_size told) tnew]> (textures s)))
              = length (textures s)).
      rewrite !length_insert. reflexivity. }
    { apply (textures_evolve_trans _
               (<[t := set_tex_atlas_size (tex_atlas_size told) tnew]> (textures s))).
      - apply (textures_evolve_insert (textures s) t tnew); [exact Htn | reflexivity].
      - eapply textures_evolve_insert; [exact Hto1 | reflexivity]. }
    { reflexivity. }
    intros s1 tail HP.
    apply (Hfinal [AddDependency (TextureRes t); SetAtlasSize t (tex_atlas_size told);
                   RemoveDependency (TextureRes o); ManagerUnload (TextureRes o)] s1 tail
             eq_refl HP).
  - (* no old texture *)
    unfold addDependency. run. apply Hcount; [reflexivity |]. do 2 step.
    apply (Htail (textures s) []); [reflexivity | apply textures_evolve_refl | reflexivity |].
    intros s1 tail HP.
    apply (Hfinal [AddDependency (TextureRes t)] s1 tail eq_refl HP).
  - (* no new texture: the old one is released *)
    destruct (lookup_lt_is_Some_2 (textures s) o) as [told Hto]; [auto |].
    unfold removeDependency, texture_manager_unload.
    run. apply Hcount; [reflexivity |]. run. run_with Hto. step. norm_state.
    apply (Htail (<[o := add_texture_ref (-1) told]> (textures s)) []).
    { change (length (<[o := add_texture_ref (-1) told]> (textures s))
              = length (textures s)).
      rewrite length_insert. reflexivity. }
    { eapply textures_evolve_insert; [exact Hto | reflexivity]. }
    { reflexivity. }
    intros s1 tail HP.
    apply (Hfinal [RemoveDependency (TextureRes o); ManagerUnload (TextureRes o)] s1 tail
             eq_refl HP).
  - (* neither *)
    run. apply Hcount; [reflexivity |]. do 2 step.
    apply (Htail (textures s) []); [reflexivity | apply textures_evolve_refl | reflexivity |].
    intros s1 tail HP. apply (Hfinal [] s1 tail eq_refl HP).
Qed.

Lemma can_set_texture_spec s i texture :
  can_set_texture s i texture = true ->
  wf s /\ (isReady (this s) = true -> covered s) /\
  (i < length (m_textures (this s)))%nat /\
  (forall t, texture = Some t -> (t < length (textures s))%nat).
Proof.
  unfold can_set_texture. rewrite !andb_true_iff, Nat.ltb_lt.
  intros [[[Hwf Hcov] Hi] Ht]. apply well_formed_wf in Hwf.
  split; [exact Hwf |]. split.
  - intros Hr. rewrite Hr in Hcov. apply uniforms_cover_covered, Hcov.
  - split; [exact Hi |]. intros t ->. apply Nat.ltb_lt, Ht.
Qed.

End Rebind.

(** X19: [setTexture(i, texture)] writes slot [i] and nothing else of
    [m_textures], and raises the texture count to [i + 1] if it was lower (so
    that the slots below [i] come into use with whatever they held); the
    shader store is not touched and every texture keeps its path. *)
Theorem setTexture_binds_slot `{Engine} (s : State) (i : nat) (texture : option nat) :
  can_set_texture s i texture = true ->
  exists s1 ev,
    setTexture i texture s = Some (tt, s1, ev) /\
    m_textures (this s1) = <[i := texture]> (m_textures (this s)) /\
    m_texture_count (this s1) = Nat.max (m_texture_count (this s)) (i + 1) /\
    bound_texture (this s1) i = texture /\
    shaders s1 = shaders s /\
    textures_evolve (textures s) (textures s1).
Proof.
  intros (Hwf & Hcov & Hi & Ht)%can_set_texture_spec.
  destruct (setTexture_full i texture s Hwf Hcov Hi Ht)
    as ([] & s1 & ev & Hrun & Hs & _ & Hev & Hk & _).
  destruct Hk as (_ & _ & _ & Htx & Hc & _). simpl in Htx, Hc.
  assert (Hmax : m_texture_count (this s1) = Nat.max (m_texture_count (this s)) (i + 1)).
  { rewrite Hc. destruct (Nat.leb_spec (m_texture_count (this s)) i); lia. }
  exists s1, ev. split; [exact Hrun |]. split; [exact Htx |]. split; [exact Hmax |].
  split; [| split; [exact Hs | exact Hev]].
  unfold bound_texture. rewrite Hmax, Htx.
  destruct (Nat.ltb_spec i (Nat.max (m_texture_count (this s)) (i + 1))); [| lia].
  rewrite list_lookup_insert_eq by exact Hi. reflexivity.
Qed.

(** X20: on a ready material, [setTexture(i, texture)] makes the define
    that slot [i] of the shader is tied to follow the binding: it is set if
    the texture is non-null and cleared if it is null; no other define
    changes; the shader instance is resolved once, for the new mask, as the
    last call. *)
Theorem setTexture_define_follows `{Engine} (s : State) (i : nat) (texture : option nat)
    (sh : nat) (shader : Shader) (d : Z) :
  can_set_texture s i texture = true ->
  isReady (this s) = true ->
  m_shader (this s) = Some sh ->
  shaders s !! sh = Some shader ->
  m_define_idx (getTextureSlot shader i) = d ->
  0 <= d < 32 ->
  exists s1 ev,
    setTexture i texture s = Some (tt, s1, ev) /\
    isDefined (this s1) d = bool_decide (is_Some texture) /\
    (forall j, 0 <= j < 32 -> j <> d -> isDefined (this s1) j = isDefined (this s) j) /\
    m_shader_instance (this s1) = Some (InstanceOf sh (m_define_mask (this s1))) /\
    resolutions ev = 1%nat /\
    last ev = Some (GetInstance sh (m_define_mask (this s1))).
Proof.
  intros (Hwf & Hcov & Hi & Ht)%can_set_texture_spec Hready Hsh Hshader Hidx Hd.
  destruct (setTexture_full i texture s Hwf Hcov Hi Ht)
    as ([] & s1 & ev & Hrun & _ & _ & _ & _ & _ & _ & prefix & tail & -> & Hpre & Hpost).
  rewrite Hready, Hsh in Hpost. destruct Hpost as (shader' & Hl & Hmask & Hinst & ->).
  rewrite Hshader in Hl. injection Hl as <-.
  unfold slot_define_mask in Hmask. rewrite Hidx in Hmask.
  destruct (Z.leb_spec 0 d) as [_ |]; [| lia].
  exists s1, (prefix ++ [GetInstance sh (m_define_mask (this s1))]).
  split; [exact Hrun |]. split; [| split; [| split; [exact Hinst | split]]].
  - rewrite isDefined_testbit by exact Hd. rewrite Hmask.
    rewrite with_define_testbit by lia. rewrite Z.eqb_refl. reflexivity.
  - intros j Hj Hne. rewrite !isDefined_testbit by exact Hj. rewrite Hmask.
    rewrite with_define_testbit by lia.
    destruct (Z.eqb_spec d j); [congruence | reflexivity].
  - unfold resolutions. rewrite List.filter_app, Hpre. reflexivity.
  - apply last_snoc.
Qed.

(** X21: on a material that is not ready, [setTexture(i, texture)] writes
    the slot and the count and nothing else: the define mask, the command
    buffer and the shader-instance pointer stay, and no shader instance is
    resolved. *)
Theorem setTexture_not_ready `{Engine} (s : State) (i : nat) (texture : option nat) :
  can_set_texture s i texture = true ->
  isReady (this s) = false ->
  exists s1 ev,
    setTexture i texture s = Some (tt, s1, ev) /\
    this s1 = rebound i texture (this s) /\
    m_define_mask (this s1) = m_define_mask (this s) /\
    m_command_buffer (this s1) = m_command_buffer (this s) /\
    m_shader_instance (this s1) = m_shader_instance (this s) /\
    resolutions ev = 0%nat.
Proof.
  intros (Hwf & Hcov & Hi & Ht)%can_set_texture_spec Hready.
  destruct (setTexture_full i texture s Hwf Hcov Hi Ht)
    as ([] & s1 & ev & Hrun & _ & _ & _ & _ & _ & _ & prefix & tail & -> & Hpre & Hpost).
  rewrite Hready in Hpost. destruct Hpost as [Hthis ->].
  exists s1, (prefix ++ []). split; [exact Hrun |]. split; [exact Hthis |].
  rewrite Hthis. do 3 (split; [reflexivity |]).
  unfold resolutions. rewrite app_nil_r, Hpre. reflexivity.
Qed.

(** X22: [setTexturePath(i, path)] with a non-empty path asks the texture
    manager for the path first and binds what it gets: slot [i] then holds a
    texture of the store whose path is [path]. *)
Theorem setTexturePath_binds_path `{Engine} (s : State) (i : nat) (path : string) :
  can_set_texture s i None = true ->
  is_empty_string path = false ->
  exists s1 ev id t,
    setTexturePath i path s = Some (tt, s1, ev) /\
    head ev = Some (ManagerLoad (TextureRes id)) /\
    m_textures (this s1) !! i = Some (Some id) /\
    textures s1 !! id = Some t /\
    tex_path t = path.
Proof.
  intros (Hwf & Hcov & Hi & _)%can_set_texture_spec Hpath.
  assert (Hrun : runs (setTexturePath i path) s (fun _ s1 ev =>
    exists id t,
      head ev = Some (ManagerLoad (TextureRes id)) /\
      m_textures (this s1) !! i = Some (Some id) /\
      textures s1 !! id = Some t /\ tex_path t = path)).
  { unfold setTexturePath. rewrite Hpath. run1.
    eapply runs_mono; [apply texture_manager_load_spec |]. cbv beta.
    intros id s0 ev0 (Hthis & Hsh & Hev & (t & Hid & Hp) & ->).
    assert (Hwf0 : wf s0).
    { apply (wf_textures_step s); try assumption; rewrite ?Hthis; try reflexivity.
      - apply Hwf.
      - intros k id' Hk. apply (wf_textures s Hwf) in Hk. destruct Hev as [Hlen _]. lia. }
    eapply runs_mono.
    { apply (setTexture_full i (Some id) s0 Hwf0).
      - rewrite Hthis. intros Hr. intros sh' shader' Hsh' Hl'.
        rewrite Hthis in Hsh'. rewrite Hsh in Hl'. rewrite Hthis.
        apply (Hcov Hr sh' shader' Hsh' Hl').
      - rewrite Hthis. exact Hi.
      - intros t' [= <-]. eapply lookup_lt_Some, Hid. }
    cbv beta. intros _ s1 ev1 (_ & _ & Hev1 & Hk & _).
    destruct Hk as (_ & _ & _ & Htx & _). simpl in Htx.
    destruct Hev1 as [_ Hpaths]. destruct (Hpaths id t Hid) as (t1 & Hid1 & Hp1).
    exists id, t1. split; [reflexivity |]. split.
    - rewrite Htx, Hthis. apply list_lookup_insert_eq. exact Hi.
    - split; [exact Hid1 | congruence]. }
  destruct Hrun as ([] & s1 & ev & Hrun & id & t & Hpost).
  exists s1, ev, id, t. split; [exact Hrun | exact Hpost].
Qed.

(** * Parsing: defines, uniforms, texture blocks *)

Section Parsing.
Context `{Engine}.

Lemma fold_defines_testbit (idx : jvalue -> Z) items : forall m0 k,
  0 <= k < 32 -> (forall item, item ∈ items -> 0 <= idx item < 32) ->
  Z.testbit (foldl (fun mask item => Z.lor mask (define_bit (idx item))) m0 items) k =
  Z.testbit m0 k || existsb (fun item => idx item =? k) items.
Proof.
  induction items as [| item rest IH]; intros m0 k Hk Hin; simpl.
  - rewrite orb_false_r. reflexivity.
  - rewrite IH; [| exact Hk | intros x Hx; apply Hin; right; exact Hx].
    rewrite Z.lor_spec, define_bit_testbit; [| apply Hin; left | lia].
    rewrite orb_assoc. reflexivity.
Qed.

Lemma fold_defines_range (idx : jvalue -> Z) items : forall m0,
  0 <= m0 < 2 ^ 32 ->
  0 <= foldl (fun mask item => Z.lor mask (define_bit (idx item))) m0 items < 2 ^ 32.
Proof.
  induction items as [| item rest IH]; intros m0 Hm; simpl; [exact Hm |].
  apply IH, lor_range; [exact Hm | apply u32_range].
Qed.

Lemma uniform_entry_log label v u :
  snd (deserializeUniform_entry label v u) =
  if known_uniform_key label then [] else [LogWarning label].
Proof.
  unfold deserializeUniform_entry, known_uniform_key, compareString. cbn [existsb].
  repeat (destruct (String.eqb label _); [reflexivity |]). reflexivity.
Qed.

Lemma uniform_entries_log entries : forall u,
  snd (deserializeUniform_entries entries u) =
  LogWarning <$> List.filter (fun label => negb (known_uniform_key label)) (fst <$> entries).
Proof.
  induction entries as [| [label v] rest IH]; intros u; simpl; [reflexivity |].
  pose proof (uniform_entry_log label v u) as Hlog.
  destruct (deserializeUniform_entry label v u) as [u1 log1]. simpl in Hlog.
  specialize (IH u1). destruct (deserializeUniform_entries rest u1) as [u2 log2].
  simpl in IH. simpl. rewrite Hlog, IH.
  destruct (known_uniform_key label); reflexivity.
Qed.

Lemma get_word_set_word_eq j v u : (j < 16)%nat -> get_word (set_word j v u) j = v.
Proof.
  intros Hj. unfold get_word, set_word. simpl.
  rewrite list_lookup_insert_eq by (rewrite length_resize; exact Hj). reflexivity.
Qed.

Lemma get_word_set_word_ne j k v u :
  j <> k -> (k < 16)%nat -> get_word (set_word j v u) k = get_word u k.
Proof.
  intros Hne Hk. unfold get_word, set_word. simpl.
  rewrite list_lookup_insert_ne by exact Hne.
  destruct (decide (k < length (words u))%nat) as [Hlt | Hge].
  - rewrite lookup_resize by assumption. reflexivity.
  - rewrite lookup_resize_new by lia. rewrite lookup_ge_None_2 by lia. reflexivity.
Qed.

Lemma name_hash_set_word j v u : name_hash (set_word j v u) = name_hash u.
Proof. reflexivity. Qed.

Lemma fold_words_spec (items : list jvalue) : forall len start u j,
  (start + len <= 16)%nat -> (j < 16)%nat ->
  get_word (foldl (fun acc k => set_word k (read_float_item items k F32.zero) acc) u
              (seq start len)) j =
  if decide (start <= j < start + len)%nat then read_float_item items j F32.zero
  else get_word u j.
Proof.
  induction len as [| len IH]; intros start u j Hlen Hj; simpl.
  - destruct (decide _); [lia | reflexivity].
  - rewrite IH by lia.
    destruct (decide (S start <= j < S start + len)%nat) as [Hin | Hout].
    + destruct (decide _); [reflexivity | lia].
    + destruct (decide (j = start)) as [-> | Hne].
      * rewrite get_word_set_word_eq by lia. destruct (decide _); [reflexivity | lia].
      * rewrite get_word_set_word_ne by lia. destruct (decide _); [lia | reflexivity].
Qed.

Lemma fold_words_hash (items : list jvalue) : forall l u,
  name_hash (foldl (fun acc k => set_word k (read_float_item items k F32.zero) acc) u l)
  = name_hash u.
Proof. induction l as [| k l IH]; intros u; simpl; [reflexivity | rewrite IH; reflexivity]. Qed.

(** One member of a uniform object, word by word. *)
Lemma uniform_entry_word label v u j :
  (j < 16)%nat ->
  get_word (fst (deserializeUniform_entry label v u)) j =
  match member_word label v j with Some w => w | None => get_word u j end.
Proof.
  intros Hj. unfold deserializeUniform_entry, member_word, compareString, read_float_items.
  destruct (String.eqb_spec label "name") as [-> | N0]; [reflexivity |].
  destruct (String.eqb_spec label "int_value") as [-> | N1].
  { cbn [fst]. destruct (Nat.eqb_spec j 0) as [-> | Hne].
    - apply get_word_set_word_eq. lia.
    - apply get_word_set_word_ne; [congruence | exact Hj]. }
  destruct (String.eqb_spec label "float_value") as [-> | N2].
  { cbn [fst orb]. destruct (Nat.eqb_spec j 0) as [-> | Hne].
    - apply get_word_set_word_eq. lia.
    - apply get_word_set_word_ne; [congruence | exact Hj]. }
  destruct (String.eqb_spec label "matrix_value") as [-> | N3].
  { cbn [fst orb String.eqb Ascii.eqb Bool.eqb]. rewrite fold_words_spec by lia.
    destruct (decide _) as [Hin | Hout]; destruct (Nat.ltb_spec j 16); try reflexivity; lia. }
  destruct (String.eqb_spec label "time") as [-> | N4].
  { cbn [fst orb]. destruct (Nat.eqb_spec j 0) as [-> | Hne].
    - apply get_word_set_word_eq. lia.
    - apply get_word_set_word_ne; [congruence | exact Hj]. }
  destruct (String.eqb_spec label "color") as [-> | N5].
  { cbn [fst orb]. rewrite fold_words_spec by lia.
    destruct (decide _) as [Hin | Hout]; destruct (Nat.ltb_spec j 3); try reflexivity; lia. }
  destruct (String.eqb_spec label "vec3") as [-> | N6].
  { cbn [fst orb]. rewrite fold_words_spec by lia.
    destruct (decide _) as [Hin | Hout]; destruct (Nat.ltb_spec j 3); try reflexivity; lia. }
  reflexivity.
Qed.

Lemma uniform_entry_hash label v u :
  name_hash (fst (deserializeUniform_entry label v u)) =
  if String.eqb label "name" then crc32 (read_string 32 v "") else name_hash u.
Proof.
  unfold deserializeUniform_entry, compareString, read_float_items.
  destruct (String.eqb label "name"); [reflexivity |].
  repeat match goal with
  | |- context [if String.eqb label ?k then _ else _] =>
      destruct (String.eqb label k); [cbn [fst]; rewrite ?fold_words_hash; reflexivity |]
  end.
  reflexivity.
Qed.

(** The members of a uniform object: for each word, and for the name, the
    last member that writes it decides. *)
Lemma uniform_entries_word j entries : forall u acc d,
  (j < 16)%nat -> get_word u j = default d acc ->
  get_word (fst (deserializeUniform_entries entries u)) j =
  default d (foldl (fun acc e => match member_word (fst e) (snd e) j with
                                 | Some w => Some w
                                 | None => acc
                                 end) acc entries).
Proof.
  induction entries as [| [label v] rest IH]; intros u acc d Hj Hu; cbn [foldl fst snd].
  - exact Hu.
  - cbn [deserializeUniform_entries].
    pose proof (uniform_entry_word label v u j Hj) as Hw.
    destruct (deserializeUniform_entry label v u) as [u1 log1]. cbn [fst] in Hw.
    specialize (IH u1 (match member_word label v j with Some w => Some w | None => acc end) d Hj).
    destruct (deserializeUniform_entries rest u1) as [u2 log2]. cbn [fst] in *.
    apply IH. rewrite Hw. destruct (member_word label v j); [reflexivity | exact Hu].
Qed.

Lemma uniform_entries_hash entries : forall u acc d,
  name_hash u = default d ((fun n => crc32 (read_string 32 n "")) <$> acc) ->
  name_hash (fst (deserializeUniform_entries entries u)) =
  default d ((fun n => crc32 (read_string 32 n "")) <$>
             foldl (fun acc e => if String.eqb (fst e) "name" then Some (snd e) else acc)
                   acc entries).
Proof.
  induction entries as [| [label v] rest IH]; intros u acc d Hu; cbn [foldl fst snd].
  - exact Hu.
  - cbn [deserializeUniform_entries].
    pose proof (uniform_entry_hash label v u) as Hh.
    destruct (deserializeUniform_entry label v u) as [u1 log1]. cbn [fst] in Hh.
    specialize (IH u1 (if String.eqb label "name" then Some v else acc) d).
    destruct (deserializeUniform_entries rest u1) as [u2 log2]. cbn [fst] in *.
    apply IH. rewrite Hh. destruct (String.eqb label "name"); [reflexivity | exact Hu].
Qed.

(** ** Texture blocks *)

(** What one known member makes of the locals. *)
Lemma deserializeTexture_entry_block dir label v blk s blk1 s1 ev :
  deserializeTexture_entry dir label v blk s = Some (Some blk1, s1, ev) ->
  flags blk1 = Z.lor (flags blk) (member_flag label v) /\
  atlas_size blk1 =
    (if String.eqb label "atlas_size" then read_int v (-1) else atlas_size blk).
Proof.
  unfold deserializeTexture_entry, member_flag, compareString.
  destruct (String.eqb_spec label "source") as [-> | N1].
  { cbn [String.eqb Ascii.eqb Bool.eqb].
    destruct (negb (is_empty_string (read_string MAX_PATH_LENGTH v ""))).
    - unfold bind.
      destruct (texture_manager_load _ s) as [[[id s0] ev0] |]; [| discriminate].
      destruct (set_current_slot (Some id) s0) as [[[[] s2] ev2] |]; [| discriminate].
      unfold addDependency, emit, ret. intros [= <- _ _]. rewrite Z.lor_0_r. auto.
    - unfold ret. intros [= <- _ _]. rewrite Z.lor_0_r. auto. }
  destruct (String.eqb_spec label "atlas_size") as [-> | N2].
  { cbn [String.eqb Ascii.eqb Bool.eqb]. unfold ret. intros [= <- _ _]. simpl.
    rewrite Z.lor_0_r. auto. }
  destruct (String.eqb_spec label "min_filter") as [-> | N3].
  { cbn [String.eqb Ascii.eqb Bool.eqb].
    destruct (String.eqb (read_string 256 v "") "point");
      [| destruct (String.eqb (read_string 256 v "") "anisotropic")];
      unfold bind, emit, ret; intros [= <- _ _]; simpl; rewrite ?Z.lor_0_r; auto. }
  destruct (String.eqb_spec label "mag_filter") as [-> | N4].
  { cbn [String.eqb Ascii.eqb Bool.eqb].
    destruct (String.eqb (read_string 256 v "") "point");
      [| destruct (String.eqb (read_string 256 v "") "anisotropic")];
      unfold bind, emit, ret; intros [= <- _ _]; simpl; rewrite ?Z.lor_0_r; auto. }
  destruct (String.eqb_spec label "u_clamp") as [-> | N5].
  { cbn [String.eqb Ascii.eqb Bool.eqb]. unfold ret. intros [= <- _ _].
    destruct (read_bool v false); simpl; rewrite ?Z.lor_0_r; auto. }
  destruct (String.eqb_spec label "v_clamp") as [-> | N6].
  { cbn [String.eqb Ascii.eqb Bool.eqb]. unfold ret. intros [= <- _ _].
    destruct (read_bool v false); simpl; rewrite ?Z.lor_0_r; auto. }
  destruct (String.eqb_spec label "w_clamp") as [-> | N7].
  { cbn [String.eqb Ascii.eqb Bool.eqb]. unfold ret. intros [= <- _ _].
    destruct (read_bool v false); simpl; rewrite ?Z.lor_0_r; auto. }
  destruct (String.eqb_spec label "keep_data") as [-> | N8].
  { cbn [String.eqb Ascii.eqb Bool.eqb]. unfold ret. intros [= <- _ _]. simpl.
    rewrite Z.lor_0_r. auto. }
  destruct (String.eqb_spec label "srgb") as [-> | N9].
  { unfold ret. intros [= <- _ _].
    destruct (read_bool v false); simpl; rewrite ?Z.lor_0_r; auto. }
  unfold bind, emit, ret. discriminate.
Qed.

Lemma deserializeTexture_entries_block dir entries : forall blk s blk1 s1 ev,
  deserializeTexture_entries dir entries blk s = Some (Some blk1, s1, ev) ->
  flags blk1 = foldl (fun fl e => Z.lor fl (member_flag (fst e) (snd e))) (flags blk) entries /\
  atlas_size blk1 =
    foldl (fun a e => if String.eqb (fst e) "atlas_size" then read_int (snd e) (-1) else a)
          (atlas_size blk) entries.
Proof.
  induction entries as [| [label v] rest IH]; intros blk s blk1 s1 ev; simpl.
  - unfold ret. intros [= <- _ _]. auto.
  - unfold bind.
    destruct (deserializeTexture_entry dir label v blk s) as [[[r s0] ev0] |] eqn:Hentry;
      [| discriminate].
    destruct r as [blk0 |]; [| discriminate].
    destruct (deserializeTexture_entries dir rest blk0 s0) as [[[r2 s2] ev2] |] eqn:Hrest;
      [| discriminate].
    intros [= -> <- _].
    destruct (deserializeTexture_entry_block _ _ _ _ _ _ _ _ Hentry) as [Hf Ha].
    destruct (IH _ _ _ _ _ Hrest) as [Hf2 Ha2].
    rewrite Hf2, Ha2, Hf, Ha. auto.
Qed.

End Parsing.

Section Blocks.
Context `{Engine}.

Lemma concat_fmap_fmap {A B : Type} (f : A -> B) (ls : list (list A)) :
  concat ((fun l : list A => f <$> l) <$> ls) = f <$> concat ls.
Proof.
  induction ls as [| l rest IH]; [reflexivity |].
  rewrite fmap_cons. cbn [concat]. rewrite IH, fmap_app. reflexivity.
Qed.

Lemma bound_textures_slot_step s s1 :
  slot_step s s1 -> bound_textures (this s1) = bound_textures (this s).
Proof.
  intros Hstep. pose proof (slot_step_count _ _ Hstep) as Hc.
  destruct Hstep as (_ & _ & Hl & Hk & _).
  unfold bound_textures. rewrite Hc. f_equal.
  apply list_eq. intros k. rewrite !lookup_take.
  destruct (decide (k < m_texture_count (this s))%nat) as [Hlt | Hge]; [| reflexivity].
  apply Hk. lia.
Qed.

(** A texture block all of whose members are known, in full. *)
Lemma deserializeTexture_settings_spec v dir s :
  wf s -> (m_texture_count (this s) < length (m_textures (this s)))%nat ->
  texture_block_ok v = true ->
  runs (deserializeTexture v dir) s (fun ok s1 ev =>
    ok = true /\
    m_texture_count (this s1) = S (m_texture_count (this s)) /\
    bound_textures (this s1) =
      bound_textures (this s) ++
      match slot_pointer (this s1) (m_texture_count (this s)) with
      | Some id => [id]
      | None => []
      end /\
    match slot_pointer (this s1) (m_texture_count (this s)) with
    | Some id =>
        exists t, textures s1 !! id = Some t /\
                  tex_flags t = block_flags (object_entries v) /\
                  tex_atlas_size t = block_atlas_size (object_entries v)
    | None => True
    end).
Proof.
  intros Hwf Hlt Hok. unfold texture_block_ok in Hok.
  destruct (deserializeTexture_entries_spec dir (object_entries v)
              {| keep_data := false; flags := 0; atlas_size := -1 |} s Hwf Hlt)
    as (r & s1 & ev1 & Hrun1 & Hwf1 & Hstep & Hr).
  rewrite Hok in Hr. destruct r as [blk |]; [| discriminate].
  destruct (deserializeTexture_entries_block _ _ _ _ _ _ _ Hrun1) as [Hf Ha].
  pose proof (slot_step_count _ _ Hstep) as Hc.
  pose proof (bound_textures_slot_step _ _ Hstep) as Hb.
  unfold deserializeTexture. run1. eapply runs_of_eq; [exact Hrun1 |]. cbv beta iota.
  run. unfold id.
  destruct (lookup_lt_is_Some_2 (m_textures (this s1)) (m_texture_count (this s1)))
    as [t Ht].
  { rewrite Hc. destruct Hstep as (_ & _ & -> & _). exact Hlt. }
  run_with Ht. run1.
  assert (Htake : forall m : Material,
    m_textures m = m_textures (this s1) ->
    m_texture_count m = S (m_texture_count (this s)) ->
    bound_textures m =
      bound_textures (this s) ++ match t with Some id => [id] | None => [] end).
  { intros m Hm Hcm. unfold bound_textures in *. rewrite Hm, Hcm.
    rewrite <- Hc in *. rewrite (take_S_r _ _ _ Ht), omap_app, Hb.
    destruct t; reflexivity. }
  assert (Hptr : forall m : Material,
    m_textures m = m_textures (this s1) ->
    slot_pointer m (m_texture_count (this s)) = t).
  { intros m Hm. unfold slot_pointer. rewrite Hm, <- Hc, Ht. reflexivity. }
  destruct t as [texture |].
  - destruct (lookup_lt_is_Some_2 (textures s1) texture) as [tx Htx];
      [eapply (wf_textures s1 Hwf1), Ht |].
    eapply runs_mono; [apply (texture_settings_spec texture blk tx), Htx |].
    cbv beta. intros _ s2 ev2 (Hthis2 & _ & _ & _ & t1 & Hts2 & _ & Hfl & Hat).
    run. simpl. rewrite Hthis2.
    split; [reflexivity |]. split; [rewrite Hc; reflexivity |].
    rewrite (Hptr (set_m_texture_count (S (m_texture_count (this s1))) (this s1)) eq_refl).
    split; [apply Htake; [reflexivity | simpl; rewrite Hc; reflexivity] |].
    exists t1. split.
    + rewrite Hts2. apply list_lookup_insert_eq. eapply lookup_lt_Some, Htx.
    + unfold block_flags, block_atlas_size. rewrite Hfl, Hat, Hf, Ha. auto.
  - run. simpl.
    split; [reflexivity |]. split; [rewrite Hc; reflexivity |].
    rewrite (Hptr (set_m_texture_count (S (m_texture_count (this s1))) (this s1)) eq_refl).
    split; [apply Htake; [reflexivity | simpl; rewrite Hc; reflexivity] | exact I].
Qed.

End Blocks.

(** X23: [deserializeDefines] rebuilds the define mask from nothing: a
    define is set afterwards exactly if the array names it, whatever the
    mask held before; the mask is a 32-bit value and nothing else of the
    material is written. *)
Theorem deserializeDefines_rebuilds_mask `{Engine} (s : State) (v : jvalue) (k : Z) :
  0 <= k < 32 ->
  forallb (fun item => (0 <=? define_of_item item) && (define_of_item item <? 32))
          (array_items v) = true ->
  exists s1,
    deserializeDefines v s = Some (tt, s1, []) /\
    isDefined (this s1) k = existsb (fun item => define_of_item item =? k) (array_items v) /\
    0 <= m_define_mask (this s1) < 2 ^ 32 /\
    s1 = set_this (set_m_define_mask (m_define_mask (this s1)) (this s)) s.
Proof.
  intros Hk Hin. rewrite deserializeDefines_eq. eexists. split; [reflexivity |].
  cbn [this set_this].
  change (m_define_mask (set_m_define_mask (parsed_defines v) (this s)))
    with (parsed_defines v).
  change (parsed_defines v)
    with (foldl (fun mask item => Z.lor mask (define_bit (define_of_item item))) 0
            (array_items v)).
  split; [| split; [| reflexivity]].
  - rewrite isDefined_testbit by exact Hk. cbn [m_define_mask set_m_define_mask].
    rewrite (fold_defines_testbit define_of_item); [rewrite Z.bits_0; reflexivity | exact Hk |].
    intros item Hitem. rewrite forallb_forall in Hin.
    apply list_elem_of_In, Hin in Hitem. apply andb_true_iff in Hitem as [H1 H2].
    apply Z.leb_le in H1. apply Z.ltb_lt in H2. lia.
  - apply (fold_defines_range define_of_item). lia.
Qed.

(** X24: [deserializeUniforms] replaces the uniform table, whatever
    it held, by one entry for each item of the array, in order.  The entry
    for an item has the hash of the item's last [name] member, and in each
    word of its value union what the last member that writes that word
    stores there ([int_value], [float_value] and [time] write word 0,
    [color] and [vec3] words 0 to 2, [matrix_value] all sixteen); what no
    member writes is as the new entry was created.  One warning is logged
    for each member that has no case, in document order, and nothing else
    of the material is written. *)
Theorem deserializeUniforms_replaces_table `{Engine} (s : State) (v : jvalue) :
  exists s1,
    deserializeUniforms v s =
      Some (tt, s1, LogWarning <$> concat (unknown_uniform_labels <$> array_items v)) /\
    length (m_uniforms (this s1)) = length (array_items v) /\
    s1 = set_this (set_m_uniforms (m_uniforms (this s1)) (this s)) s /\
    (forall s', m_uniforms (this (after (deserializeUniforms v) s')) = m_uniforms (this s1)) /\
    (forall k item,
       array_items v !! k = Some item ->
       exists u,
         m_uniforms (this s1) !! k = Some u /\
         name_hash u =
           match last_member "name" (object_entries item) with
           | Some n => crc32 (read_string 32 n "")
           | None => name_hash fresh_uniform
           end /\
         forall j, (j < 16)%nat ->
           get_word u j =
             match last_write j (object_entries item) with
             | Some w => w
             | None => get_word fresh_uniform j
             end).
Proof.
  rewrite deserializeUniforms_eq.
  exists (set_this (set_m_uniforms (parsed_uniforms v) (this s)) s).
  cbn [this set_this].
  change (m_uniforms (set_m_uniforms (parsed_uniforms v) (this s)))
    with (parsed_uniforms v).
  split; [| split; [| split; [reflexivity | split]]].
  - f_equal. f_equal. unfold uniforms_log, unknown_uniform_labels.
    rewrite <- concat_fmap_fmap. f_equal. rewrite <- list_fmap_compose.
    apply list_fmap_ext. intros _ item _. simpl. apply uniform_entries_log.
  - unfold parsed_uniforms. apply length_fmap.
  - intros s'. unfold after. rewrite deserializeUniforms_eq. reflexivity.
  - intros k item Hitem. unfold parsed_uniforms. rewrite list_lookup_fmap, Hitem.
    eexists. split; [reflexivity |]. split.
    + unfold last_member.
      rewrite (uniform_entries_hash (object_entries item) fresh_uniform None
                 (name_hash fresh_uniform) eq_refl).
      destruct (foldl _ None (object_entries item)); reflexivity.
    + intros j Hj. unfold last_write.
      rewrite (uniform_entries_word j (object_entries item) fresh_uniform None
                 (get_word fresh_uniform j) Hj eq_refl).
      destruct (foldl _ None (object_entries item)); reflexivity.
Qed.

(** X25: a texture block is read up to its first unknown member and no
    further: deserializeTexture returns false with the state the members
    before it left (a texture they loaded stays loaded, and bound in the slot
    at the texture count) and one warning for the unknown member; the texture
    count and the slots in use are as before. *)
Theorem deserializeTexture_stops_at_unknown `{Engine} (s : State) (dir : string)
    (pre post : list (string * jvalue)) (label : string) (v : jvalue) :
  well_formed s = true ->
  (m_texture_count (this s) <? length (m_textures (this s)))%nat = true ->
  forallb (fun e => known_texture_key (fst e)) pre = true ->
  known_texture_key label = false ->
  exists blk s1 ev1,
    deserializeTexture_entries dir pre {| keep_data := false; flags := 0; atlas_size := -1 |} s
      = Some (Some blk, s1, ev1) /\
    deserializeTexture (JObject (pre ++ (label, v) :: post)) dir s
      = Some (false, s1, ev1 ++ [LogWarning label]) /\
    m_texture_count (this s1) = m_texture_count (this s) /\
    bound_textures (this s1) = bound_textures (this s).
Proof.
  intros Hwf%well_formed_wf Hlt%Nat.ltb_lt Hpre Hlabel.
  destruct (deserializeTexture_entries_spec dir pre
              {| keep_data := false; flags := 0; atlas_size := -1 |} s Hwf Hlt)
    as (r & s1 & ev1 & Hrun1 & Hwf1 & Hstep & Hr).
  rewrite Hpre in Hr. destruct r as [blk |]; [| discriminate].
  exists blk, s1, ev1. split; [exact Hrun1 |]. split.
  - unfold deserializeTexture. cbn [object_entries]. unfold bind at 1.
    rewrite deserializeTexture_entries_app, Hrun1. cbn [deserializeTexture_entries].
    unfold bind at 1. rewrite (deserializeTexture_entry_unknown dir label v blk s1 Hlabel).
    unfold ret. rewrite app_nil_r. reflexivity.
  - split; [apply (slot_step_count _ _ Hstep) | apply (bound_textures_slot_step _ _ Hstep)].
Qed.

(** X26: a texture block all of whose members are known takes the next
    slot: the texture count goes up by one, and the texture the slot then
    holds (the one its source named, or whatever the slot held if the block
    names none) has its flags replaced by those of the block's members or-ed
    together and its atlas size by that of the block's last [atlas_size]
    member, -1 if there is none. *)
Theorem deserializeTexture_settings `{Engine} (s : State) (dir : string) (v : jvalue) :
  well_formed s = true ->
  (m_texture_count (this s) <? length (m_textures (this s)))%nat = true ->
  texture_block_ok v = true ->
  exists s1 ev,
    deserializeTexture v dir s = Some (true, s1, ev) /\
    m_texture_count (this s1) = S (m_texture_count (this s)) /\
    bound_textures (this s1) =
      bound_textures (this s) ++
      match slot_pointer (this s1) (m_texture_count (this s)) with
      | Some id => [id]
      | None => []
      end /\
    match slot_pointer (this s1) (m_texture_count (this s)) with
    | Some id =>
        exists t, textures s1 !! id = Some t /\
                  tex_flags t = block_flags (object_entries v) /\
                  tex_atlas_size t = block_atlas_size (object_entries v)
    | None => True
    end.
Proof.
  intros Hwf%well_formed_wf Hlt%Nat.ltb_lt Hok.
  destruct (deserializeTexture_settings_spec v dir s Hwf Hlt Hok)
    as (ok & s1 & ev & Hrun & -> & Hpost).
  exists s1, ev. split; [exact Hrun | exact Hpost].
Qed.

(** X27: [load] returns false exactly when the document has a texture
    block with a member deserializeTexture does not know.  When it returns
    true, the texture count is the one before plus the number of texture
    blocks (load does not reset it), and the alpha reference is that of the
    document's last [alpha_ref] member, the default 0.3 if it has none. *)
Theorem load_result `{Engine} (s : State) (file : jvalue) (size : Z) :
  loadable s file = true ->
  exists s1 ev,
    load file size s =
      Some (negb (has_bad_texture_block (object_entries file)), s1, ev) /\
    well_formed s1 = true /\
    (has_bad_texture_block (object_entries file) = false ->
     m_texture_count (this s1) =
       (m_texture_count (this s) + texture_blocks (object_entries file))%nat /\
     m_alpha_ref (this s1) = doc_alpha_ref (object_entries file) DEFAULT_ALPHA_REF_VALUE).
Proof.
  intros (Hwf & Hsh & Hcap)%loadable_spec.
  destruct (load_spec file size s Hwf Hsh Hcap)
    as (ok & s1 & ev & Hrun & Hwf1 & _ & _ & -> & Hok & _).
  exists s1, ev. split; [exact Hrun |]. split; [apply well_formed_wf, Hwf1 |].
  intros Hgood. apply Hok. rewrite Hgood. reflexivity.
Qed.

(** * save, and loading what it wrote *)

Section Save.
Context `{Engine}.

Lemma flag_entry_ok fl flag label v :
  known_texture_key label = true ->
  forallb (fun e : string * jvalue => known_texture_key (fst e)) (flag_entry fl flag label v)
  = true.
Proof.
  intros Hk. unfold flag_entry. destruct (negb (Z.land fl flag =? 0)); simpl; [| reflexivity].
  rewrite Hk. reflexivity.
Qed.

(** Every member save writes into a texture block is one deserializeTexture knows. *)
Lemma save_texture_ok ts slot block :
  save_texture ts slot = Some block -> texture_block_ok block = true.
Proof.
  unfold save_texture, texture_block_ok. destruct slot as [id |].
  - destruct (ts !! id) as [t |]; simpl; [| discriminate]. intros [= <-].
    cbn [object_entries forallb]. rewrite !forallb_app, !flag_entry_ok by reflexivity.
    destruct (0 <? tex_atlas_size t), (Texture_hasData t); reflexivity.
  - intros [= <-]. reflexivity.
Qed.

Lemma save_textures_spec ts texs : forall n i blocks,
  save_textures ts texs i n = Some blocks ->
  length blocks = n /\
  forallb (fun e => is_texture_member e && texture_block_ok (snd e)) blocks = true.
Proof.
  induction n as [| n IH]; intros i blocks; simpl.
  - intros [= <-]. auto.
  - destruct (texs !! i) as [slot |]; simpl; [| discriminate].
    destruct (save_texture ts slot) as [block |] eqn:Hblock; simpl; [| discriminate].
    destruct (save_textures ts texs (S i) n) as [rest |] eqn:Hrest; simpl; [| discriminate].
    intros [= <-]. destruct (IH _ _ Hrest) as [Hlen Hall]. simpl.
    rewrite Hlen, Hall, (save_texture_ok _ _ _ Hblock). auto.
Qed.

Lemma save_textures_defined ts texs : forall n i,
  (i + n <= length texs)%nat ->
  (forall k id, texs !! k = Some (Some id) -> (id < length ts)%nat) ->
  is_Some (save_textures ts texs i n).
Proof.
  induction n as [| n IH]; intros i Hlen Hvalid; simpl; [eauto |].
  destruct (lookup_lt_is_Some_2 texs i) as [slot Hslot]; [lia |].
  rewrite Hslot. simpl.
  assert (Hblock : is_Some (save_texture ts slot)).
  { unfold save_texture. destruct slot as [id |]; [| eauto].
    destruct (lookup_lt_is_Some_2 ts id) as [t ->]; [eapply Hvalid, Hslot |]. simpl. eauto. }
  destruct Hblock as [block ->]. simpl.
  destruct (IH (S i)) as [rest ->]; [lia | exact Hvalid |]. simpl. eauto.
Qed.

Lemma save_uniforms_defined sus : forall i us,
  (i + length sus <= length us)%nat -> is_Some (save_uniforms i sus us).
Proof.
  induction sus as [| su rest IH]; intros i us Hlen; simpl; [eauto |].
  simpl in Hlen. destruct (lookup_lt_is_Some_2 us i) as [u ->]; [lia |]. simpl.
  destruct (IH (S i) us) as [items ->]; [lia |]. simpl. eauto.
Qed.

(** save on a ready material with a shader, in one equation. *)
Lemma save_state serializer s sh shader :
  wf s -> covered s -> isReady (this s) = true ->
  m_shader (this s) = Some sh -> shaders s !! sh = Some shader ->
  exists blocks uniforms,
    save_textures (textures s) (m_textures (this s)) 0 (m_texture_count (this s)) = Some blocks /\
    save_uniforms 0 (sh_uniforms shader) (m_uniforms (this s)) = Some uniforms /\
    save serializer s =
      Some ((true,
             serializer ++
             [JObject ([("shader", JString (sh_path shader))] ++
                       (if negb (m_layer_count (this s) =? 1)
                        then [("layer_count", JInt (m_layer_count (this s)))] else []) ++
                       blocks ++ save_tail (this s) uniforms)]),
            s, []).
Proof.
  intros Hwf Hcov Hready Hsh Hshader.
  destruct (save_textures_defined (textures s) (m_textures (this s))
              (m_texture_count (this s)) 0) as [blocks Hblocks];
    [pose proof (wf_count s Hwf); lia | apply Hwf |].
  destruct (save_uniforms_defined (sh_uniforms shader) 0 (m_uniforms (this s)))
    as [uniforms Huniforms]; [apply (Hcov sh shader Hsh Hshader) |].
  exists blocks, uniforms. split; [exact Hblocks |]. split; [exact Huniforms |].
  assert (Hrun : runs (save serializer) s (fun r s1 ev =>
    r = (true,
         serializer ++
         [JObject ([("shader", JString (sh_path shader))] ++
                   (if negb (m_layer_count (this s) =? 1)
                    then [("layer_count", JInt (m_layer_count (this s)))] else []) ++
                   blocks ++ save_tail (this s) uniforms)]) /\
    s1 = s /\ ev = [])).
  { unfold save. run. unfold id. rewrite Hready, Hsh. cbn [negb].
    run1. run_with Hshader. run. run_with Hblocks. run1. run_with Huniforms.
    unfold save_tail. destruct (m_color (this s)) as [[r g] b]. run. auto. }
  destruct Hrun as (r & s1 & ev & Hrun & -> & -> & ->). exact Hrun.
Qed.

End Save.

Section SaveLoad.
Context `{Engine}.

(** ** The defines *)

Lemma save_defines_elem mask item :
  item ∈ save_defines mask <->
  exists i : nat, (i < 32)%nat /\ Z.testbit mask (Z.of_nat i) = true /\
                  item = JString (getShaderDefine (Z.of_nat i)).
Proof.
  unfold save_defines. rewrite list_elem_of_omap. split.
  - intros (i & Hi & Hf). apply elem_of_seq in Hi.
    rewrite land_zero_testbit, negb_involutive in Hf by lia.
    destruct (Z.testbit mask (Z.of_nat i)) eqn:Hb; [| discriminate].
    injection Hf as <-. exists i. split; [lia | auto].
  - intros (i & Hi & Hb & ->). exists i. split; [apply elem_of_seq; lia |].
    rewrite land_zero_testbit, negb_involutive, Hb by lia. reflexivity.
Qed.

Lemma define_names_invert_spec mask i :
  define_names_invert mask = true -> (i < 32)%nat -> Z.testbit mask (Z.of_nat i) = true ->
  define_of_item (JString (getShaderDefine (Z.of_nat i))) = Z.of_nat i.
Proof.
  unfold define_names_invert. rewrite forallb_forall. intros Hall Hi Hb.
  assert (Hin : In i (seq 0 32)) by (apply in_seq; lia).
  specialize (Hall i Hin). rewrite Hb in Hall. cbn [implb] in Hall.
  apply Z.eqb_eq, Hall.
Qed.

(** Reading back the defines save wrote gives the mask. *)
Lemma parsed_defines_save_defines mask :
  0 <= mask < 2 ^ 32 -> define_names_invert mask = true ->
  parsed_defines (JArray (save_defines mask)) = mask.
Proof.
  intros Hm Hinv.
  change (parsed_defines (JArray (save_defines mask)))
    with (foldl (fun acc item => Z.lor acc (define_bit (define_of_item item))) 0
            (save_defines mask)).
  assert (Hrange : forall item, item ∈ save_defines mask -> 0 <= define_of_item item < 32).
  { intros item (i & Hi & Hb & ->)%save_defines_elem.
    rewrite (define_names_invert_spec mask i Hinv Hi Hb). lia. }
  apply Z.bits_inj'. intros n Hn.
  destruct (Z.ltb_spec n 32) as [Hlt | Hge].
  - rewrite (fold_defines_testbit define_of_item) by (assumption || lia).
    rewrite Z.bits_0. cbn [orb].
    apply Bool.eq_iff_eq_true. rewrite existsb_exists. split.
    + intros (item & Hin & Heq). apply list_elem_of_In, save_defines_elem in Hin
        as (i & Hi & Hb & ->).
      rewrite (define_names_invert_spec mask i Hinv Hi Hb) in Heq.
      apply Z.eqb_eq in Heq. rewrite <- Heq. exact Hb.
    + intros Hb. exists (JString (getShaderDefine n)). split.
      * apply list_elem_of_In, save_defines_elem. exists (Z.to_nat n).
        rewrite Z2Nat.id by lia. split; [lia | auto].
      * pose proof (define_names_invert_spec mask (Z.to_nat n) Hinv) as Hi.
        rewrite Z2Nat.id in Hi by lia. rewrite Hi; [apply Z.eqb_refl | lia | exact Hb].
  - rewrite (u32_range_testbit mask n Hm Hge).
    apply u32_range_testbit; [| exact Hge].
    apply (fold_defines_range define_of_item). lia.
Qed.

(** ** The members of the document, one by one *)

Lemma load_entry_defines dir v s :
  load_entry dir "defines" v s =
  Some (true, set_this (set_m_define_mask (parsed_defines v) (this s)) s, []).
Proof.
  unfold load_entry, compareString. cbn [String.eqb Ascii.eqb Bool.eqb].
  unfold bind. rewrite deserializeDefines_eq. reflexivity.
Qed.

Lemma load_entry_uniforms dir v s :
  load_entry dir "uniforms" v s =
  Some (true, set_this (set_m_uniforms (parsed_uniforms v) (this s)) s, uniforms_log v).
Proof.
  unfold load_entry, compareString. cbn [String.eqb Ascii.eqb Bool.eqb].
  unfold bind. rewrite deserializeUniforms_eq. unfold ret. rewrite app_nil_r. reflexivity.
Qed.

Lemma load_entry_shininess dir v s :
  load_entry dir "shininess" v s =
  Some (true, set_this (set_m_shininess (read_float v F32.four) (this s)) s, []).
Proof. reflexivity. Qed.

Lemma load_entry_alpha_ref dir v s :
  load_entry dir "alpha_ref" v s =
  Some (true, set_this (set_m_alpha_ref (read_float v DEFAULT_ALPHA_REF_VALUE) (this s)) s, []).
Proof. reflexivity. Qed.

Lemma load_entry_color dir v s :
  load_entry dir "color" v s =
  Some (true,
        set_this (set_m_color (read_float_item (array_items v) 0 F32.one,
                               read_float_item (array_items v) 1 F32.one,
                               read_float_item (array_items v) 2 F32.one) (this s)) s, []).
Proof. reflexivity. Qed.

(** The five members after the texture blocks, read back. *)
Lemma load_tail dir m uniforms s :
  load_entries dir (save_tail m uniforms) s =
  Some (true,
        set_this
          (set_m_color (saved_color (m_color m))
             (set_m_alpha_ref (JsonSerializer_float (m_alpha_ref m))
                (set_m_shininess (JsonSerializer_float (m_shininess m))
                   (set_m_uniforms (parsed_uniforms (JArray uniforms))
                      (set_m_define_mask
                         (parsed_defines (JArray (save_defines (m_define_mask m))))
                         (this s)))))) s,
        uniforms_log (JArray uniforms)).
Proof.
  unfold save_tail. cbn [load_entries]. unfold bind.
  rewrite load_entry_defines. cbv beta iota.
  rewrite load_entry_uniforms. cbv beta iota.
  rewrite load_entry_shininess. cbv beta iota.
  rewrite load_entry_alpha_ref. cbv beta iota.
  rewrite load_entry_color. cbv beta iota.
  unfold ret, saved_color, serialize_float.
  cbn [read_float array_items read_float_item lookup list_lookup].
  destruct (m_color m) as [[r g] b]. cbn [fst snd]. rewrite !app_nil_r. reflexivity.
Qed.

(** ** The shader member, and the members that leave the shaders alone *)

Lemma runs_conj {A : Type} (m : Eff A) s (P Q : A -> State -> list Event -> Prop) :
  runs m s P -> runs m s Q -> runs m s (fun a s1 ev => P a s1 ev /\ Q a s1 ev).
Proof.
  intros (a & s1 & ev & Hm & HP) HQ. exists a, s1, ev. split; [exact Hm |].
  split; [exact HP | exact (runs_elim _ _ _ _ _ _ HQ Hm)].
Qed.

Lemma load_entry_shader_spec dir v s :
  wf s ->
  runs (load_entry dir "shader" v) s (fun ok s1 ev =>
    ok = true /\ wf s1 /\ kept s s1 /\ textures s1 = textures s /\
    exists id shd,
      m_shader (this s1) = Some id /\ shaders s1 !! id = Some shd /\
      sh_path shd = Path_normalize (read_string MAX_PATH_LENGTH v "")).
Proof.
  intros Hwf. unfold load_entry, compareString. cbn [String.eqb Ascii.eqb Bool.eqb].
  run1. eapply runs_mono; [apply shader_manager_load_spec, Hwf |]. cbv beta.
  intros id s1 ev1 (Hwf1 & Hthis & Htex & (sh & Hid & Hp) & _).
  run1. eapply runs_mono;
    [apply setShader_spec; [exact Hwf1 | eapply lookup_lt_Some, Hid] |].
  cbv beta. intros _ s2 ev2 (Hwf2 & Hk & Htex2 & Hpaths & Hsh2). run.
  split; [reflexivity |]. split; [exact Hwf2 |].
  split; [unfold kept in *; rewrite <- Hthis; exact Hk |].
  split; [congruence |].
  assert (Hl : (sh_path <$> shaders s2) !! id = Some (sh_path sh)).
  { rewrite Hpaths, list_lookup_fmap, Hid. reflexivity. }
  rewrite list_lookup_fmap in Hl. destruct (shaders s2 !! id) as [shd |] eqn:Hshd;
    [| discriminate].
  exists id, shd. split; [exact Hsh2 |]. split; [exact Hshd |].
  simpl in Hl. congruence.
Qed.

Lemma load_entry_shaders dir label v s :
  wf s ->
  (is_texture_member (label, v) = true ->
   (m_texture_count (this s) < length (m_textures (this s)))%nat) ->
  String.eqb label "shader" = false ->
  runs (load_entry dir label v) s (fun _ s1 _ => shaders s1 = shaders s).
Proof.
  intros Hwf Hcap Hlabel. unfold load_entry, compareString, is_texture_member in *.
  simpl fst in *.
  destruct (String.eqb_spec label "defines") as [-> | N1].
  { run1. eapply runs_of_eq; [apply deserializeDefines_eq |]. run. reflexivity. }
  destruct (String.eqb_spec label "uniforms") as [-> | N2].
  { run1. eapply runs_of_eq; [apply deserializeUniforms_eq |]. run. reflexivity. }
  destruct (String.eqb_spec label "texture") as [-> | N3].
  { eapply runs_mono; [apply deserializeTexture_spec; [exact Hwf | apply Hcap; reflexivity] |].
    cbv beta. intros ok s1 ev (_ & _ & (Hs & _) & _). exact Hs. }
  destruct (String.eqb_spec label "alpha_ref") as [-> | N4]; [run; reflexivity |].
  destruct (String.eqb_spec label "layer_count") as [-> | N5]; [run; reflexivity |].
  destruct (String.eqb_spec label "color") as [-> | N6]; [run; reflexivity |].
  destruct (String.eqb_spec label "shininess") as [-> | N7]; [run; reflexivity |].
  rewrite Hlabel. run. reflexivity.
Qed.

Lemma load_entries_shaders dir entries : forall s,
  wf s -> is_Some (m_shader (this s)) ->
  (m_texture_count (this s) + texture_blocks entries <= length (m_textures (this s)))%nat ->
  has_member "shader" entries = false ->
  runs (load_entries dir entries) s (fun _ s1 _ => shaders s1 = shaders s).
Proof.
  induction entries as [| [label v] rest IH]; intros s Hwf Hsh Hcap Hno; cbn [load_entries].
  - run. reflexivity.
  - rewrite texture_blocks_cons in Hcap.
    assert (Hhm : has_member "shader" ((label, v) :: rest) =
                  String.eqb label "shader" || has_member "shader" rest) by reflexivity.
    rewrite Hhm in Hno. apply orb_false_iff in Hno as [Hlabel Hrest].
    assert (Hcap1 : is_texture_member (label, v) = true ->
                    (m_texture_count (this s) < length (m_textures (this s)))%nat).
    { intros Ht. rewrite Ht in Hcap. lia. }
    run1. eapply runs_mono.
    { apply runs_conj; [apply (load_entry_spec dir label v s Hwf Hsh Hcap1) |
                        apply (load_entry_shaders dir label v s Hwf Hcap1 Hlabel)]. }
    cbv beta. intros ok s1 ev1 ((Hwf1 & Hsh1 & _ & Hl1 & _ & _ & Hc1 & _) & Hs1).
    destruct ok.
    + eapply runs_mono; [apply IH; [exact Hwf1 | exact Hsh1 | | exact Hrest] |].
      * rewrite Hl1, Hc1. destruct (is_texture_member (label, v)); simpl; lia.
      * cbv beta. intros _ s2 _ Hs2. congruence.
    + run. exact Hs1.
Qed.

Lemma saved_blocks_spec blocks :
  forallb (fun e => is_texture_member e && texture_block_ok (snd e)) blocks = true ->
  texture_blocks blocks = length blocks /\
  has_bad_texture_block blocks = false /\
  has_member "shader" blocks = false.
Proof.
  induction blocks as [| [label v] rest IH]; [auto |].
  cbn [forallb snd]. rewrite !andb_true_iff. intros [[Ht Hok] Hrest].
  destruct (IH Hrest) as (Hc & Hb & Hm). rewrite texture_blocks_cons, Ht, Hc.
  split; [reflexivity |].
  unfold has_bad_texture_block, has_member in *. cbn [existsb snd fst].
  rewrite Ht, Hok, Hb, Hm.
  unfold is_texture_member in Ht. simpl in Ht. apply String.eqb_eq in Ht. subst label.
  auto.
Qed.

(** Loading what save wrote: the shader, the slots, and every member
    save writes after the texture blocks. *)
Lemma save_load_spec (m : Material) p uniforms blocks layer size s :
  wf s -> is_Some (m_shader (this s)) ->
  (m_texture_count (this s) + length blocks <= length (m_textures (this s)))%nat ->
  forallb (fun e => is_texture_member e && texture_block_ok (snd e)) blocks = true ->
  layer = [] \/ (exists z, layer = [("layer_count", JInt z)]) ->
  runs (load (JObject ([("shader", JString p)] ++ layer ++ blocks ++ save_tail m uniforms))
          size) s
    (fun ok s1 ev =>
       ok = true /\
       (exists id shd, m_shader (this s1) = Some id /\ shaders s1 !! id = Some shd /\
                       sh_path shd = Path_normalize (copyString MAX_PATH_LENGTH p)) /\
       m_texture_count (this s1) = (m_texture_count (this s) + length blocks)%nat /\
       m_define_mask (this s1) = parsed_defines (JArray (save_defines (m_define_mask m))) /\
       m_uniforms (this s1) = parsed_uniforms (JArray uniforms) /\
       m_shininess (this s1) = JsonSerializer_float (m_shininess m) /\
       m_alpha_ref (this s1) = JsonSerializer_float (m_alpha_ref m) /\
       m_color (this s1) = saved_color (m_color m)).
Proof.
  intros Hwf Hsh Hcap Hblocks Hlayer.
  destruct (saved_blocks_spec blocks Hblocks) as (Hcount & Hgood & Hnosh).
  assert (Hmid : texture_blocks (layer ++ blocks) = length blocks /\
                 has_bad_texture_block (layer ++ blocks) = false /\
                 has_member "shader" (layer ++ blocks) = false).
  { destruct Hlayer as [-> | [z ->]]; simpl; auto. }
  destruct Hmid as (Hcount' & Hgood' & Hnosh').
  unfold load, setAlphaRef. run.
  match goal with |- context [load_entries ?d _] => set (dir := d) end.
  cbn [object_entries app load_entries].
  run1. eapply runs_mono.
  { apply load_entry_shader_spec.
    apply (wf_textures_step s); simpl; try assumption; try reflexivity; apply Hwf. }
  cbv beta. intros ok s1 ev1 (-> & Hwf1 & Hk1 & _ & id & shd & Hid & Hshd & Hpath).
  destruct Hk1 as (_ & _ & _ & Htx1 & Hc1 & _). simpl in Htx1, Hc1.
  rewrite app_assoc.
  assert (Hcap1 : (m_texture_count (this s1) + texture_blocks (layer ++ blocks)
                   <= length (m_textures (this s1)))%nat).
  { rewrite Hc1, Htx1, Hcount'. exact Hcap. }
  assert (Hsome1 : is_Some (m_shader (this s1))) by (rewrite Hid; eauto).
  destruct (runs_conj _ _ _ _
              (load_entries_spec dir (layer ++ blocks) s1 Hwf1 Hsome1 Hcap1)
              (load_entries_shaders dir (layer ++ blocks) s1 Hwf1 Hsome1 Hcap1 Hnosh'))
    as (ok2 & s2 & ev2 & Hrun2 & (Hwf2 & _ & _ & _ & _ & -> & Hok2 & Hsh2) & Hs2).
  rewrite Hgood' in Hrun2, Hok2. cbn [negb] in Hrun2, Hok2.
  destruct (Hok2 eq_refl) as [Hc2 _]. specialize (Hsh2 Hnosh').
  eapply runs_of_eq.
  { rewrite load_entries_app, Hrun2, load_tail. reflexivity. }
  cbv beta iota. run. cbn [this set_this m_shader set_m_color set_m_alpha_ref set_m_shininess
    set_m_uniforms set_m_define_mask].
  rewrite Hsh2, Hid. run. simpl.
  split; [reflexivity |]. split.
  - exists id, shd. rewrite Hs2. split; [rewrite Hsh2; exact Hid |].
    split; [exact Hshd | exact Hpath].
  - rewrite Hc2, Hc1, Hcount'. auto 10.
Qed.

(** ** The uniforms *)

Lemma u32_s32 z : u32 (s32 z) = u32 z.
Proof.
  unfold s32. destruct (u32 z <? 2 ^ 31).
  - unfold u32. apply Z.mod_mod. lia.
  - unfold u32. rewrite <- (Z.mul_1_l (2 ^ 32)) at 2.
    rewrite <- Z.add_opp_r, <- Z.mul_opp_l, Z.mod_add by lia. apply Z.mod_mod. lia.
Qed.

(** A uniform, written by save and read back by deserializeUniforms. *)
Lemma reload_uniform su u :
  let u1 := fst (deserializeUniform_entries (object_entries (save_uniform su u))
                   fresh_uniform) in
  name_hash u1 = crc32 (copyString 32 (su_name su)) /\ same_value (su_type su) u u1.
Proof.
  cbv zeta. split.
  - rewrite (uniform_entries_hash _ fresh_uniform None (name_hash fresh_uniform) eq_refl).
    unfold save_uniform. cbn [object_entries foldl fst snd].
    destruct (su_type su); reflexivity.
  - assert (Hw : forall j, (j < 16)%nat ->
              get_word (fst (deserializeUniform_entries (object_entries (save_uniform su u))
                               fresh_uniform)) j =
              default (get_word fresh_uniform j)
                (foldl (fun acc e => match member_word (fst e) (snd e) j with
                                     | Some w => Some w
                                     | None => acc
                                     end) None (object_entries (save_uniform su u)))).
    { intros j Hj. apply uniform_entries_word; [exact Hj | reflexivity]. }
    unfold save_uniform, same_value in *. destruct (su_type su); cbn [object_entries] in Hw.
    + (* FLOAT *) rewrite Hw by lia. reflexivity.
    + (* VEC3 *) intros j Hj. rewrite Hw by lia.
      destruct j as [| [| [| j]]]; [reflexivity | reflexivity | reflexivity | lia].
    + (* COLOR *) intros j Hj. rewrite Hw by lia.
      destruct j as [| [| [| j]]]; [reflexivity | reflexivity | reflexivity | lia].
    + (* TIME *) rewrite Hw by lia. reflexivity.
    + (* INT *) rewrite Hw by lia. cbn [foldl fst snd]. unfold member_word.
      cbn [String.eqb Ascii.eqb Bool.eqb Nat.eqb default read_int]. rewrite !u32_s32.
      reflexivity.
    + (* MATRIX4 *) intros j Hj. rewrite Hw by lia. cbn [foldl fst snd]. unfold member_word.
      cbn [String.eqb Ascii.eqb Bool.eqb orb]. apply Nat.ltb_lt in Hj as Hlt. rewrite Hlt.
      cbn [default array_items]. unfold read_float_item.
      rewrite list_lookup_fmap, lookup_seq_lt by exact Hj. reflexivity.
Qed.

Lemma save_uniforms_lookup sus : forall i us items,
  save_uniforms i sus us = Some items ->
  forall k su, sus !! k = Some su ->
    exists u, us !! (i + k)%nat = Some u /\ items !! k = Some (save_uniform su u).
Proof.
  induction sus as [| su0 rest IH]; intros i us items; simpl.
  - intros _ k su Hk. rewrite lookup_nil in Hk. discriminate.
  - destruct (us !! i) as [u0 |] eqn:Hu0; simpl; [| discriminate].
    destruct (save_uniforms (S i) rest us) as [items' |] eqn:Hrest; simpl; [| discriminate].
    intros [= <-] [| k] su Hk; simpl in Hk.
    + injection Hk as <-. exists u0. rewrite Nat.add_0_r. auto.
    + destruct (IH _ _ _ Hrest k su Hk) as (u & Hu & Hitem).
      exists u. replace (i + S k)%nat with (S i + k)%nat by lia. auto.
Qed.

End SaveLoad.

Section Documents.
Context `{Engine}.

Lemma texture_blocks_app a b :
  texture_blocks (a ++ b) = (texture_blocks a + texture_blocks b)%nat.
Proof. unfold texture_blocks. rewrite List.filter_app, length_app. reflexivity. Qed.

Lemma has_bad_texture_block_app a b :
  has_bad_texture_block (a ++ b) = has_bad_texture_block a || has_bad_texture_block b.
Proof. apply existsb_app. Qed.

Lemma has_member_app key a b : has_member key (a ++ b) = has_member key a || has_member key b.
Proof. apply existsb_app. Qed.

Lemma saved_blocks_member key blocks :
  forallb (fun e => is_texture_member e && texture_block_ok (snd e)) blocks = true ->
  String.eqb "texture" key = false ->
  has_member key blocks = false.
Proof.
  intros Hall Hkey. induction blocks as [| [label v] rest IH]; [reflexivity |].
  cbn [forallb snd] in Hall. rewrite !andb_true_iff in Hall. destruct Hall as [[Ht _] Hrest].
  unfold has_member in *. cbn [existsb fst]. rewrite (IH Hrest).
  unfold is_texture_member in Ht. simpl in Ht. apply String.eqb_eq in Ht. subst label.
  rewrite Hkey. reflexivity.
Qed.

End Documents.

(** X28: the document [save] writes for a ready material with a shader:
    one object, appended to the serializer, that starts with the shader's
    path, has a [layer_count] member exactly if the layer count is not 1, and
    has one texture block for each slot in use, bound or not, none of them
    with a member deserializeTexture would reject.  The material is not
    changed and no collaborator is called. *)
Theorem save_writes_every_slot `{Engine} (s : State) (serializer : list jvalue)
    (sh : nat) (shader : Shader) :
  well_formed s = true ->
  uniforms_cover s = true ->
  isReady (this s) = true ->
  m_shader (this s) = Some sh ->
  shaders s !! sh = Some shader ->
  exists entries,
    save serializer s = Some ((true, serializer ++ [JObject entries]), s, []) /\
    head entries = Some ("shader", JString (sh_path shader)) /\
    texture_blocks entries = m_texture_count (this s) /\
    has_bad_texture_block entries = false /\
    has_member "layer_count" entries = negb (m_layer_count (this s) =? 1).
Proof.
  intros Hwf%well_formed_wf Hcov%uniforms_cover_covered Hready Hsh Hshader.
  destruct (save_state serializer s sh shader Hwf Hcov Hready Hsh Hshader)
    as (blocks & uniforms & Hblocks & _ & Hrun).
  destruct (save_textures_spec _ _ _ _ _ Hblocks) as [Hlen Hall].
  destruct (saved_blocks_spec blocks Hall) as (Hcount & Hgood & _).
  eexists. split; [exact Hrun |]. split; [reflexivity |].
  rewrite !texture_blocks_app, !has_bad_texture_block_app, !has_member_app.
  rewrite Hcount, Hgood, Hlen.
  rewrite (saved_blocks_member "layer_count" blocks Hall eq_refl).
  destruct (negb (m_layer_count (this s) =? 1)); auto.
Qed.

(** X29: what [save] writes, [load] reads back, also into a material
    that is not fresh.  A ready material with a shader is saved, and the
    document loaded into a material with room for its texture blocks: load
    returns true; the material then holds a shader with the saved shader's
    path (as Path normalizes it), as many more slots in use as the saved
    material had, the same define mask (the renderer's name table giving
    back the index of every define that is set), shininess, alpha reference
    and colour as the serializer's text gives each float back, and a uniform
    table with, at the index of each uniform of the shader, the hash of its
    name and the value save wrote for its type (0 for a TIME uniform, whose
    value is not saved). *)
Theorem save_then_load `{Engine} (s s' : State) (sh : nat) (shader : Shader) (size : Z) :
  well_formed s = true ->
  uniforms_cover s = true ->
  isReady (this s) = true ->
  m_shader (this s) = Some sh ->
  shaders s !! sh = Some shader ->
  0 <= m_define_mask (this s) < 2 ^ 32 ->
  define_names_invert (m_define_mask (this s)) = true ->
  well_formed s' = true ->
  is_Some (m_shader (this s')) ->
  (m_texture_count (this s') + m_texture_count (this s) <= length (m_textures (this s')))%nat ->
  exists doc s1 ev,
    save [] s = Some ((true, [doc]), s, []) /\
    load doc size s' = Some (true, s1, ev) /\
    (exists id shd,
       m_shader (this s1) = Some id /\ shaders s1 !! id = Some shd /\
       sh_path shd = Path_normalize (copyString MAX_PATH_LENGTH (sh_path shader))) /\
    m_texture_count (this s1) = (m_texture_count (this s') + m_texture_count (this s))%nat /\
    m_define_mask (this s1) = m_define_mask (this s) /\
    m_shininess (this s1) = JsonSerializer_float (m_shininess (this s)) /\
    m_alpha_ref (this s1) = JsonSerializer_float (m_alpha_ref (this s)) /\
    m_color (this s1) = saved_color (m_color (this s)) /\
    forall i su u,
      sh_uniforms shader !! i = Some su -> m_uniforms (this s) !! i = Some u ->
      exists u1,
        m_uniforms (this s1) !! i = Some u1 /\
        name_hash u1 = crc32 (copyString 32 (su_name su)) /\
        same_value (su_type su) u u1.
Proof.
  intros Hwf%well_formed_wf Hcov%uniforms_cover_covered Hready Hsh Hshader Hmask Hinv
         Hwf'%well_formed_wf Hsh' Hcap.
  destruct (save_state [] s sh shader Hwf Hcov Hready Hsh Hshader)
    as (blocks & uniforms & Hblocks & Huniforms & Hrun).
  destruct (save_textures_spec _ _ _ _ _ Hblocks) as [Hlen Hall].
  rewrite <- Hlen in Hcap.
  destruct (save_load_spec (this s) (sh_path shader) uniforms blocks
              (if negb (m_layer_count (this s) =? 1)
               then [("layer_count", JInt (m_layer_count (this s)))] else [])
              size s' Hwf' Hsh' Hcap Hall)
    as (ok & s1 & ev & Hload & -> & Hshader1 & Hcount & Hdefines & Htable & Hshin & Halpha
        & Hcolor).
  { destruct (negb (m_layer_count (this s) =? 1)); eauto. }
  eexists _, s1, ev. split; [exact Hrun |]. split; [exact Hload |].
  split; [exact Hshader1 |]. split; [rewrite Hcount, Hlen; reflexivity |].
  split; [rewrite Hdefines; apply parsed_defines_save_defines; assumption |].
  split; [exact Hshin |]. split; [exact Halpha |]. split; [exact Hcolor |].
  intros i su u Hsu Hu.
  destruct (save_uniforms_lookup _ _ _ _ Huniforms i su Hsu) as (u' & Hu' & Hitem).
  simpl in Hu'. rewrite Hu in Hu'. injection Hu' as <-.
  exists (fst (deserializeUniform_entries (object_entries (save_uniform su u)) fresh_uniform)).
  split; [| apply reload_uniform].
  rewrite Htable. unfold parsed_uniforms. cbn [array_items].
  rewrite list_lookup_fmap, Hitem. reflexivity.
Qed.

(** * What save writes for the texture slots, read back *)

Section SavedBlocks.
Context `{Engine}.



(** ** The block of a bound texture *)

Lemma save_texture_bound ts (id : nat) t :
  ts !! id = Some t ->
  save_texture ts (Some id) =
  Some (JObject (("source", JString (String "/" (copyString (MAX_PATH_LENGTH - 1) (tex_path t))))
                 :: saved_members t)).
Proof. intros Ht. unfold save_texture. rewrite Ht. reflexivity. Qed.













(** ** The blocks of all the slots *)


(** ** The whole document *)



(** ** The conditions of the round trip, spelled out *)



End SavedBlocks.

(** * The round trip of a material through save and load *)


(** * More theorems at work on the sample engine *)

Section MoreExamples.
#[local] Existing Instance Sample.engine.

Lemma setDefine_other_defines_witness :
  exists s1 ev,
    setDefine 3 true Sample.ready = Some (tt, s1, ev) /\
    isDefined (this s1) 1 = isDefined (this Sample.ready) 1 /\
    textures s1 = textures Sample.ready /\ shaders s1 = shaders Sample.ready /\
    exists instance,
      this s1 = set_m_shader_instance instance
                  (set_m_define_mask (m_define_mask (this s1)) (this Sample.ready)).
Proof. apply (setDefine_other_defines Sample.ready 3 1 true); lia. Defined.

Lemma setDefine_order_witness :
  exists s1 ev1 s1' ev1' s2 ev2 ev2',
    setDefine 1 true Sample.ready = Some (tt, s1, ev1) /\
    setDefine 2 true s1 = Some (tt, s2, ev2) /\
    setDefine 2 true Sample.ready = Some (tt, s1', ev1') /\
    setDefine 1 true s1' = Some (tt, s2, ev2') /\
    resolutions (ev1 ++ ev2) = resolutions (ev1' ++ ev2').
Proof.
  apply (setDefine_order Sample.ready 1 2 true true).
  - lia.
  - lia.
  - lia.
  - vm_compute. split; [discriminate | reflexivity].
Defined.

Lemma setDefine_then_opposite_witness :
  exists s1 ev1 s2 ev2,
    setDefine 3 true Sample.ready = Some (tt, s1, ev1) /\
    setDefine 3 (negb true) s1 = Some (tt, s2, ev2) /\
    isDefined (this s2) 3 = negb true /\
    ev2 = [GetInstance 0 (m_define_mask (this s2))] /\
    m_shader_instance (this s2) = Some (InstanceOf 0 (m_define_mask (this s2))) /\
    resolutions (ev1 ++ ev2) =
      (if Bool.eqb (isDefined (this Sample.ready) 3) true then 1 else 2)%nat.
Proof.
  apply (setDefine_then_opposite Sample.ready 3 true 0).
  - lia.
  - vm_compute. split; [discriminate | reflexivity].
  - vm_compute. reflexivity.
  - vm_compute. reflexivity.
Defined.

Lemma setAlphaRef_field_witness :
  exists s1,
    setAlphaRef 0x3F000000 Sample.ready = Some (tt, s1, []) /\
    m_alpha_ref (this s1) = 0x3F000000 /\
    alpha_ref_field (m_render_states (this s1)) = alpha_ref_byte 0x3F000000 /\
    (forall n, 0 <= n < 64 ->
               n < BGFX_STATE_ALPHA_REF_SHIFT \/ BGFX_STATE_ALPHA_REF_SHIFT + 8 <= n ->
               Z.testbit (m_render_states (this s1)) n =
               Z.testbit (m_render_states (this Sample.ready)) n).
Proof. apply (setAlphaRef_field Sample.ready 0x3F000000). simpl. lia. Defined.

Lemma setShader_never_null_witness :
  exists s1 ev,
    setShader None Sample.ready = Some (tt, s1, ev) /\
    m_shader (this s1) = Some (default getDefaultShader None).
Proof.
  apply (setShader_never_null Sample.ready None).
  - vm_compute. reflexivity.
  - reflexivity.
Defined.

Lemma setShader_spares_default_shader_witness :
  exists s1 ev,
    setShader (Some 1%nat) Sample.pending_world = Some (tt, s1, ev) /\
    (RemoveDependency (ShaderRes getDefaultShader) ∉ ev) /\
    (ManagerUnload (ShaderRes getDefaultShader) ∉ ev).
Proof.
  apply (setShader_spares_default_shader Sample.pending_world (Some 1%nat)).
  - vm_compute. reflexivity.
  - vm_compute. reflexivity.
Defined.

Lemma setShader_ready_shader_witness :
  exists s1,
    setShader (Some 0%nat) Sample.shuffled_loaded =
      Some (tt, s1,
            release_shader_events (m_shader (this Sample.shuffled_loaded)) ++
            [AddDependency (ShaderRes 0); GetInstance 0 (m_define_mask (this s1))]) /\
    m_shader (this s1) = Some 0%nat /\
    aligned (sh_uniforms Sample.default_shader) (m_uniforms (this s1)) /\
    m_shader_instance (this s1) = Some (InstanceOf 0 (m_define_mask (this s1))) /\
    textures s1 = textures Sample.shuffled_loaded.
Proof.
  apply (setShader_ready_shader Sample.shuffled_loaded 0 Sample.default_shader).
  - vm_compute. reflexivity.
  - vm_compute. reflexivity.
  - reflexivity.
Defined.

Lemma setShader_pending_shader_witness :
  exists s1,
    setShader (Some 1%nat) Sample.pending_world =
      Some (tt, s1,
            release_shader_events (m_shader (this Sample.pending_world)) ++
            [AddDependency (ShaderRes 1)]) /\
    this s1 = set_m_shader (Some 1%nat) (this Sample.pending_world) /\
    m_shader_instance (this s1) = m_shader_instance (this Sample.pending_world) /\
    textures s1 = textures Sample.pending_world.
Proof.
  apply (setShader_pending_shader Sample.pending_world 1 Sample.pending_shader).
  - vm_compute. reflexivity.
  - vm_compute. reflexivity.
  - reflexivity.
Defined.

Lemma unload_releases_witness :
  exists s1,
    unload Sample.first_loaded =
      Some (tt, s1,
            release_shader_events (m_shader (this Sample.first_loaded)) ++
            release_texture_events (bound_textures (this Sample.first_loaded))) /\
    this s1 = set_m_texture_count 0
                (with_default_shader
                   (set_m_uniforms [] (set_m_command_buffer None (this Sample.first_loaded)))) /\
    m_textures (this s1) = m_textures (this Sample.first_loaded) /\
    bound_textures (this s1) = [] /\
    well_formed s1 = true.
Proof. apply (unload_releases Sample.first_loaded). vm_compute. reflexivity. Defined.

Lemma unload_twice_witness :
  exists s1 ev,
    unload Sample.first_loaded = Some (tt, s1, ev) /\
    unload s1 = Some (tt, s1, []).
Proof. apply (unload_twice Sample.first_loaded). vm_compute. reflexivity. Defined.

Lemma Material_ctor_spec_witness :
  exists s1,
    Material_ctor (set_this (Material_init "models/crate/crate.mat") Sample.world)
      = Some (tt, s1, []) /\
    textures s1 = textures Sample.world /\ shaders s1 = shaders Sample.world /\
    m_shader (this s1) = Some getDefaultShader /\
    m_shader_instance (this s1) = Some (FirstInstance getDefaultShader) /\
    m_textures (this s1) = replicate MAX_TEXTURE_COUNT None /\
    m_texture_count (this s1) = 0%nat /\
    well_formed s1 = true /\
    forall file, (texture_blocks (object_entries file) <= MAX_TEXTURE_COUNT)%nat ->
                 loadable s1 file = true.
Proof.
  apply (Material_ctor_spec Sample.world "models/crate/crate.mat").
  vm_compute. reflexivity.
Defined.

Lemma onBeforeReady_texture_defines_witness :
  exists s1 ev,
    onBeforeReady Sample.loaded = Some (tt, s1, ev) /\
    isDefined (this s1) 3 =
      match deciding_slot 3 (sh_texture_slots (add_shader_ref 1 Sample.default_shader)) 0 with
      | Some k => bool_decide (is_Some (slot_pointer (this Sample.loaded) k))
      | None => isDefined (this Sample.loaded) 3
      end /\
    (0 <= m_define_mask (this Sample.loaded) < 2 ^ 32 ->
     0 <= m_define_mask (this s1) < 2 ^ 32).
Proof.
  apply (onBeforeReady_texture_defines Sample.loaded 0
           (add_shader_ref 1 Sample.default_shader) 3).
  - vm_compute. reflexivity.
  - vm_compute. reflexivity.
  - vm_compute. reflexivity.
  - vm_compute. reflexivity.
  - lia.
Defined.

Lemma onBeforeReady_carries_values_witness :
  exists s1 ev,
    onBeforeReady Sample.shuffled_loaded = Some (tt, s1, ev) /\
    m_uniforms (this s1) !! 0%nat =
      Some (default fresh_uniform (m_uniforms (this Sample.shuffled_loaded) !! 2%nat)).
Proof.
  apply (onBeforeReady_carries_values Sample.shuffled_loaded 0 Sample.default_shader 0
           {| su_name := "roughness"; su_name_hash := crc32 "roughness"; su_type := FLOAT;
              su_handle := 1 |}).
  - vm_compute. reflexivity.
  - vm_compute. reflexivity.
  - vm_compute. reflexivity.
  - refine (bool_decide_unpack _ _); vm_compute; exact I.
  - refine (bool_decide_unpack _ _); vm_compute; exact I.
  - reflexivity.
  - apply (list_elem_of_lookup_2 _ 2%nat). vm_compute. reflexivity.
  - vm_compute. reflexivity.
Defined.

Lemma createCommandBuffer_shape_witness :
  exists ucmds tcmds r g b,
    createCommandBuffer Sample.ready =
      Some (tt,
            set_this
              (set_m_command_buffer
                 (Some (ucmds ++ tcmds ++
                        [CmdSetUniform getMaterialColorShininessUniform r g b
                           (m_shininess (this Sample.ready));
                         CmdEnd]))
                 (this Sample.ready)) Sample.ready,
            []) /\
    m_color (this Sample.ready) = (r, g, b) /\
    forallb is_uniform_command ucmds = true /\
    length ucmds =
      length (List.filter has_command (sh_uniforms (add_shader_ref 1 Sample.default_shader))) /\
    forallb is_texture_command tcmds = true /\
    forall k h t,
      CmdSetTexture k h t ∈ tcmds <->
      bound_texture (this Sample.ready) k = Some t /\
      exists slot,
        sh_texture_slots (add_shader_ref 1 Sample.default_shader) !! k = Some slot /\
        m_uniform_handle slot = h.
Proof.
  apply (createCommandBuffer_shape Sample.ready 0 (add_shader_ref 1 Sample.default_shader)).
  - vm_compute. reflexivity.
  - vm_compute. reflexivity.
  - vm_compute. reflexivity.
  - vm_compute. reflexivity.
Defined.

Lemma getTextureByUniform_first_match_witness :
  getTextureByUniform "u_texColor" Sample.ready = Some (Some 0%nat, Sample.ready, []).
Proof.
  apply (getTextureByUniform_first_match Sample.ready 0
           (add_shader_ref 1 Sample.default_shader) "u_texColor" 0
           {| m_define_idx := -1; m_uniform := "u_texColor"; m_uniform_handle := 4 |}
           (Some 0%nat)).
  - vm_compute. reflexivity.
  - vm_compute. reflexivity.
  - reflexivity.
  - reflexivity.
  - intros k slot' Hk. lia.
  - vm_compute. reflexivity.
Defined.

Lemma getTextureByUniform_unknown_witness :
  getTextureByUniform "u_texSpecular" Sample.ready = Some (None, Sample.ready, []).
Proof.
  apply (getTextureByUniform_unknown Sample.ready "u_texSpecular").
  change (exists shader,
            shaders Sample.ready !! 0%nat = Some shader /\
            forall k slot, sh_texture_slots shader !! k = Some slot ->
                           m_uniform slot <> "u_texSpecular").
  exists (add_shader_ref 1 Sample.default_shader). split; [vm_compute; reflexivity |].
  intros [| [| k]] slot Hl; vm_compute in Hl;
    [injection Hl as <- | injection Hl as <- | discriminate]; discriminate.
Defined.

Lemma getTextureByUniform_of_getTextureUniform_witness :
  exists name,
    getTextureUniform 1 Sample.ready = Some (name, Sample.ready, []) /\
    getTextureByUniform name Sample.ready = Some (None, Sample.ready, []).
Proof.
  apply (getTextureByUniform_of_getTextureUniform Sample.ready 0
           (add_shader_ref 1 Sample.default_shader) 1 None).
  - vm_compute. reflexivity.
  - vm_compute. reflexivity.
  - refine (bool_decide_unpack _ _); vm_compute; exact I.
  - simpl. lia.
  - vm_compute. reflexivity.
Defined.

Lemma getTextureByUniform_after_unload_witness :
  exists s1,
    unload Sample.first_loaded =
      Some (tt, s1, release_texture_events (bound_textures (this Sample.first_loaded))) /\
    bound_textures (this s1) = [] /\
    forall u, result (getTextureByUniform u) s1
              = result (getTextureByUniform u) Sample.first_loaded.
Proof.
  apply (getTextureByUniform_after_unload Sample.first_loaded).
  - vm_compute. reflexivity.
  - vm_compute. reflexivity.
Defined.

Lemma setTexture_binds_slot_witness :
  exists s1 ev,
    setTexture 2 (Some 1%nat) Sample.two_textures = Some (tt, s1, ev) /\
    m_textures (this s1) = <[2%nat := Some 1%nat]> (m_textures (this Sample.two_textures)) /\
    m_texture_count (this s1) = Nat.max (m_texture_count (this Sample.two_textures)) (2 + 1) /\
    bound_texture (this s1) 2 = Some 1%nat /\
    shaders s1 = shaders Sample.two_textures /\
    textures_evolve (textures Sample.two_textures) (textures s1).
Proof.
  apply (setTexture_binds_slot Sample.two_textures 2 (Some 1%nat)).
  vm_compute. reflexivity.
Defined.

Lemma setTexture_define_follows_witness :
  exists s1 ev,
    setTexture 1 (Some 1%nat) Sample.two_textures = Some (tt, s1, ev) /\
    isDefined (this s1) 3 = bool_decide (is_Some (Some 1%nat)) /\
    (forall j, 0 <= j < 32 -> j <> 3 ->
               isDefined (this s1) j = isDefined (this Sample.two_textures) j) /\
    m_shader_instance (this s1) = Some (InstanceOf 0 (m_define_mask (this s1))) /\
    resolutions ev = 1%nat /\
    last ev = Some (GetInstance 0 (m_define_mask (this s1))).
Proof.
  apply (setTexture_define_follows Sample.two_textures 1 (Some 1%nat) 0
           (add_shader_ref 1 Sample.default_shader) 3).
  - vm_compute. reflexivity.
  - vm_compute. reflexivity.
  - vm_compute. reflexivity.
  - vm_compute. reflexivity.
  - vm_compute. reflexivity.
  - lia.
Defined.

Lemma setTexture_not_ready_witness :
  exists s1 ev,
    setTexture 0 None Sample.loaded = Some (tt, s1, ev) /\
    this s1 = rebound 0 None (this Sample.loaded) /\
    m_define_mask (this s1) = m_define_mask (this Sample.loaded) /\
    m_command_buffer (this s1) = m_command_buffer (this Sample.loaded) /\
    m_shader_instance (this s1) = m_shader_instance (this Sample.loaded) /\
    resolutions ev = 0%nat.
Proof.
  apply (setTexture_not_ready Sample.loaded 0 None).
  - vm_compute. reflexivity.
  - vm_compute. reflexivity.
Defined.

Lemma setTexturePath_binds_path_witness :
  exists s1 ev id t,
    setTexturePath 1 "models/crate/n.dds" Sample.ready = Some (tt, s1, ev) /\
    head ev = Some (ManagerLoad (TextureRes id)) /\
    m_textures (this s1) !! 1%nat = Some (Some id) /\
    textures s1 !! id = Some t /\
    tex_path t = "models/crate/n.dds".
Proof.
  apply (setTexturePath_binds_path Sample.ready 1 "models/crate/n.dds").
  - vm_compute. reflexivity.
  - reflexivity.
Defined.

Lemma deserializeDefines_rebuilds_mask_witness :
  exists s1,
    deserializeDefines (JArray [JString "SHADOW"; JString "SKINNED"]) Sample.cutout
      = Some (tt, s1, []) /\
    isDefined (this s1) 2 =
      existsb (fun item => define_of_item item =? 2)
              (array_items (JArray [JString "SHADOW"; JString "SKINNED"])) /\
    0 <= m_define_mask (this s1) < 2 ^ 32 /\
    s1 = set_this (set_m_define_mask (m_define_mask (this s1)) (this Sample.cutout))
           Sample.cutout.
Proof.
  apply (deserializeDefines_rebuilds_mask Sample.cutout
           (JArray [JString "SHADOW"; JString "SKINNED"]) 2).
  - lia.
  - vm_compute. reflexivity.
Defined.

Lemma deserializeTexture_stops_at_unknown_witness :
  exists blk s1 ev1,
    deserializeTexture_entries "models/crate/" [("source", JString "t.dds")]
      {| keep_data := false; flags := 0; atlas_size := -1 |} Sample.fresh
      = Some (Some blk, s1, ev1) /\
    deserializeTexture
      (JObject ([("source", JString "t.dds")] ++
                ("mipmaps", JBool true) :: [("srgb", JBool true)]))
      "models/crate/" Sample.fresh
      = Some (false, s1, ev1 ++ [LogWarning "mipmaps"]) /\
    m_texture_count (this s1) = m_texture_count (this Sample.fresh) /\
    bound_textures (this s1) = bound_textures (this Sample.fresh).
Proof.
  apply (deserializeTexture_stops_at_unknown Sample.fresh "models/crate/"
           [("source", JString "t.dds")] [("srgb", JBool true)] "mipmaps" (JBool true)).
  - vm_compute. reflexivity.
  - vm_compute. reflexivity.
  - reflexivity.
  - reflexivity.
Defined.

Lemma deserializeTexture_settings_witness :
  exists s1 ev,
    deserializeTexture Sample.full_block "models/crate/" Sample.fresh = Some (true, s1, ev) /\
    m_texture_count (this s1) = S (m_texture_count (this Sample.fresh)) /\
    bound_textures (this s1) =
      bound_textures (this Sample.fresh) ++
      match slot_pointer (this s1) (m_texture_count (this Sample.fresh)) with
      | Some id => [id]
      | None => []
      end /\
    match slot_pointer (this s1) (m_texture_count (this Sample.fresh)) with
    | Some id =>
        exists t, textures s1 !! id = Some t /\
                  tex_flags t = block_flags (object_entries Sample.full_block) /\
                  tex_atlas_size t = block_atlas_size (object_entries Sample.full_block)
    | None => True
    end.
Proof.
  apply (deserializeTexture_settings Sample.fresh "models/crate/" Sample.full_block).
  - vm_compute. reflexivity.
  - vm_compute. reflexivity.
  - reflexivity.
Defined.

Lemma load_result_witness :
  exists s1 ev,
    load Sample.bad_texture 80 Sample.fresh =
      Some (negb (has_bad_texture_block (object_entries Sample.bad_texture)), s1, ev) /\
    well_formed s1 = true /\
    (has_bad_texture_block (object_entries Sample.bad_texture) = false ->
     m_texture_count (this s1) =
       (m_texture_count (this Sample.fresh)
        + texture_blocks (object_entries Sample.bad_texture))%nat /\
     m_alpha_ref (this s1) =
       doc_alpha_ref (object_entries Sample.bad_texture) DEFAULT_ALPHA_REF_VALUE).
Proof.
  apply (load_result Sample.fresh Sample.bad_texture 80).
  vm_compute. reflexivity.
Defined.

Lemma save_writes_every_slot_witness :
  exists entries,
    save [] Sample.ready = Some ((true, [] ++ [JObject entries]), Sample.ready, []) /\
    head entries = Some ("shader", JString (sh_path (add_shader_ref 1 Sample.default_shader))) /\
    texture_blocks entries = m_texture_count (this Sample.ready) /\
    has_bad_texture_block entries = false /\
    has_member "layer_count" entries = negb (m_layer_count (this Sample.ready) =? 1).
Proof.
  apply (save_writes_every_slot Sample.ready [] 0 (add_shader_ref 1 Sample.default_shader)).
  - vm_compute. reflexivity.
  - vm_compute. reflexivity.
  - vm_compute. reflexivity.
  - vm_compute. reflexivity.
  - vm_compute. reflexivity.
Defined.

Lemma save_then_load_witness :
  exists doc s1 ev,
    save [] Sample.cutout = Some ((true, [doc]), Sample.cutout, []) /\
    load doc 120 Sample.fresh = Some (true, s1, ev) /\
    (exists id shd,
       m_shader (this s1) = Some id /\ shaders s1 !! id = Some shd /\
       sh_path shd =
         Path_normalize (copyString MAX_PATH_LENGTH
                           (sh_path (add_shader_ref 1 Sample.default_shader)))) /\
    m_texture_count (this s1) =
      (m_texture_count (this Sample.fresh) + m_texture_count (this Sample.cutout))%nat /\
    m_define_mask (this s1) = m_define_mask (this Sample.cutout) /\
    m_shininess (this s1) = JsonSerializer_float (m_shininess (this Sample.cutout)) /\
    m_alpha_ref (this s1) = JsonSerializer_float (m_alpha_ref (this Sample.cutout)) /\
    m_color (this s1) = saved_color (m_color (this Sample.cutout)) /\
    forall i su u,
      sh_uniforms (add_shader_ref 1 Sample.default_shader) !! i = Some su ->
      m_uniforms (this Sample.cutout) !! i = Some u ->
      exists u1,
        m_uniforms (this s1) !! i = Some u1 /\
        name_hash u1 = crc32 (copyString 32 (su_name su)) /\
        same_value (su_type su) u u1.
Proof.
  apply (save_then_load Sample.cutout Sample.fresh 0
           (add_shader_ref 1 Sample.default_shader) 120).
  - vm_compute. reflexivity.
  - vm_compute. reflexivity.
  - vm_compute. reflexivity.
  - vm_compute. reflexivity.
  - vm_compute. reflexivity.
  - vm_compute. split; [discriminate | reflexivity].
  - vm_compute. reflexivity.
  - vm_compute. reflexivity.
  - vm_compute. eexists. reflexivity.
  - vm_compute. lia.
Defined.



End MoreExamples.
